(** * libnih file watching (nih/file.c): a shallow embedding

    The C source keeps its state in two globals ([file_watches],
    [inotify_fd]), in [nih_alloc] blocks reached through pointers, and in
    the receive buffer of the [NihIo] wrapped around the inotify
    descriptor.  Here that state is one record [World]; every C function
    becomes a function in a state-and-failure monad over [World].  An
    [nih_assert] that fails, or a read through a dangling pointer, makes
    the computation fail ([None]).

    What the operating system answers (inotify, stat, opendir, open,
    fstat, mmap) is read from an [Env] of oracles that see the log of
    everything the program has done so far. *)

From stdpp Require Import gmap strings list.
From Stdlib.Strings Require Import Byte.

Local Open Scope Z_scope.
Local Set Warnings "-register-all".

(** ** Constants of the platform headers (Linux ABI) *)

Definition IN_MODIFY     : Z := 0x2.
Definition IN_MOVED_FROM : Z := 0x40.
Definition IN_MOVED_TO   : Z := 0x80.
Definition IN_MOVE       : Z := Z.lor IN_MOVED_FROM IN_MOVED_TO.
Definition IN_CREATE     : Z := 0x100.
Definition IN_DELETE     : Z := 0x200.
Definition IN_DELETE_SELF : Z := 0x400.
Definition IN_MOVE_SELF  : Z := 0x800.
Definition IN_IGNORED    : Z := 0x8000.

Definition S_IFMT  : Z := 0xF000.
Definition S_IFDIR : Z := 0x4000.
Definition S_IFREG : Z := 0x8000.
Definition S_ISDIR (m : Z) : bool := Z.land m S_IFMT =? S_IFDIR.

Definition O_ACCMODE : Z := 3.
Definition O_RDONLY  : Z := 0.
Definition O_RDWR    : Z := 2.
Definition PROT_READ  : Z := 1.
Definition PROT_WRITE : Z := 2.
Definition MAP_SHARED : Z := 1.

(** [size_t] on LP64. *)
Definition SIZE_MAX1 : Z := 2 ^ 64.
Definition to_size_t (z : Z) : Z := z mod SIZE_MAX1.

(** [sizeof (struct inotify_event)]: four 32-bit fields, then the name. *)
Definition sizeof_inotify_event : Z := 16.

(** The standard set of inotify events used for the dir_watcher function. *)
Definition DIR_EVENTS : Z :=
  Z.lor (Z.lor (Z.lor (Z.lor IN_CREATE IN_DELETE) IN_MODIFY) IN_MOVE) IN_MOVE_SELF.

(** C truth of [a & b]. *)
Definition has_bits (a b : Z) : bool := negb (Z.land a b =? 0).

(** ** Data model *)

(** Addresses of [nih_alloc] blocks. *)
Abbreviation ptr := nat.

(** The [watcher] function pointer of an [NihFileWatch]: the library's own
    [nih_dir_watcher], or a function of the caller known by its address. *)
Inductive NihFileWatcher :=
  | W_nih_dir_watcher
  | W_user (f : nat).

Record NihFileWatch := mkFileWatch {
  wd : Z;
  path : string;
  events : Z;
  watcher : NihFileWatcher;
  data : ptr
}.

(** Handler and filter pointers may be NULL ([None]).  A filter is a pure
    predicate on the full path; a handler is known by its address and its
    calls are logged. *)
Record NihDirWatch := mkDirWatch {
  d_path : string;
  subdirs : Z;
  filter : option (string -> bool);
  create_handler : option nat;
  modify_handler : option nat;
  delete_handler : option nat;
  d_data : ptr
}.

Inductive Block :=
  | BFile (f : NihFileWatch)
  | BDir (d : NihDirWatch).

(** The only destructor the file installs. *)
Inductive NihDestructor :=
  | D_nih_file_remove_watch.

(** An allocation context: the block, its parent, its children in the
    order they were allocated, and its destructor.  String blocks
    ([nih_strdup], [nih_sprintf]) are leaves without destructor and are
    left out. *)
Record Alloc := mkAlloc {
  a_block : Block;
  a_parent : option ptr;
  a_children : list ptr;
  a_destructor : option NihDestructor
}.

(** Everything the program does that can be seen from outside. *)
Inductive Event :=
  | E_inotify_init (ret : Z)
  | E_inotify_add_watch (fd : Z) (path : string) (events : Z) (ret : Z)
  | E_inotify_rm_watch (fd : Z) (wd : Z)
  | E_watcher (f : nat) (data : ptr) (watch : ptr) (events cookie : Z)
              (name : option string)
  | E_create_handler (f : nat) (data : ptr) (dw : ptr) (path : string)
  | E_modify_handler (f : nat) (data : ptr) (dw : ptr) (path : string)
  | E_delete_handler (f : nat) (data : ptr) (dw : ptr) (path : option string)
  | E_error_raise_system
  | E_warn (path : string)
  | E_open (path : string) (flags : Z) (ret : Z)
  | E_mmap (length prot flags fd : Z) (ret : option Z)
  | E_munmap (map length : Z) (ret : Z)
  | E_close (fd : Z).

Record World := mkWorld {
  heap : gmap nat Alloc;
  file_watches : list ptr;
  inotify_fd : Z;
  io_recv_buf : list byte;
  trace : list Event
}.

(** What the file system shows at one path: the result of [stat] (the
    mode, or failure) and of [opendir]/[readdir] (the entries with what
    lies under each, or failure). *)
Inductive Node :=
  | MkNode (st : option Z) (dir : option (list (string * Node))).

Definition node_stat (n : Node) : option Z :=
  match n with MkNode st _ => st end.

(** The operating system, as oracles over the log so far. *)
Record Env := mkEnv {
  sys_inotify_init : list Event -> Z;
  sys_inotify_add_watch : list Event -> Z -> string -> Z -> Z;
  sys_malloc_ok : list Event -> bool;
  sys_fs : list Event -> string -> Node;
  sys_open : list Event -> string -> Z -> Z;
  sys_fstat : list Event -> Z -> option Z;
  sys_mmap : list Event -> Z -> Z -> Z -> Z -> option Z;
  sys_munmap : list Event -> Z -> Z -> Z
}.

(** ** The monad *)

Definition M (A : Type) : Type := World -> option (A * World).

Definition ret {A} (a : A) : M A := fun w => Some (a, w).

Definition bind {A B} (m : M A) (k : A -> M B) : M B :=
  fun w => match m w with
           | Some (a, w') => k a w'
           | None => None
           end.

Definition abort {A} : M A := fun _ => None.

Notation "x <- m ;; k" := (bind m (fun x => k))
  (at level 100, m at next level, right associativity).
Notation "m ;;; k" := (bind m (fun _ => k))
  (at level 100, right associativity).

Definition get : M World := fun w => Some (w, w).
Definition modify (f : World -> World) : M unit := fun w => Some (tt, f w).

(** Modelled from the spec: the macro [nih_assert] of nih/macros.h is
    missing; a PreconditionViolation is "fatal", "a programming bug, not a
    recoverable condition".  The computation stops. *)
Definition nih_assert (b : bool) : M unit := if b then ret tt else abort.

Definition set_heap (f : gmap nat Alloc -> gmap nat Alloc) (w : World) : World :=
  mkWorld (f (heap w)) (file_watches w) (inotify_fd w) (io_recv_buf w) (trace w).
Definition set_file_watches (f : list ptr -> list ptr) (w : World) : World :=
  mkWorld (heap w) (f (file_watches w)) (inotify_fd w) (io_recv_buf w) (trace w).
Definition set_inotify_fd (fd : Z) (w : World) : World :=
  mkWorld (heap w) (file_watches w) fd (io_recv_buf w) (trace w).
Definition set_io_recv_buf (b : list byte) (w : World) : World :=
  mkWorld (heap w) (file_watches w) (inotify_fd w) b (trace w).
Definition log_event (e : Event) (w : World) : World :=
  mkWorld (heap w) (file_watches w) (inotify_fd w) (io_recv_buf w) (trace w ++ [e]).

Definition log (e : Event) : M unit := modify (log_event e).

(** Reading a block through a pointer; a pointer to nothing, or to a block
    of the other type, is undefined behaviour. *)
Definition load (p : ptr) : M Alloc :=
  fun w => match heap w !! p with
           | Some a => Some (a, w)
           | None => None
           end.

Definition load_file (p : ptr) : M NihFileWatch :=
  a <- load p ;;
  match a_block a with
  | BFile f => ret f
  | BDir _ => abort
  end.

Definition load_dir (p : ptr) : M NihDirWatch :=
  a <- load p ;;
  match a_block a with
  | BDir d => ret d
  | BFile _ => abort
  end.

Definition set_block (b : Block) (a : Alloc) : Alloc :=
  mkAlloc b (a_parent a) (a_children a) (a_destructor a).

Definition set_wd (z : Z) (f : NihFileWatch) : NihFileWatch :=
  mkFileWatch z (path f) (events f) (watcher f) (data f).

(** [watch->wd = z] *)
Definition store_wd (p : ptr) (z : Z) : M unit :=
  f <- load_file p ;;
  modify (set_heap (alter (set_block (BFile (set_wd z f))) p)).

(** ** nih/list.h, nih/alloc.h, nih/error.h, nih/io.h *)

(** Modelled from the spec: [nih_list_remove] of nih/list.c is missing;
    release "removes it from the registry".  The entry is unlinked from
    the list it is in; an entry in no list is left alone. *)
Definition nih_list_remove (p : ptr) : M unit :=
  modify (set_file_watches (List.filter (fun q => negb (Nat.eqb q p)))).

(** Modelled from the spec: [nih_list_add] of nih/list.c is missing;
    register "appends a new handle to the registry".  The entry is taken
    out of whatever list holds it and linked in before the head, which is
    the tail of the list. *)
Definition nih_list_add (p : ptr) : M unit :=
  modify (set_file_watches
            (fun l => List.filter (fun q => negb (Nat.eqb q p)) l ++ [p])).

(** Modelled from the spec: [nih_error_raise_system] and the macro
    [nih_return_system_error] of nih/error.h are missing; a SystemError
    "carries an error code and message" of the failed OS call. *)
Definition nih_error_raise_system : M unit := log E_error_raise_system.

(** Modelled from the spec: [nih_alloc_set_destructor] of nih/alloc.c is
    missing; the allocator has "an attachable pre-destruction hook". *)
Definition nih_alloc_set_destructor (p : ptr) (d : option NihDestructor) : M unit :=
  a <- load p ;;
  modify (set_heap (<[p := mkAlloc (a_block a) (a_parent a) (a_children a) d]>)).

Definition add_child (c : ptr) (a : Alloc) : Alloc :=
  mkAlloc (a_block a) (a_parent a) (a_children a ++ [c]) (a_destructor a).

Definition del_child (c : ptr) (a : Alloc) : Alloc :=
  mkAlloc (a_block a) (a_parent a)
          (List.filter (fun q => negb (Nat.eqb q c)) (a_children a))
          (a_destructor a).

(** Modelled from the spec: [nih_new] of nih/alloc.c is missing;
    "hierarchical allocation where a child block is automatically
    destroyed when its parent is".  NULL ([None]) when the system
    allocator fails; otherwise a block at an address not in use, linked
    under its parent. *)
Definition nih_new (E : Env) (parent : option ptr) (b : Block) : M (option ptr) :=
  w <- get ;;
  if sys_malloc_ok E (trace w) then
    let p := fresh (dom (heap w)) in
    modify (set_heap (fun h =>
      let h' := <[p := mkAlloc b parent [] None]> h in
      match parent with
      | Some q => alter (add_child p) q h'
      | None => h'
      end)) ;;;
    ret (Some p)
  else ret None.

(** ** nih_file_remove_watch *)

(** Remove the watch on the path and events mask associated with the
    watch given and remove it from the list of watches.  The structure
    itself is not freed. *)
Definition nih_file_remove_watch (watch : ptr) : M unit :=
  f <- load_file watch ;;
  if wd f <? 0 then ret tt
  else
    w <- get ;;
    log (E_inotify_rm_watch (inotify_fd w) (wd f)) ;;;
    store_wd watch (-1) ;;;
    nih_list_remove watch.

Definition run_destructor (d : NihDestructor) (p : ptr) : M unit :=
  match d with
  | D_nih_file_remove_watch => nih_file_remove_watch p
  end.

Fixpoint for_each {A} (f : A -> M unit) (l : list A) : M unit :=
  match l with
  | [] => ret tt
  | x :: r => f x ;;; for_each f r
  end.

(** Modelled from the spec: [nih_free] of nih/alloc.c is missing; "a child
    block is automatically destroyed when its parent is, with an
    attachable pre-destruction hook", and "a released child is always
    unlinked from its parent's child list".  Children go first, in the
    order they were allocated; then the block's own destructor runs, the
    block leaves its parent's list and its storage is given back.  The
    recursion follows the allocation tree, whose depth the fuel bounds. *)
Fixpoint nih_free_fuel (n : nat) (p : ptr) : M unit :=
  match n with
  | O => abort
  | S n =>
    a <- load p ;;
    for_each (nih_free_fuel n) (a_children a) ;;;
    a' <- load p ;;
    match a_destructor a' with
    | Some d => run_destructor d p
    | None => ret tt
    end ;;;
    modify (set_heap (fun h =>
      delete p match a_parent a' with
               | Some q => alter (del_child p) q h
               | None => h
               end))
  end.

Definition nih_free (p : ptr) : M unit :=
  fun w => nih_free_fuel (S (size (heap w))) p w.

(** Modelled from the spec: [nih_list_free] of nih/list.c is missing; it
    serves to "drop only this bookkeeping entry": the entry is unlinked
    from its list and freed. *)
Definition nih_list_free (p : ptr) : M unit :=
  nih_list_remove p ;;; nih_free p.

(** ** nih_file_init, nih_file_add_watch *)

(** Initialise the file watches list and inotify file descriptor.  The
    list head is the empty list from the start; the [NihIo] made by
    [nih_io_reopen] is the [io_recv_buf] of the world. *)
Definition nih_file_init (E : Env) : M unit :=
  w <- get ;;
  if inotify_fd w =? -1 then
    let fd := sys_inotify_init E (trace w) in
    log (E_inotify_init fd) ;;;
    modify (set_inotify_fd fd)
  else ret tt.

(** Content of a block fresh from [nih_new], before any field is set. *)
Definition uninitialised : NihFileWatch := mkFileWatch 0 "" 0 (W_user 0) 0%nat.

(** [path] and [watcher] are not NULL by their types. *)
Definition nih_file_add_watch (E : Env) (parent : option ptr) (path : string)
    (events : Z) (watcher : NihFileWatcher) (data : ptr) : M (option ptr) :=
  nih_assert (negb (events =? 0)) ;;;
  nih_file_init E ;;;
  w <- get ;;
  if inotify_fd w <? 0 then nih_error_raise_system ;;; ret None
  else
    r <- nih_new E parent (BFile uninitialised) ;;
    match r with
    | None => nih_error_raise_system ;;; ret None
    | Some watch =>
      nih_alloc_set_destructor watch (Some D_nih_file_remove_watch) ;;;
      w <- get ;;
      let r := sys_inotify_add_watch E (trace w) (inotify_fd w) path events in
      log (E_inotify_add_watch (inotify_fd w) path events r) ;;;
      store_wd watch r ;;;
      if r <? 0 then
        nih_error_raise_system ;;;
        nih_free watch ;;;
        ret None
      else
        modify (set_heap (alter
          (set_block (BFile (mkFileWatch r path events watcher data))) watch)) ;;;
        nih_list_add watch ;;;
        ret (Some watch)
    end.

(** ** nih_dir_walk *)

Definition is_dot (d_name : string) : bool :=
  String.eqb d_name "." || String.eqb d_name "..".

Definition filtered (filter : option (string -> bool)) (p : string) : bool :=
  match filter with
  | Some f => f p
  | None => false
  end.

Definition subpath_of (path d_name : string) : string :=
  path +:+ "/" +:+ d_name.

(** The [while ((ent = readdir (dir)) != NULL)] loop of [nih_dir_walk] over
    the entries of [path]; [walk] is the recursive call and [ret0] the
    current value of the variable [ret]. *)
Fixpoint readdir_loop (walk : string -> Node -> M Z) (path : string)
    (types : Z) (filter : option (string -> bool)) (visitor : string -> M Z)
    (ents : list (string * Node)) (ret0 : Z) : M Z :=
  match ents with
  | [] => ret ret0
  | (d_name, child) :: rest =>
    (* Always ignore '.' and '..' *)
    if is_dot d_name then readdir_loop walk path types filter visitor rest ret0
    else
      let subpath := subpath_of path d_name in
      (* Check the filter *)
      if filtered filter subpath
      then readdir_loop walk path types filter visitor rest ret0
      else
        (* Not much we can do here if we can't at least stat it *)
        match node_stat child with
        | None => readdir_loop walk path types filter visitor rest ret0
        | Some st_mode =>
          (* Call the handler if types match. *)
          r <- (if has_bits st_mode types then visitor subpath else ret ret0) ;;
          if has_bits st_mode types && (r <? 0) then ret r
          else
            (* Iterate into sub-directories *)
            r <- (if S_ISDIR st_mode then walk subpath child else ret r) ;;
            if S_ISDIR st_mode && (r <? 0) then ret r
            else readdir_loop walk path types filter visitor rest r
        end
  end.

(** Iterates the directory tree starting at [path], calling [visitor] for
    each object found whose mode has a bit of [types]; sub-directories are
    descended into.  [node] is what the file system shows at [path].
    Returns zero on success, negative value on error. *)
Fixpoint nih_dir_walk (path : string) (node : Node) (types : Z)
    (filter : option (string -> bool)) (visitor : string -> M Z) : M Z :=
  match node with
  | MkNode _ None => nih_error_raise_system ;;; ret (-1)
  | MkNode _ (Some ents) =>
    readdir_loop (fun subpath child =>
                    nih_dir_walk subpath child types filter visitor)
                 path types filter visitor ents 0
  end.

(** ** nih_dir_add_file_watch, nih_dir_watcher, nih_dir_add_watch *)

(** Called for each sub-directory iterated while creating an NihDirWatch.
    It creates an NihFileWatch for [path] as a child of [watch]; should
    that fail, it only emits a warning.  Returns zero. *)
Definition nih_dir_add_file_watch (E : Env) (watch : ptr) (path : string) : M Z :=
  r <- nih_file_add_watch E (Some watch) path DIR_EVENTS W_nih_dir_watcher watch ;;
  match r with
  | None => log (E_warn path) ;;; ret 0
  | Some _ => ret 0
  end.

(** The [NIH_LIST_FOREACH] of [nih_dir_watcher]: is there an entry of the
    list other than [file_watch] with the descriptor [wd0]? *)
Fixpoint scan_shared (iter : list ptr) (file_watch : ptr) (wd0 : Z)
    (found : bool) : M bool :=
  match iter with
  | [] => ret found
  | fw :: rest =>
    if Nat.eqb fw file_watch then scan_shared rest file_watch wd0 found
    else
      f <- load_file fw ;;
      scan_shared rest file_watch wd0 (if wd f =? wd0 then true else found)
  end.

Definition call_handler (h : option nat) (e : nat -> Event) : M unit :=
  match h with
  | Some f => log (e f)
  | None => ret tt
  end.

(** Called for every inotify event within the directory tree being watched
    by [dir_watch]; [file_watch] is the watch of the sub-directory the
    event is for. *)
Definition nih_dir_watcher (E : Env) (dir_watch file_watch : ptr)
    (events cookie : Z) (name : option string) : M unit :=
  nih_assert (negb (events =? 0)) ;;;
  dw <- load_dir dir_watch ;;
  fw <- load_file file_watch ;;
  if has_bits events IN_IGNORED || has_bits events IN_MOVE_SELF then
    if String.eqb (path fw) (d_path dw) then
      (* Top-level directory has gone away *)
      call_handler (delete_handler dw)
                   (fun h => E_delete_handler h (d_data dw) dir_watch None) ;;;
      nih_free dir_watch
    else
      (* A lower level directory has gone away *)
      w <- get ;;
      found <- scan_shared (file_watches w) file_watch (wd fw) false ;;
      if found then
        nih_alloc_set_destructor file_watch None ;;;
        nih_list_free file_watch
      else
        nih_file_remove_watch file_watch ;;;
        nih_free file_watch
  else
    (* Every other event must come with a name. *)
    match name with
    | None => abort
    | Some name =>
      let path := subpath_of (path fw) name in
      (* Filter out unwanted paths *)
      if filtered (filter dw) path then ret tt
      else if has_bits events IN_CREATE || has_bits events IN_MOVED_TO then
        call_handler (create_handler dw)
                     (fun h => E_create_handler h (d_data dw) dir_watch path) ;;;
        w <- get ;;
        let node := sys_fs E (trace w) path in
        match (if negb (subdirs dw =? 0) then node_stat node else None) with
        | Some st_mode =>
          if S_ISDIR st_mode then
            nih_dir_add_file_watch E dir_watch path ;;;
            r <- nih_dir_walk path node S_IFDIR (filter dw)
                              (nih_dir_add_file_watch E dir_watch) ;;
            ret tt
          else ret tt
        | None => ret tt
        end
      else if has_bits events IN_MODIFY then
        call_handler (modify_handler dw)
                     (fun h => E_modify_handler h (d_data dw) dir_watch path)
      else if has_bits events IN_DELETE || has_bits events IN_MOVED_FROM then
        call_handler (delete_handler dw)
                     (fun h => E_delete_handler h (d_data dw) dir_watch (Some path))
      else ret tt
    end.

(** Begins watching the [path] directory for any changes to its contents
    and, if [subdirs] is true, any sub-directories as well.  Returns the
    new NihDirWatch, or NULL on raised error. *)
Definition nih_dir_add_watch (E : Env) (parent : option ptr) (path : string)
    (subdirs : Z) (filter : option (string -> bool))
    (create_handler modify_handler delete_handler : option nat)
    (data : ptr) : M (option ptr) :=
  w <- get ;;
  match node_stat (sys_fs E (trace w) path) with
  | None => nih_error_raise_system ;;; ret None
  | Some st_mode =>
    if negb (S_ISDIR st_mode) then nih_error_raise_system ;;; ret None
    else
      r <- nih_new E parent
             (BDir (mkDirWatch path subdirs filter create_handler
                               modify_handler delete_handler data)) ;;
      match r with
      | None => nih_error_raise_system ;;; ret None
      | Some watch =>
        (* Add a file watch for the top-level *)
        r <- nih_file_add_watch E (Some watch) path DIR_EVENTS
               W_nih_dir_watcher watch ;;
        match r with
        | None => nih_free watch ;;; ret None
        | Some _ =>
          if negb (subdirs =? 0) then
            w <- get ;;
            r <- nih_dir_walk path (sys_fs E (trace w) path) S_IFDIR filter
                   (nih_dir_add_file_watch E watch) ;;
            if r <? 0 then nih_free watch ;;; ret None
            else ret (Some watch)
          else ret (Some watch)
        end
      end
  end.

(** ** nih_file_reader *)

(** [struct inotify_event], with the bytes of its [name] field. *)
Record inotify_event := mkEvent {
  ev_wd : Z;
  ev_mask : Z;
  ev_cookie : Z;
  ev_len : Z;
  ev_name : list byte
}.

Definition byte_val (b : byte) : Z := Z.of_N (Byte.to_N b).

(** A 32-bit field as the little-endian machine stores it. *)
Definition uint32_le (b0 b1 b2 b3 : byte) : Z :=
  byte_val b0 + 2 ^ 8 * byte_val b1 + 2 ^ 16 * byte_val b2 + 2 ^ 24 * byte_val b3.

Definition int32_le (b0 b1 b2 b3 : byte) : Z :=
  let u := uint32_le b0 b1 b2 b3 in
  if u <? 2 ^ 31 then u else u - 2 ^ 32.

(** Reading a block of bytes as a [struct inotify_event *]; fewer bytes
    than the structure has would be read out of bounds. *)
Definition decode_event (data : list byte) : option inotify_event :=
  match data with
  | w0 :: w1 :: w2 :: w3 :: m0 :: m1 :: m2 :: m3 ::
    c0 :: c1 :: c2 :: c3 :: l0 :: l1 :: l2 :: l3 :: name =>
    Some (mkEvent (int32_le w0 w1 w2 w3) (uint32_le m0 m1 m2 m3)
                  (uint32_le c0 c1 c2 c3) (uint32_le l0 l1 l2 l3) name)
  | _ => None
  end.

(** The C string at the start of [bs]: the bytes before the first NUL. *)
Fixpoint c_string (bs : list byte) : string :=
  match bs with
  | [] => EmptyString
  | b :: r =>
    if byte_val b =? 0 then EmptyString
    else String (Ascii.ascii_of_byte b) (c_string r)
  end.

(** [event->len ? event->name : NULL] *)
Definition event_name (event : inotify_event) : option string :=
  if ev_len event =? 0 then None else Some (c_string (ev_name event)).

(** Modelled from the spec: [nih_io_read] of nih/io.c is missing; "a
    buffered-read primitive" of the event loop.  It takes up to [len]
    bytes off the front of the receive buffer and returns them with their
    number; the rest of the buffer moves down to the front. *)
Definition nih_io_read (len : Z) : M (list byte * Z) :=
  w <- get ;;
  let n := Z.min len (Z.of_nat (length (io_recv_buf w))) in
  modify (set_io_recv_buf (drop (Z.to_nat n) (io_recv_buf w))) ;;;
  ret (take (Z.to_nat n) (io_recv_buf w), n).

(** [watch->watcher (watch->data, watch, event->mask, event->cookie, name)] *)
Definition call_watcher (E : Env) (watch : ptr) (f : NihFileWatch)
    (event : inotify_event) : M unit :=
  match watcher f with
  | W_nih_dir_watcher =>
    nih_dir_watcher E (data f) watch (ev_mask event) (ev_cookie event)
                    (event_name event)
  | W_user g =>
    log (E_watcher g (data f) watch (ev_mask event) (ev_cookie event)
                   (event_name event))
  end.

(** The [NIH_LIST_FOREACH] of [nih_file_reader]: only call the first
    watcher that matches. *)
Fixpoint dispatch (E : Env) (iter : list ptr) (event : inotify_event) : M unit :=
  match iter with
  | [] => ret tt
  | watch :: rest =>
    f <- load_file watch ;;
    if negb (wd f =? ev_wd event) then dispatch E rest event
    else call_watcher E watch f event
  end.

(** The [while (len > 0)] loop.  [buf] is the front of the receive buffer
    of [io], so the header is read from [io_recv_buf]. *)
Fixpoint reader_loop (E : Env) (fuel : nat) (len : Z) : M unit :=
  if 0 <? len then
    match fuel with
    | O => abort
    | S fuel =>
      (* Wait until there's a complete event waiting *)
      let sz := sizeof_inotify_event in
      if len <? sz then ret tt
      else
        (* Never read an event without its name *)
        w <- get ;;
        match decode_event (io_recv_buf w) with
        | None => abort
        | Some event =>
          let sz := to_size_t (sz + ev_len event) in
          if len <? sz then ret tt
          else
            (* Read the data *)
            r <- nih_io_read sz ;;
            let len := to_size_t (len - snd r) in
            match decode_event (fst r) with
            | None => abort
            | Some event =>
              w <- get ;;
              dispatch E (file_watches w) event ;;;
              reader_loop E fuel len
            end
        end
    end
  else ret tt.

(** Called whenever data has been read from the inotify file descriptor
    and is waiting to be processed; [len] is the number of bytes in the
    receive buffer.  Every turn of the loop takes at least a header, so
    [len] turns are enough. *)
Definition nih_file_reader (E : Env) (len : Z) : M unit :=
  nih_assert (0 <? len) ;;;
  reader_loop E (Z.to_nat len) len.

(** ** nih_file_map, nih_file_unmap *)

(** Opens the file at [path] and maps it into memory.  [length] is the
    value of [*length] at the call; the result is the mapped pointer (NULL
    is [None]) and the value of [*length] at the return. *)
Definition nih_file_map (E : Env) (path : string) (flags : Z) (length : Z)
    : M (option Z * Z) :=
  nih_assert ((Z.land flags O_ACCMODE =? O_RDONLY)
              || (Z.land flags O_ACCMODE =? O_RDWR)) ;;;
  w <- get ;;
  let fd := sys_open E (trace w) path flags in
  log (E_open path flags fd) ;;;
  if fd <? 0 then nih_error_raise_system ;;; ret (None, length)
  else
    let prot := if Z.land flags O_ACCMODE =? O_RDWR
                then Z.lor PROT_READ PROT_WRITE else PROT_READ in
    w <- get ;;
    match sys_fstat E (trace w) fd with
    | None =>
      nih_error_raise_system ;;; log (E_close fd) ;;; ret (None, length)
    | Some st_size =>
      let length := to_size_t st_size in
      w <- get ;;
      let map := sys_mmap E (trace w) length prot MAP_SHARED fd in
      log (E_mmap length prot MAP_SHARED fd map) ;;;
      match map with
      | None =>
        nih_error_raise_system ;;; log (E_close fd) ;;; ret (None, length)
      | Some m =>
        log (E_close fd) ;;; ret (Some m, length)
      end
    end.


(** ** Vocabulary of the statements *)

(** What [nih_free] does to the heap once children and destructor are
    done: the block leaves its parent's list and is given back. *)
Definition unlink (p : ptr) (a : Alloc) (h : gmap nat Alloc) : gmap nat Alloc :=
  delete p match a_parent a with
           | Some q => alter (del_child p) q h
           | None => h
           end.

(** A low-level watch owned by the tree watch [dw], as
    [nih_file_add_watch] leaves it. *)
Definition leaf_watch (w : World) (dw c : ptr) : Prop :=
  exists a f,
    heap w !! c = Some a /\ a_block a = BFile f /\ a_children a = [] /\
    a_parent a = Some dw /\ a_destructor a = Some D_nih_file_remove_watch /\
    (wd f < 0 -> c ∉ file_watches w).

Definition wd_at (w : World) (c : ptr) : Z :=
  match heap w !! c with
  | Some (mkAlloc (BFile f) _ _ _) => wd f
  | _ => -1
  end.

(** The kernel removals that releasing the watches [cs] takes. *)
Definition rm_events (w : World) (cs : list ptr) : list Event :=
  omap (fun c => if wd_at w c <? 0 then None
                 else Some (E_inotify_rm_watch (inotify_fd w) (wd_at w c))) cs.

Definition without (cs : list ptr) (l : list ptr) : list ptr :=
  List.filter (fun q => bool_decide (q ∉ cs)) l.

Definition del_children (cs : list ptr) (a : Alloc) : Alloc :=
  mkAlloc (a_block a) (a_parent a) (without cs (a_children a)) (a_destructor a).

(** The world after a watch with a valid descriptor is released. *)
Definition released (watch : ptr) (a : Alloc) (f : NihFileWatch) (w : World) : World :=
  mkWorld (<[watch := set_block (BFile (set_wd (-1) f)) a]> (heap w))
          (List.filter (fun q => negb (Nat.eqb q watch)) (file_watches w))
          (inotify_fd w) (io_recv_buf w)
          (trace w ++ [E_inotify_rm_watch (inotify_fd w) (wd f)]).

Definition map_prot (flags : Z) : Z :=
  if Z.land flags O_ACCMODE =? O_RDWR then Z.lor PROT_READ PROT_WRITE
  else PROT_READ.

(** One of the three steps of [nih_file_map] fails: [open], or [fstat] on
    the descriptor it gave, or [mmap] of the size [fstat] gave.  [tr] is
    the log when the function is entered. *)
Definition map_step_fails (E : Env) (tr : list Event) (path : string)
    (flags : Z) : Prop :=
  let fd := sys_open E tr path flags in
  let tr1 := tr ++ [E_open path flags fd] in
  fd < 0 \/
  sys_fstat E tr1 fd = None \/
  exists st_size,
    sys_fstat E tr1 fd = Some st_size /\
    sys_mmap E tr1 (to_size_t st_size) (map_prot flags) MAP_SHARED fd = None.

Definition is_close (e : Event) : bool :=
  match e with E_close _ => true | _ => false end.

(** Does a registered watch other than [file_watch] hold the descriptor
    [wd0]? *)
Definition shared_wd (w : World) (file_watch : ptr) (wd0 : Z) : bool :=
  existsb (fun q => negb (Nat.eqb q file_watch) && (wd_at w q =? wd0))
          (file_watches w).

(** Every entry of the registry is an allocated [NihFileWatch]. *)
Definition registry_allocated (w : World) : Prop :=
  forall q, q ∈ file_watches w ->
            exists a f, heap w !! q = Some a /\ a_block a = BFile f.

(** Events of the library's own dealings with the kernel and the logger,
    as opposed to calls of the user's functions. *)
Definition is_internal (e : Event) : bool :=
  match e with
  | E_inotify_init _ | E_inotify_add_watch _ _ _ _ | E_inotify_rm_watch _ _
  | E_error_raise_system | E_warn _ => true
  | _ => false
  end.

(** The bytes of one whole record: a header followed by exactly as many
    name bytes as the header declares. *)
Definition whole_record (r : list byte) : Prop :=
  exists event, decode_event r = Some event /\
                Z.of_nat (length (ev_name event)) = ev_len event.

Inductive whole_records : list byte -> Prop :=
  | whole_records_nil : whole_records []
  | whole_records_cons r rest :
      whole_record r -> whole_records rest -> whole_records (r ++ rest).

(** A buffer whose front is not a whole record: less than a header, or a
    header that declares more name bytes than are there. *)
Definition incomplete (b : list byte) : Prop :=
  Z.of_nat (length b) < sizeof_inotify_event \/
  exists event, decode_event b = Some event /\
                Z.of_nat (length b) < sizeof_inotify_event + ev_len event.

(** The event read from the first [n] bytes of a buffer that starts with
    the header of [event]. *)
Definition event_of_record (event : inotify_event) : inotify_event :=
  mkEvent (ev_wd event) (ev_mask event) (ev_cookie event) (ev_len event)
          (take (Z.to_nat (ev_len event)) (ev_name event)).

(** The world after [nih_file_init]. *)
Definition init_world (E : Env) (w : World) : World :=
  if inotify_fd w =? -1 then
    set_inotify_fd (sys_inotify_init E (trace w))
                   (log_event (E_inotify_init (sys_inotify_init E (trace w))) w)
  else w.

(** What the kernel answers to the [inotify_add_watch] that
    [nih_file_add_watch] makes from world [w]. *)
Definition add_watch_answer (E : Env) (w : World) (path : string) (events : Z) : Z :=
  let w0 := init_world E w in
  sys_inotify_add_watch E (trace w0) (inotify_fd w0) path events.

(** Every directory that a walk from [node] can enter opens: [node] has a
    listing, and so has, recursively, each entry other than '.' and '..'
    that [stat] shows as a directory. *)
Fixpoint dirs_open (node : Node) : bool :=
  match node with
  | MkNode _ None => false
  | MkNode _ (Some ents) =>
    forallb (fun e =>
               let '(d_name, child) := e in
               is_dot d_name ||
               match node_stat child with
               | Some st_mode => if S_ISDIR st_mode then dirs_open child else true
               | None => true
               end) ents
  end.

(** The log of [w] continues the log [tr]. *)
Definition extends (tr : list Event) (w : World) : Prop :=
  exists more, trace w = tr ++ more.

(** The event kinds that the mask of a tree watch asks the kernel for. *)
Definition requested_kinds : list Z :=
  [IN_CREATE; IN_DELETE; IN_MODIFY; IN_MOVED_TO; IN_MOVED_FROM; IN_MOVE_SELF].

(** The path that a handler call was made with, if the event is a handler
    call with a path. *)
Definition handler_path (e : Event) : option string :=
  match e with
  | E_create_handler _ _ _ p | E_modify_handler _ _ _ p => Some p
  | E_delete_handler _ _ _ p => p
  | _ => None
  end.

(** The computation [m] keeps the property [P] of the world: if it
    returns from a world with [P], the world it leaves has [P]. *)
Definition keeps (P : World -> Prop) {A} (m : M A) : Prop :=
  forall w a w', m w = Some (a, w') -> P w -> P w'.

(** The events that [nih_dir_watcher] may log for the tree watch [d] at
    [dir_watch] besides the internal ones: handler calls on paths that
    the filter lets through, and the delete handler on NULL. *)
Definition handlers_ok (ok : Event -> Prop) (dir_watch : ptr)
    (d : NihDirWatch) : Prop :=
  (forall h p, create_handler d = Some h -> filtered (filter d) p = false ->
               ok (E_create_handler h (d_data d) dir_watch p)) /\
  (forall h p, modify_handler d = Some h -> filtered (filter d) p = false ->
               ok (E_modify_handler h (d_data d) dir_watch p)) /\
  (forall h p, delete_handler d = Some h -> filtered (filter d) p = false ->
               ok (E_delete_handler h (d_data d) dir_watch (Some p))) /\
  (forall h, delete_handler d = Some h ->
             ok (E_delete_handler h (d_data d) dir_watch None)).

(** The paths that [nih_dir_walk] hands to its visitor, entry by entry:
    an entry other than '.' and '..' that the filter lets through and
    that [stat] can read is listed if its mode has a bit of [types], and
    is followed, if it is a directory, by what lies under it.  [rec] is
    the listing of a sub-directory. *)
Fixpoint order_entries (rec : string -> Node -> list string) (path : string)
    (types : Z) (filter : option (string -> bool))
    (ents : list (string * Node)) : list string :=
  match ents with
  | [] => []
  | (d_name, child) :: rest =>
    (if is_dot d_name then []
     else if filtered filter (subpath_of path d_name) then []
     else match node_stat child with
          | None => []
          | Some st_mode =>
            (if has_bits st_mode types then [subpath_of path d_name] else [])
            ++ (if S_ISDIR st_mode then rec (subpath_of path d_name) child else [])
          end)
    ++ order_entries rec path types filter rest
  end.

(** The pre-order listing of the tree under [path]. *)
Fixpoint walk_order (path : string) (node : Node) (types : Z)
    (filter : option (string -> bool)) : list string :=
  match node with
  | MkNode _ None => []
  | MkNode _ (Some ents) =>
    order_entries (fun subpath child => walk_order subpath child types filter)
                  path types filter ents
  end.

(** Calling [visitor] on the paths of a list in turn, up to the first
    negative answer, which is returned. *)
Fixpoint visit_until (visitor : string -> M Z) (l : list string) (ret0 : Z) : M Z :=
  match l with
  | [] => ret ret0
  | p :: l =>
    r <- visitor p ;;
    if r <? 0 then ret r else visit_until visitor l r
  end.

(** A visitor that answers zero or a negative error, as its contract
    says. *)
Definition zero_or_error (visitor : string -> M Z) : Prop :=
  forall sp w r w', visitor sp w = Some (r, w') -> r <= 0.


(** The parent given to an allocation is NULL or an allocated block. *)
Definition parent_allocated (w : World) (parent : option ptr) : Prop :=
  match parent with
  | Some q => is_Some (heap w !! q)
  | None => True
  end.

(** The heap after [nih_new]: the new block [a] at [p], linked under its
    parent. *)
Definition heap_with (p : ptr) (a : Alloc) (h : gmap nat Alloc) : gmap nat Alloc :=
  match a_parent a with
  | Some q => alter (add_child p) q (<[p := a]> h)
  | None => <[p := a]> h
  end.

(** Every registered watch is an allocated [NihFileWatch] with a valid
    descriptor, and is registered once. *)
Definition registry_valid (w : World) : Prop :=
  NoDup (file_watches w) /\
  forall q, q ∈ file_watches w ->
            exists a f, heap w !! q = Some a /\ a_block a = BFile f /\ 0 <= wd f.

(** The whole records at the front of a buffer, as the events read from
    them, and the bytes behind the last of them.  A record takes at least
    a header, so [length buf] turns are enough. *)
Fixpoint split_records (fuel : nat) (buf : list byte)
    : list inotify_event * list byte :=
  match fuel with
  | O => ([], buf)
  | S fuel =>
    match decode_event buf with
    | Some event =>
      if Z.of_nat (length buf) <? sizeof_inotify_event + ev_len event
      then ([], buf)
      else
        let r := split_records fuel
                   (drop (Z.to_nat (sizeof_inotify_event + ev_len event)) buf) in
        (event_of_record event :: fst r, snd r)
    | None => ([], buf)
    end
  end.

(** The call of the caller's watcher that an event leads to: that of the
    first registered watch with the event's descriptor, if there is
    one. *)
Definition watcher_call (w : World) (event : inotify_event) : list Event :=
  match List.find (fun q => wd_at w q =? ev_wd event) (file_watches w) with
  | Some q =>
    match heap w !! q with
    | Some (mkAlloc (BFile f) _ _ _) =>
      match watcher f with
      | W_user g => [E_watcher g (data f) q (ev_mask event) (ev_cookie event)
                               (event_name event)]
      | W_nih_dir_watcher => []
      end
    | _ => []
    end
  | None => []
  end.

(** Every registered watch is an allocated [NihFileWatch] whose watcher
    is a function of the caller. *)
Definition user_registry (w : World) : Prop :=
  forall q, q ∈ file_watches w ->
            exists a f g, heap w !! q = Some a /\ a_block a = BFile f /\
                          watcher f = W_user g.

(** The watch descriptors that the kernel granted in a log, and those it
    was asked to remove, in the order of the log. *)
Definition granted (tr : list Event) : list Z :=
  omap (fun e => match e with
                 | E_inotify_add_watch _ _ _ r => if r <? 0 then None else Some r
                 | _ => None
                 end) tr.

Definition removed (tr : list Event) : list Z :=
  omap (fun e => match e with
                 | E_inotify_rm_watch _ wd0 => Some wd0
                 | _ => None
                 end) tr.

(** The tree watch [dw] with content [d], under construction since world
    [w0]: it is a new block under [parent] without destructor; the blocks
    [cs] it owns are new as well, are the watches the kernel granted
    since, in that order, and are the tail of the registry; [tr] is the
    log since [w0], in which nothing was removed; every other block is as
    it was. *)
Record built (w0 : World) (parent : option ptr) (dw : ptr) (d : NihDirWatch)
    (cs : list ptr) (tr : list Event) (w : World) : Prop := mkBuilt {
  built_block : heap w !! dw = Some (mkAlloc (BDir d) parent cs None);
  built_new : heap w0 !! dw = None;
  built_nodup : NoDup cs;
  built_leaf : forall c, c ∈ cs -> leaf_watch w dw c;
  built_valid : forall c, c ∈ cs -> 0 <= wd_at w c;
  built_fresh : forall c, c ∈ cs -> heap w0 !! c = None;
  built_registry : file_watches w = file_watches w0 ++ cs;
  built_others : forall q, q ≠ dw -> q ∉ cs -> parent ≠ Some q ->
                           heap w !! q = heap w0 !! q;
  built_parent : forall q, parent = Some q ->
                           heap w !! q = add_child dw <$> heap w0 !! q;
  built_trace : trace w = trace w0 ++ tr;
  built_granted : granted tr = map (wd_at w) cs;
  built_removed : removed tr = []
}.

Definition tree_built (w0 : World) (parent : option ptr) (dw : ptr)
    (d : NihDirWatch) (w : World) : Prop :=
  exists cs tr, built w0 parent dw d cs tr w.

(** How a walk can fail with the answer [r] in the world [w']: a call of
    the visitor gave that answer and left that world, or a directory
    could not be opened, and raising that error was the last thing
    done. *)
Definition walk_failure (visitor : string -> M Z) (r : Z) (w' : World) : Prop :=
  (exists sp w, visitor sp w = Some (r, w')) \/
  (r = -1 /\ exists w, w' = log_event E_error_raise_system w).

(** The paths the kernel was asked to watch in a log, in the order of the
    log. *)
Definition requests (tr : list Event) : list string :=
  omap (fun e => match e with
                 | E_inotify_add_watch _ p _ _ => Some p
                 | _ => None
                 end) tr.

(** The handler call that an event with a name leads to for the path
    [p]: 'created' and 'moved-in' go before 'modified', and 'modified'
    before 'deleted' and 'moved-out'; a NULL handler, and an event of
    no such kind, give no call. *)
Definition handler_calls (d : NihDirWatch) (dir_watch : ptr) (p : string)
    (events : Z) : list Event :=
  if has_bits events IN_CREATE || has_bits events IN_MOVED_TO then
    match create_handler d with
    | Some h => [E_create_handler h (d_data d) dir_watch p]
    | None => []
    end
  else if has_bits events IN_MODIFY then
    match modify_handler d with
    | Some h => [E_modify_handler h (d_data d) dir_watch p]
    | None => []
    end
  else if has_bits events IN_DELETE || has_bits events IN_MOVED_FROM then
    match delete_handler d with
    | Some h => [E_delete_handler h (d_data d) dir_watch (Some p)]
    | None => []
    end
  else [].

(** The log of [w] continues the log [tr] by internal events only. *)
Definition extends_internally (tr : list Event) (w : World) : Prop :=
  exists rest, trace w = tr ++ rest /\ forallb is_internal rest = true.

Definition is_mmap (e : Event) : bool :=
  match e with E_mmap _ _ _ _ _ => true | _ => false end.

(** The access mode of [flags] is one that [nih_file_map] accepts. *)
Definition map_flags_ok (flags : Z) : bool :=
  (Z.land flags O_ACCMODE =? O_RDONLY) || (Z.land flags O_ACCMODE =? O_RDWR).

(** An event with a name as [nih_file_reader] hands it to
    [nih_dir_watcher]: the watch it is for, the mask, the cookie and the
    name. *)
Record NamedEvent := mkNamedEvent {
  ne_watch : ptr;
  ne_events : Z;
  ne_cookie : Z;
  ne_name : string
}.

Definition is_gone (events : Z) : bool :=
  has_bits events IN_IGNORED || has_bits events IN_MOVE_SELF.

(** Handing the events of a list to [nih_dir_watcher], for the tree watch
    [dw], one after the other. *)
Definition deliver (E : Env) (dw : ptr) (evs : list NamedEvent) : M unit :=
  for_each (fun e => nih_dir_watcher E dw (ne_watch e) (ne_events e)
                                     (ne_cookie e) (Some (ne_name e))) evs.

(** The watches that the tree watch [dw] owns are wired to it: each is a
    file watch whose watcher is [nih_dir_watcher] and whose data is the
    tree watch, and holds a descriptor that the kernel gave for the
    watch's path, asked with [DIR_EVENTS]. *)
Definition wired (dw : ptr) (w : World) : Prop :=
  exists adw d,
    heap w !! dw = Some adw /\ a_block adw = BDir d /\
    forall c, c ∈ a_children adw ->
      exists a f,
        heap w !! c = Some a /\ a_block a = BFile f /\
        watcher f = W_nih_dir_watcher /\ data f = dw /\
        exists fd, E_inotify_add_watch fd (path f) DIR_EVENTS (wd f) ∈ trace w.

(** ** Sample worlds

    Concrete environments and states on which the statements below are
    run. *)

(** A kernel that hands out descriptor 3 for inotify and watch descriptor
    [n] for the [n]-th request; nothing on disk. *)
Definition env_plain : Env :=
  mkEnv (fun _ => 3)
        (fun tr _ _ _ => Z.of_nat (length tr))
        (fun _ => true)
        (fun _ _ => MkNode None None)
        (fun _ _ _ => -1)
        (fun _ _ => None)
        (fun _ _ _ _ _ => None)
        (fun _ _ _ => 0).

Definition fw_single : NihFileWatch :=
  mkFileWatch 5 "/r" DIR_EVENTS (W_user 7) 0%nat.

(** One registered watch, at address 1, with watch descriptor 5. *)
Definition world_single : World :=
  mkWorld (<[1%nat := mkAlloc (BFile fw_single) None []
                              (Some D_nih_file_remove_watch)]> ∅)
          [1%nat] 3 [] [].

(** A file of 4096 bytes that opens as descriptor 4; [mmap] answers
    [map]. *)
Definition env_file (map : option Z) : Env :=
  mkEnv (fun _ => 3)
        (fun tr _ _ _ => Z.of_nat (length tr))
        (fun _ => true)
        (fun _ _ => MkNode None None)
        (fun _ _ _ => 4)
        (fun _ _ => Some 4096)
        (fun _ _ _ _ _ => map)
        (fun _ _ _ => 0).

Definition world_empty : World := mkWorld ∅ [] (-1) [] [].

Definition dw_tree : NihDirWatch :=
  mkDirWatch "/r" 1 None (Some 11%nat) (Some 12%nat) (Some 13%nat) 0%nat.

(** A tree watch at address 1 on "/r" that owns the watch of the root
    (address 2, descriptor 1) and of "/r/d" (address 3, descriptor 2). *)
Definition world_tree : World :=
  mkWorld
    (<[1%nat := mkAlloc (BDir dw_tree) None [2%nat; 3%nat] None]>
     (<[2%nat := mkAlloc (BFile (mkFileWatch 1 "/r" DIR_EVENTS W_nih_dir_watcher 1%nat))
                         (Some 1%nat) [] (Some D_nih_file_remove_watch)]>
      (<[3%nat := mkAlloc (BFile (mkFileWatch 2 "/r/d" DIR_EVENTS W_nih_dir_watcher 1%nat))
                          (Some 1%nat) [] (Some D_nih_file_remove_watch)]> ∅)))
    [2%nat; 3%nat] 3 [] [].

(** Like [world_tree], with a second watch (address 4, on "/r/e") that
    holds descriptor 2 as well. *)
Definition world_shared : World :=
  mkWorld
    (<[1%nat := mkAlloc (BDir dw_tree) None [2%nat; 3%nat; 4%nat] None]>
     (<[2%nat := mkAlloc (BFile (mkFileWatch 1 "/r" DIR_EVENTS W_nih_dir_watcher 1%nat))
                         (Some 1%nat) [] (Some D_nih_file_remove_watch)]>
      (<[3%nat := mkAlloc (BFile (mkFileWatch 2 "/r/d" DIR_EVENTS W_nih_dir_watcher 1%nat))
                          (Some 1%nat) [] (Some D_nih_file_remove_watch)]>
       (<[4%nat := mkAlloc (BFile (mkFileWatch 2 "/r/e" DIR_EVENTS W_nih_dir_watcher 1%nat))
                           (Some 1%nat) [] (Some D_nih_file_remove_watch)]> ∅))))
    [2%nat; 3%nat; 4%nat] 3 [] [].

(** Two watches of the caller, at addresses 1 and 2, that both hold watch
    descriptor 5; the one at address 1 was registered first. *)
Definition fw_first : NihFileWatch :=
  mkFileWatch 5 "/a" IN_MODIFY (W_user 7) 0%nat.

Definition world_two_users : World :=
  mkWorld
    (<[1%nat := mkAlloc (BFile fw_first) None [] (Some D_nih_file_remove_watch)]>
     (<[2%nat := mkAlloc (BFile (mkFileWatch 5 "/a" IN_MODIFY (W_user 8) 0%nat))
                         None [] (Some D_nih_file_remove_watch)]> ∅))
    [1%nat; 2%nat] 3 [] [].

Definition event_modify (wd : Z) : inotify_event := mkEvent wd IN_MODIFY 0 0 [].

(** [world_two_users] with 19 bytes waiting: a whole record without name
    for descriptor 5 (mask [IN_MODIFY]), then three bytes of the next
    header. *)
Definition world_reader : World :=
  set_io_recv_buf
    [x05; x00; x00; x00;  x02; x00; x00; x00;
     x00; x00; x00; x00;  x00; x00; x00; x00;
     x06; x00; x00] world_two_users.

Definition dir_mode : Z := Z.lor S_IFDIR 0x1ED.
Definition file_mode : Z := Z.lor S_IFREG 0x1A4.

Definition node_dot : Node := MkNode (Some dir_mode) None.

(** The directory "/r/d", which holds the directory "e". *)
Definition node_d : Node :=
  MkNode (Some dir_mode)
         (Some [(".", node_dot); ("..", node_dot);
                ("e", MkNode (Some dir_mode) (Some []))]).

(** The directory "/r", which holds the directory "d" and the file "f". *)
Definition node_r : Node :=
  MkNode (Some dir_mode)
         (Some [(".", node_dot); ("..", node_dot); ("d", node_d);
                ("f", MkNode (Some file_mode) None)]).

Definition fs_tree (p : string) : Node :=
  if String.eqb p "/r" then node_r
  else if String.eqb p "/r/d" then node_d
  else if String.eqb p "/r/d/e" then MkNode (Some dir_mode) (Some [])
  else if String.eqb p "/r/f" then MkNode (Some file_mode) None
  else MkNode None None.

(** The tree under "/r"; the kernel grants a watch on "/r", and on the
    other paths only if [sub_ok]. *)
Definition env_tree (sub_ok : bool) : Env :=
  mkEnv (fun _ => 3)
        (fun tr _ p _ => if String.eqb p "/r" || sub_ok
                         then Z.of_nat (length tr) else -1)
        (fun _ => true)
        (fun _ => fs_tree)
        (fun _ _ _ => -1)
        (fun _ _ => None)
        (fun _ _ _ _ _ => None)
        (fun _ _ _ => 0).

(** The filter that excludes "/r/d" and nothing else. *)
Definition filter_d (p : string) : bool := String.eqb p "/r/d".

(** [world_tree] whose tree watch has the filter [filter_d]. *)
Definition dw_filtered : NihDirWatch :=
  mkDirWatch "/r" 1 (Some filter_d) (Some 11%nat) (Some 12%nat) (Some 13%nat) 0%nat.

Definition world_filtered : World :=
  set_heap (<[1%nat := mkAlloc (BDir dw_filtered) None [2%nat; 3%nat] None]>)
           world_tree.

(** The spec's reading of the filter in a walk: an entry that the filter
    excludes is not visited, but if it is a directory the walk goes into
    it all the same and visits what the filter lets through there.
    Stated for the walk that populates a tree watch: every directory
    below the root that the filter lets through gets a watch request,
    even under an excluded directory. *)
Definition descends_into_filtered (E : Env) (filter : string -> bool)
    (root below : string) : Prop :=
  forall dw w',
    nih_dir_add_watch E None root 1 (Some filter) None None None 0 world_empty
    = Some (Some dw, w') ->
    filter below = false ->
    exists fd wd0, E_inotify_add_watch fd below DIR_EVENTS wd0 ∈ trace w'.


(** A kernel whose first [inotify_init] fails and whose later ones give
    descriptor 3. *)
Definition env_retry : Env :=
  mkEnv (fun tr => match tr with [] => -1 | _ => 3 end)
        (fun tr _ _ _ => Z.of_nat (length tr))
        (fun _ => true)
        (fun _ _ => MkNode None None)
        (fun _ _ _ => -1)
        (fun _ _ => None)
        (fun _ _ _ _ _ => None)
        (fun _ _ _ => 0).

(** A kernel that refuses every watch. *)
Definition env_refusing : Env :=
  mkEnv (fun _ => 3)
        (fun _ _ _ _ => -1)
        (fun _ => true)
        (fun _ _ => MkNode None None)
        (fun _ _ _ => -1)
        (fun _ _ => None)
        (fun _ _ _ _ _ => None)
        (fun _ _ _ => 0).

(** [world_two_users] with 55 bytes waiting: a record for descriptor 5
    (mask [IN_CREATE]) with the name "x" padded to four bytes, a record
    for descriptor 9, which no watch holds, a record for descriptor 5
    (mask [IN_MODIFY]) without name, then three bytes of the next
    header. *)
Definition world_records : World :=
  set_io_recv_buf
    [x05; x00; x00; x00;  x00; x01; x00; x00;
     x00; x00; x00; x00;  x04; x00; x00; x00;  x78; x00; x00; x00;
     x09; x00; x00; x00;  x02; x00; x00; x00;
     x00; x00; x00; x00;  x00; x00; x00; x00;
     x05; x00; x00; x00;  x02; x00; x00; x00;
     x00; x00; x00; x00;  x00; x00; x00; x00;
     x06; x00; x00] world_two_users.

(** A directory "/r" whose sub-directory "d" cannot be read; the kernel
    grants every watch. *)
Definition env_locked : Env :=
  mkEnv (fun _ => 3)
        (fun tr _ _ _ => Z.of_nat (length tr))
        (fun _ => true)
        (fun _ p => if String.eqb p "/r"
                    then MkNode (Some dir_mode)
                                (Some [("d", MkNode (Some dir_mode) None)])
                    else MkNode None None)
        (fun _ _ _ => -1)
        (fun _ _ => None)
        (fun _ _ _ _ _ => None)
        (fun _ _ _ => 0).

(** [world_tree] with one record waiting: an 'unmounted' event (mask
    [0x2000], which the kernel sends unasked) without name for
    descriptor 2, the watch of "/r/d". *)
Definition world_unmount : World :=
  set_io_recv_buf
    [x02; x00; x00; x00;  x00; x20; x00; x00;
     x00; x00; x00; x00;  x00; x00; x00; x00] world_tree.

(** * Properties *)

(** ** Running the monad *)

Lemma bind_Some {A B} (m : M A) (k : A -> M B) w r :
  bind m k w = Some r <-> exists a w1, m w = Some (a, w1) /\ k a w1 = Some r.
Proof.
  unfold bind. split.
  - destruct (m w) as [[a w1]|] eqn:Hm; [|discriminate].
    intros H. by exists a, w1.
  - intros (a & w1 & -> & H). exact H.
Qed.

Lemma bind_run {A B} (m : M A) (k : A -> M B) w a w1 :
  m w = Some (a, w1) -> bind m k w = k a w1.
Proof. unfold bind. by intros ->. Qed.

Lemma bind_assoc {A B C} (m : M A) (k : A -> M B) (k' : B -> M C) w :
  bind (bind m k) k' w = bind m (fun a => bind (k a) k') w.
Proof. unfold bind. by destruct (m w) as [[a w1] |]. Qed.

Lemma load_run p w a : heap w !! p = Some a -> load p w = Some (a, w).
Proof. unfold load. by intros ->. Qed.

Lemma load_file_run p w a f :
  heap w !! p = Some a -> a_block a = BFile f -> load_file p w = Some (f, w).
Proof.
  intros Hp Hb. unfold load_file.
  rewrite (bind_run _ _ _ _ _ (load_run _ _ _ Hp)). by rewrite Hb.
Qed.

Lemma load_dir_run p w a d :
  heap w !! p = Some a -> a_block a = BDir d -> load_dir p w = Some (d, w).
Proof.
  intros Hp Hb. unfold load_dir.
  rewrite (bind_run _ _ _ _ _ (load_run _ _ _ Hp)). by rewrite Hb.
Qed.

Lemma elem_of_filter_neq (p q : nat) (l : list nat) :
  q ∈ List.filter (fun x => negb (Nat.eqb x p)) l <-> q ∈ l /\ q ≠ p.
Proof.
  rewrite !list_elem_of_In, List.filter_In.
  by rewrite negb_true_iff, Nat.eqb_neq.
Qed.

Lemma alter_insert_lookup {A} (g : A -> A) (p : nat) (h : gmap nat A) a :
  h !! p = Some a -> alter g p h = <[p := g a]> h.
Proof.
  intros Hp. apply map_eq. intros i. rewrite lookup_alter, lookup_insert.
  destruct (decide (p = i)) as [<-|]; [by rewrite Hp | done].
Qed.

Ltac list_cases H :=
  repeat (apply elem_of_cons in H as [-> | H]);
  try (apply elem_of_nil in H; destruct H).

Ltac list_mem :=
  repeat first [ apply list_elem_of_here | apply list_elem_of_further ].

Lemma Node_nested_ind (Q : Node -> Prop) :
  (forall st, Q (MkNode st None)) ->
  (forall st ents, Forall (fun e => Q (snd e)) ents -> Q (MkNode st (Some ents))) ->
  forall n, Q n.
Proof.
  intros Hleaf Hdir. fix IH 1. intros [st [ents |]]; [| apply Hleaf].
  apply Hdir. induction ents as [| [d_name child] ents IHents].
  - constructor.
  - constructor; [apply IH | exact IHents].
Qed.

(** ** Invariants

    A property [P] of the world that no change of the heap, the registry
    or the inotify descriptor disturbs, and that survives the logging of
    the events in [ok], is kept by every function that logs only such
    events. *)
Section Keeps.
Variable P : World -> Prop.
Variable ok : Event -> Prop.
Hypothesis P_heap : forall f w, P w -> P (set_heap f w).
Hypothesis P_registry : forall f w, P w -> P (set_file_watches f w).
Hypothesis P_fd : forall z w, P w -> P (set_inotify_fd z w).
Hypothesis P_log : forall e w, ok e -> P w -> P (log_event e w).
Hypothesis ok_internal : forall e, is_internal e = true -> ok e.

Lemma keeps_ret {A} (a : A) : keeps P (ret a).
Proof. intros w a' w' [= _ <-]. done. Qed.

Lemma keeps_abort {A} : keeps P (@abort A).
Proof. intros w a w' H. discriminate. Qed.

Lemma keeps_bind {A B} (m : M A) (k : A -> M B) :
  keeps P m -> (forall a, keeps P (k a)) -> keeps P (bind m k).
Proof.
  intros Hm Hk w b w' (a & w1 & H1 & H2)%bind_Some HP.
  eapply Hk; [exact H2 |]. eapply Hm; eauto.
Qed.

Lemma keeps_get : keeps P get.
Proof. intros w a w' [= _ <-]. done. Qed.

Lemma keeps_modify f : (forall w, P w -> P (f w)) -> keeps P (modify f).
Proof. intros Hf w a w' H HP. injection H as _ <-. by apply Hf. Qed.

Lemma keeps_log e : ok e -> keeps P (log e).
Proof. intros He. apply keeps_modify. intros w. by apply P_log. Qed.

Lemma keeps_assert b : keeps P (nih_assert b).
Proof. destruct b; [apply keeps_ret | apply keeps_abort]. Qed.

Lemma keeps_load p : keeps P (load p).
Proof. intros w a w'. unfold load. destruct (heap w !! p); [| done]. by intros [= _ <-]. Qed.

Lemma keeps_load_file p : keeps P (load_file p).
Proof.
  apply keeps_bind; [apply keeps_load |]. intros a.
  destruct (a_block a); [apply keeps_ret | apply keeps_abort].
Qed.

Lemma keeps_load_dir p : keeps P (load_dir p).
Proof.
  apply keeps_bind; [apply keeps_load |]. intros a.
  destruct (a_block a); [apply keeps_abort | apply keeps_ret].
Qed.

Lemma keeps_set_heap f : keeps P (modify (set_heap f)).
Proof. apply keeps_modify. intros w. apply P_heap. Qed.

Lemma keeps_set_registry f : keeps P (modify (set_file_watches f)).
Proof. apply keeps_modify. intros w. apply P_registry. Qed.

Lemma keeps_raise : keeps P nih_error_raise_system.
Proof. apply keeps_log. by apply ok_internal. Qed.

Lemma keeps_for_each {A} (f : A -> M unit) l :
  (forall x, keeps P (f x)) -> keeps P (for_each f l).
Proof.
  intros Hf. induction l as [| x l IH]; [apply keeps_ret |].
  apply keeps_bind; [apply Hf | intros _; exact IH].
Qed.

Lemma keeps_nih_file_remove_watch p : keeps P (nih_file_remove_watch p).
Proof.
  apply keeps_bind; [apply keeps_load_file |]. intros f.
  destruct (wd f <? 0); [apply keeps_ret |].
  apply keeps_bind; [apply keeps_get |]. intros w.
  apply keeps_bind; [apply keeps_log; by apply ok_internal |]. intros _.
  apply keeps_bind; [| intros _; apply keeps_set_registry].
  apply keeps_bind; [apply keeps_load_file |]. intros f'. apply keeps_set_heap.
Qed.

Lemma keeps_nih_free_fuel n : forall p, keeps P (nih_free_fuel n p).
Proof.
  induction n as [| n IH]; intros p; [apply keeps_abort |].
  cbn [nih_free_fuel].
  apply keeps_bind; [apply keeps_load |]. intros a.
  apply keeps_bind; [apply keeps_for_each, IH |]. intros _.
  apply keeps_bind; [apply keeps_load |]. intros a'.
  apply keeps_bind; [| intros _; apply keeps_set_heap].
  destruct (a_destructor a') as [[] |]; [| apply keeps_ret].
  apply keeps_nih_file_remove_watch.
Qed.

Lemma keeps_nih_free p : keeps P (nih_free p).
Proof. intros w a w'. unfold nih_free. apply keeps_nih_free_fuel. Qed.

Lemma keeps_nih_new E parent b : keeps P (nih_new E parent b).
Proof.
  apply keeps_bind; [apply keeps_get |]. intros w.
  destruct (sys_malloc_ok E (trace w)); [| apply keeps_ret].
  apply keeps_bind; [apply keeps_set_heap | intros _; apply keeps_ret].
Qed.

Lemma keeps_nih_file_init E : keeps P (nih_file_init E).
Proof.
  apply keeps_bind; [apply keeps_get |]. intros w.
  destruct (inotify_fd w =? -1); [| apply keeps_ret].
  apply keeps_bind; [apply keeps_log; by apply ok_internal |]. intros _.
  apply keeps_modify. intros w'. apply P_fd.
Qed.

Lemma keeps_nih_file_add_watch E parent path events watcher data :
  keeps P (nih_file_add_watch E parent path events watcher data).
Proof.
  apply keeps_bind; [apply keeps_assert |]. intros _.
  apply keeps_bind; [apply keeps_nih_file_init |]. intros _.
  apply keeps_bind; [apply keeps_get |]. intros w.
  destruct (inotify_fd w <? 0).
  { apply keeps_bind; [apply keeps_raise | intros _; apply keeps_ret]. }
  apply keeps_bind; [apply keeps_nih_new |]. intros [watch |].
  2:{ apply keeps_bind; [apply keeps_raise | intros _; apply keeps_ret]. }
  apply keeps_bind.
  { apply keeps_bind; [apply keeps_load | intros a; apply keeps_set_heap]. }
  intros _. apply keeps_bind; [apply keeps_get |]. intros w1.
  apply keeps_bind; [apply keeps_log; by apply ok_internal |]. intros _.
  apply keeps_bind.
  { apply keeps_bind; [apply keeps_load_file | intros f; apply keeps_set_heap]. }
  intros _. destruct (_ <? 0).
  - apply keeps_bind; [apply keeps_raise |]. intros _.
    apply keeps_bind; [apply keeps_nih_free | intros _; apply keeps_ret].
  - apply keeps_bind; [apply keeps_set_heap |]. intros _.
    apply keeps_bind; [apply keeps_set_registry | intros _; apply keeps_ret].
Qed.

Lemma keeps_nih_dir_add_file_watch E watch path :
  keeps P (nih_dir_add_file_watch E watch path).
Proof.
  apply keeps_bind; [apply keeps_nih_file_add_watch |]. intros [p |].
  - apply keeps_ret.
  - apply keeps_bind; [apply keeps_log; by apply ok_internal |].
    intros _. apply keeps_ret.
Qed.

Lemma keeps_readdir_loop walk path types filter visitor ents :
  (forall sp, keeps P (visitor sp)) ->
  Forall (fun e => forall sp, keeps P (walk sp (snd e))) ents ->
  forall ret0, keeps P (readdir_loop walk path types filter visitor ents ret0).
Proof.
  intros Hv. induction 1 as [| [d_name child] ents Hc Hents IH]; intros ret0.
  - apply keeps_ret.
  - cbn [readdir_loop]. destruct (is_dot d_name); [apply IH |].
    cbv zeta. destruct (filtered filter _); [apply IH |].
    destruct (node_stat child) as [st_mode |]; [| apply IH].
    apply keeps_bind.
    { destruct (has_bits st_mode types); [apply Hv | apply keeps_ret]. }
    intros r. destruct (_ && _); [apply keeps_ret |].
    apply keeps_bind.
    { destruct (S_ISDIR st_mode); [apply Hc | apply keeps_ret]. }
    intros r'. destruct (_ && _); [apply keeps_ret | apply IH].
Qed.

Lemma keeps_nih_dir_walk types filter visitor :
  (forall sp, keeps P (visitor sp)) ->
  forall node path, keeps P (nih_dir_walk path node types filter visitor).
Proof.
  intros Hv node. induction node as [st | st ents IH] using Node_nested_ind;
    intros path.
  - cbn. apply keeps_bind; [apply keeps_raise | intros _; apply keeps_ret].
  - cbn [nih_dir_walk]. apply keeps_readdir_loop; [exact Hv |].
    eapply Forall_impl; [exact IH |]. intros [d_name child] Hc sp. apply Hc.
Qed.

Lemma keeps_scan_shared file_watch wd0 iter :
  forall found, keeps P (scan_shared iter file_watch wd0 found).
Proof.
  induction iter as [| q iter IH]; intros found; [apply keeps_ret |].
  cbn [scan_shared]. destruct (Nat.eqb q file_watch); [apply IH |].
  apply keeps_bind; [apply keeps_load_file | intros f; apply IH].
Qed.

Lemma keeps_call_handler h e :
  (forall f, h = Some f -> ok (e f)) -> keeps P (call_handler h e).
Proof.
  intros He. destruct h as [f |]; [| apply keeps_ret].
  apply keeps_log. by apply He.
Qed.

Lemma keeps_nih_dir_watcher E dir_watch file_watch events cookie name w r w' :
  nih_dir_watcher E dir_watch file_watch events cookie name w = Some (r, w') ->
  (forall a d, heap w !! dir_watch = Some a -> a_block a = BDir d ->
               handlers_ok ok dir_watch d) ->
  P w -> P w'.
Proof.
  unfold nih_dir_watcher.
  intros (u & w0 & Has & Hrun)%bind_Some Hok HP.
  assert (w0 = w) as ->.
  { unfold nih_assert in Has. destruct (negb _); [by injection Has | done]. }
  apply bind_Some in Hrun as (d & w0 & Hd & Hrun).
  assert (w0 = w /\ exists a, heap w !! dir_watch = Some a /\ a_block a = BDir d)
    as [-> (a & Ha & Hb)].
  { unfold load_dir, load, bind in Hd. destruct (heap w !! dir_watch) as [a |]; [| done].
    destruct (a_block a) eqn:Hb; [done |]. injection Hd as <- <-. eauto. }
  destruct (Hok a d Ha Hb) as (Hcreate & Hmodify & Hdelete & Hnull).
  apply bind_Some in Hrun as (fw & w0 & Hfw & Hrun).
  assert (w0 = w) as ->.
  { unfold load_file, load, bind in Hfw. destruct (heap w !! file_watch) as [a' |]; [| done].
    destruct (a_block a'); [by injection Hfw | done]. }
  match type of Hrun with
  | ?body w = _ => enough (Hk : keeps P body) by exact (Hk w r w' Hrun HP)
  end.
  clear Hrun HP Has Hd Hfw Hok Ha.
  destruct (_ || _).
  - destruct (String.eqb _ _).
    + apply keeps_bind; [apply keeps_call_handler; intros; by apply Hnull |].
      intros _. apply keeps_nih_free.
    + apply keeps_bind; [apply keeps_get |]. intros w1.
      apply keeps_bind; [apply keeps_scan_shared |]. intros [].
      * apply keeps_bind.
        { apply keeps_bind; [apply keeps_load | intros ?; apply keeps_set_heap]. }
        intros _. apply keeps_bind; [apply keeps_set_registry |].
        intros _. apply keeps_nih_free.
      * apply keeps_bind; [apply keeps_nih_file_remove_watch |].
        intros _. apply keeps_nih_free.
  - destruct name as [name |]; [| apply keeps_abort].
    cbv zeta. destruct (filtered (filter d) _) eqn:Hfilt; [apply keeps_ret |].
    destruct (_ || _).
    { apply keeps_bind; [apply keeps_call_handler; intros; by apply Hcreate |].
      intros _. apply keeps_bind; [apply keeps_get |]. intros w1.
      destruct (if negb (subdirs d =? 0) then _ else _) as [st_mode |];
        [| apply keeps_ret].
      destruct (S_ISDIR st_mode); [| apply keeps_ret].
      apply keeps_bind; [apply keeps_nih_dir_add_file_watch |]. intros _.
      apply keeps_bind; [| intros _; apply keeps_ret].
      apply keeps_nih_dir_walk. intros sp. apply keeps_nih_dir_add_file_watch. }
    destruct (has_bits events IN_MODIFY).
    { apply keeps_call_handler; intros; by apply Hmodify. }
    destruct (_ || _); [| apply keeps_ret].
    apply keeps_call_handler; intros; by apply Hdelete.
Qed.
End Keeps.

(** ** nih_file_remove_watch *)

Lemma nih_file_remove_watch_invalid watch w a f :
  heap w !! watch = Some a -> a_block a = BFile f -> wd f < 0 ->
  nih_file_remove_watch watch w = Some (tt, w).
Proof.
  intros Hp Hb Hwd. unfold nih_file_remove_watch.
  rewrite (bind_run _ _ _ _ _ (load_file_run _ _ _ _ Hp Hb)).
  destruct (Z.ltb_spec (wd f) 0); [done | lia].
Qed.

Lemma nih_file_remove_watch_valid watch w a f :
  heap w !! watch = Some a -> a_block a = BFile f -> 0 <= wd f ->
  nih_file_remove_watch watch w = Some (tt, released watch a f w).
Proof.
  intros Hp Hb Hwd. unfold nih_file_remove_watch.
  rewrite (bind_run _ _ _ _ _ (load_file_run _ _ _ _ Hp Hb)).
  destruct (Z.ltb_spec (wd f) 0); [lia |].
  unfold store_wd, nih_list_remove, log, modify, get, bind.
  rewrite (load_file_run watch (log_event _ w) a f Hp Hb).
  unfold released, set_file_watches, set_heap, log_event. cbn.
  by rewrite (alter_insert_lookup _ _ _ _ Hp).
Qed.

(** ** nih_free *)

Lemma unlink_lookup_self p a h : unlink p a h !! p = None.
Proof. unfold unlink. apply lookup_delete_eq. Qed.

Lemma unlink_lookup_parent p q a h :
  q ≠ p -> a_parent a = Some q ->
  unlink p a h !! q = del_child p <$> h !! q.
Proof.
  intros Hne Hq. unfold unlink. rewrite Hq, lookup_delete_ne by done.
  by rewrite lookup_alter_eq.
Qed.

Lemma unlink_lookup_other p q a h :
  q ≠ p -> a_parent a ≠ Some q -> unlink p a h !! q = h !! q.
Proof.
  intros Hne Hq. unfold unlink. rewrite lookup_delete_ne by done.
  destruct (a_parent a) as [q' |]; [| done].
  rewrite lookup_alter_ne; [done | congruence].
Qed.

Lemma nih_free_fuel_leaf_plain n p w a :
  heap w !! p = Some a -> a_children a = [] -> a_destructor a = None ->
  nih_free_fuel (S n) p w = Some (tt, set_heap (unlink p a) w).
Proof.
  intros Hp Hc Hd. cbn [nih_free_fuel].
  rewrite (bind_run _ _ _ _ _ (load_run _ _ _ Hp)). rewrite Hc. cbn [for_each].
  unfold bind at 1. cbn [ret].
  rewrite (bind_run _ _ _ _ _ (load_run _ _ _ Hp)). rewrite Hd.
  reflexivity.
Qed.

Lemma nih_free_fuel_leaf_invalid n p w a f :
  heap w !! p = Some a -> a_children a = [] -> a_block a = BFile f ->
  wd f < 0 ->
  nih_free_fuel (S n) p w = Some (tt, set_heap (unlink p a) w).
Proof.
  intros Hp Hc Hb Hwd. cbn [nih_free_fuel].
  rewrite (bind_run _ _ _ _ _ (load_run _ _ _ Hp)). rewrite Hc. cbn [for_each].
  unfold bind at 1. cbn [ret].
  rewrite (bind_run _ _ _ _ _ (load_run _ _ _ Hp)).
  destruct (a_destructor a) as [[]|]; [| reflexivity].
  cbn [run_destructor].
  by rewrite (bind_run _ _ _ _ _ (nih_file_remove_watch_invalid _ _ _ _ Hp Hb Hwd)).
Qed.

Lemma nih_free_fuel_leaf_valid n p w a f :
  heap w !! p = Some a -> a_children a = [] -> a_block a = BFile f ->
  a_destructor a = Some D_nih_file_remove_watch -> 0 <= wd f ->
  nih_free_fuel (S n) p w
    = Some (tt, set_heap (unlink p a) (released p a f w)).
Proof.
  intros Hp Hc Hb Hd Hwd. cbn [nih_free_fuel].
  rewrite (bind_run _ _ _ _ _ (load_run _ _ _ Hp)). rewrite Hc. cbn [for_each].
  unfold bind at 1. cbn [ret].
  rewrite (bind_run _ _ _ _ _ (load_run _ _ _ Hp)). rewrite Hd.
  cbn [run_destructor].
  rewrite (bind_run _ _ _ _ _ (nih_file_remove_watch_valid _ _ _ _ Hp Hb Hwd)).
  reflexivity.
Qed.

Lemma without_nil l : without [] l = l.
Proof.
  unfold without. induction l as [| x l IH]; [done |]. cbn.
  rewrite IH. rewrite bool_decide_eq_true_2; [done | apply not_elem_of_nil].
Qed.

Lemma without_cons c cs l :
  without cs (List.filter (fun q => negb (Nat.eqb q c)) l) = without (c :: cs) l.
Proof.
  unfold without. induction l as [| x l IH]; [done |]. cbn.
  destruct (Nat.eqb_spec x c) as [-> | Hne]; cbn.
  - rewrite (bool_decide_eq_false_2 (c ∉ c :: cs)); [done |].
    intros H. apply H. list_mem.
  - rewrite IH. destruct (decide (x ∈ cs)) as [Hin | Hnin].
    + rewrite !bool_decide_eq_false_2; [done | |]; intros H; apply H; [by list_mem | done].
    + rewrite !bool_decide_eq_true_2; [done | | done].
      rewrite elem_of_cons. tauto.
Qed.

Lemma filter_neq_id (c : nat) (l : list nat) :
  c ∉ l -> List.filter (fun q => negb (Nat.eqb q c)) l = l.
Proof.
  induction l as [| x l IH]; [done |]. intros [Hne Hl]%not_elem_of_cons. cbn.
  destruct (Nat.eqb_spec x c); [congruence |]. cbn. by rewrite IH.
Qed.

Lemma free_child n dw c w :
  c ≠ dw -> leaf_watch w dw c ->
  exists w1,
    nih_free_fuel (S n) c w = Some (tt, w1) /\
    trace w1 = trace w ++ rm_events w [c] /\
    file_watches w1 = List.filter (fun q => negb (Nat.eqb q c)) (file_watches w) /\
    inotify_fd w1 = inotify_fd w /\ io_recv_buf w1 = io_recv_buf w /\
    heap w1 !! c = None /\
    (forall q, q ≠ c -> q ≠ dw -> heap w1 !! q = heap w !! q) /\
    heap w1 !! dw = del_child c <$> heap w !! dw.
Proof.
  intros Hne (a & f & Hp & Hb & Hch & Hpar & Hd & Hreg).
  unfold rm_events, wd_at. cbn [omap list_omap]. rewrite Hp.
  destruct a as [b pa ch d]. cbn in Hb, Hch, Hpar, Hd. subst b ch pa d.
  destruct (Z.ltb_spec (wd f) 0) as [Hwd | Hwd].
  - eexists. split; [eapply nih_free_fuel_leaf_invalid; eauto |].
    cbn. rewrite app_nil_r. repeat split.
    + symmetry. by apply filter_neq_id, Hreg.
    + apply unlink_lookup_self.
    + intros q ? ?. apply unlink_lookup_other; [done | cbn; congruence].
    + by apply unlink_lookup_parent.
  - eexists. split; [eapply nih_free_fuel_leaf_valid; eauto |].
    cbn. repeat split.
    + apply unlink_lookup_self.
    + intros q ? ?. rewrite unlink_lookup_other; [| done | cbn; congruence].
      by rewrite lookup_insert_ne.
    + rewrite unlink_lookup_parent by done. by rewrite lookup_insert_ne.
Qed.

Lemma rm_events_cons w c cs : rm_events w (c :: cs) = rm_events w [c] ++ rm_events w cs.
Proof. unfold rm_events. cbn. by destruct (wd_at w c <? 0). Qed.

Lemma wd_at_ext w w1 c : heap w1 !! c = heap w !! c -> wd_at w1 c = wd_at w c.
Proof. unfold wd_at. by intros ->. Qed.

Lemma rm_events_ext w w1 cs :
  inotify_fd w1 = inotify_fd w ->
  (forall c, c ∈ cs -> heap w1 !! c = heap w !! c) ->
  rm_events w1 cs = rm_events w cs.
Proof.
  intros Hfd H. induction cs as [| c cs IH]; [done |].
  rewrite (rm_events_cons w1), (rm_events_cons w).
  rewrite IH by (intros c' Hc'; apply H; by list_mem).
  f_equal. unfold rm_events. cbn.
  rewrite (wd_at_ext w w1 c) by (apply H; list_mem). by rewrite Hfd.
Qed.

Lemma del_children_cons c cs a :
  del_children cs (del_child c a) = del_children (c :: cs) a.
Proof. destruct a. unfold del_children, del_child. f_equal. apply without_cons. Qed.

Lemma free_children n dw cs :
  forall w,
    NoDup cs -> dw ∉ cs -> (forall c, c ∈ cs -> leaf_watch w dw c) ->
    exists w',
      for_each (nih_free_fuel (S n)) cs w = Some (tt, w') /\
      trace w' = trace w ++ rm_events w cs /\
      file_watches w' = without cs (file_watches w) /\
      inotify_fd w' = inotify_fd w /\
      io_recv_buf w' = io_recv_buf w /\
      (forall c, c ∈ cs -> heap w' !! c = None) /\
      (forall q, q ∉ cs -> q ≠ dw -> heap w' !! q = heap w !! q) /\
      heap w' !! dw = del_children cs <$> heap w !! dw.
Proof.
  induction cs as [| c cs IH]; intros w Hnd Hdw Hleaf.
  - exists w. rewrite without_nil. cbn. rewrite app_nil_r.
    repeat split; try done.
    + intros c Hc. by apply elem_of_nil in Hc.
    + destruct (heap w !! dw) as [[b pa ch d] |]; [| done].
      cbn [fmap option_fmap option_map]. f_equal.
      unfold del_children. f_equal. symmetry. apply without_nil.
  - apply NoDup_cons in Hnd as [Hc Hnd].
    apply not_elem_of_cons in Hdw as [Hdwc Hdw].
    destruct (free_child n dw c w) as
      (w1 & Hrun1 & Htr1 & Hfw1 & Hfd1 & Hbuf1 & Hc1 & Hoth1 & Hdw1);
      [done | apply Hleaf; list_mem |].
    assert (Hsame : forall c', c' ∈ cs -> heap w1 !! c' = heap w !! c').
    { intros c' Hc'. apply Hoth1; intros ->; done. }
    destruct (IH w1 Hnd Hdw) as
      (w' & Hrun & Htr & Hfw & Hfd & Hbuf & Hcs & Hoth & Hdw').
    { intros c' Hc'. destruct (Hleaf c') as (a & f & Hp & Hrest); [by list_mem |].
      exists a, f. rewrite Hsame by done. split; [done |].
      destruct Hrest as (? & ? & ? & ? & Hreg). repeat split; try done.
      intros Hwd Hin. apply (Hreg Hwd). rewrite Hfw1 in Hin.
      by apply elem_of_filter_neq in Hin as [? _]. }
    exists w'. cbn [for_each]. rewrite (bind_run _ _ _ _ _ Hrun1).
    split; [exact Hrun |].
    split; [| split; [| split; [| split; [| split; [| split]]]]].
    + rewrite Htr, Htr1, (rm_events_cons w c cs), <- app_assoc.
      do 2 f_equal. by apply rm_events_ext.
    + by rewrite Hfw, Hfw1, without_cons.
    + congruence.
    + congruence.
    + intros c' [-> | Hc']%elem_of_cons; [| by apply Hcs].
      rewrite Hoth; done.
    + intros q [Hqc Hq]%not_elem_of_cons Hqd. rewrite Hoth by done. by apply Hoth1.
    + rewrite Hdw', Hdw1. destruct (heap w !! dw) as [a |]; [| done]. cbn.
      by rewrite del_children_cons.
Qed.

(** ** nih_file_add_watch *)

Lemma nih_file_init_run E w : nih_file_init E w = Some (tt, init_world E w).
Proof.
  unfold nih_file_init, init_world, get, bind.
  by destruct (inotify_fd w =? -1).
Qed.

Lemma init_world_heap E w : heap (init_world E w) = heap w.
Proof. unfold init_world. by destruct (inotify_fd w =? -1). Qed.

Lemma init_world_registry E w : file_watches (init_world E w) = file_watches w.
Proof. unfold init_world. by destruct (inotify_fd w =? -1). Qed.

Lemma fresh_lookup (h : gmap nat Alloc) : h !! fresh (dom h) = None.
Proof. apply not_elem_of_dom, is_fresh. Qed.

Lemma run_get {B} (k : World -> M B) w : bind get k w = k w w.
Proof. reflexivity. Qed.

Lemma run_modify {B} f (k : unit -> M B) w : bind (modify f) k w = k tt (f w).
Proof. reflexivity. Qed.

Lemma run_log {B} e (k : unit -> M B) w : bind (log e) k w = k tt (log_event e w).
Proof. reflexivity. Qed.

Lemma run_ret {A B} (a : A) (k : A -> M B) w : bind (ret a) k w = k a w.
Proof. reflexivity. Qed.

Lemma run_load {B} p (k : Alloc -> M B) w a :
  heap w !! p = Some a -> bind (load p) k w = k a w.
Proof. intros H. by rewrite (bind_run _ _ _ _ _ (load_run _ _ _ H)). Qed.

Lemma run_load_file {B} p (k : NihFileWatch -> M B) w a f :
  heap w !! p = Some a -> a_block a = BFile f -> bind (load_file p) k w = k f w.
Proof. intros H Hb. by rewrite (bind_run _ _ _ _ _ (load_file_run _ _ _ _ H Hb)). Qed.

Lemma run_load_dir {B} p (k : NihDirWatch -> M B) w a d :
  heap w !! p = Some a -> a_block a = BDir d -> bind (load_dir p) k w = k d w.
Proof. intros H Hb. by rewrite (bind_run _ _ _ _ _ (load_dir_run _ _ _ _ H Hb)). Qed.

Lemma run_nih_free {B} p (k : unit -> M B) w :
  bind (nih_free p) k w = bind (nih_free_fuel (S (size (heap w))) p) k w.
Proof. reflexivity. Qed.

Ltac mstep :=
  repeat first
    [ rewrite bind_assoc | rewrite run_get | rewrite run_modify
    | rewrite run_log | rewrite run_ret ].

(** The kernel refuses the watch: the block just allocated is freed
    again, nothing is registered, and NULL is returned with a raised
    error. *)
Lemma nih_file_add_watch_refused E q path events watcher data w :
  events ≠ 0 ->
  is_Some (heap w !! q) ->
  0 <= inotify_fd (init_world E w) ->
  sys_malloc_ok E (trace (init_world E w)) = true ->
  add_watch_answer E w path events < 0 ->
  exists w',
    nih_file_add_watch E (Some q) path events watcher data w = Some (None, w') /\
    trace w' = trace (init_world E w)
               ++ [E_inotify_add_watch (inotify_fd (init_world E w)) path events
                                       (add_watch_answer E w path events);
                   E_error_raise_system] /\
    file_watches w' = file_watches w /\
    inotify_fd w' = inotify_fd (init_world E w) /\
    io_recv_buf w' = io_recv_buf w /\
    (forall p, p ≠ q -> heap w' !! p = heap w !! p) /\
    heap w' !! q
    = (fun a => del_child (fresh (dom (heap w))) (add_child (fresh (dom (heap w))) a))
        <$> heap w !! q.
Proof.
  intros Hev [aq Hq] Hfd Hmem Hneg. unfold add_watch_answer in *.
  unfold nih_file_add_watch.
  apply Z.eqb_neq in Hev. rewrite Hev. unfold nih_assert. cbn [negb].
  rewrite run_ret, (bind_run _ _ _ _ _ (nih_file_init_run E w)).
  assert (Hbuf : io_recv_buf (init_world E w) = io_recv_buf w).
  { unfold init_world. by destruct (inotify_fd w =? -1). }
  pose proof (init_world_heap E w) as Hheap.
  pose proof (init_world_registry E w) as Hregs.
  revert Hfd Hmem Hneg Hbuf Hheap Hregs. generalize (init_world E w). intros w0.
  intros Hfd Hmem Hneg Hbuf Hheap Hregs.
  rewrite run_get.
  destruct (Z.ltb_spec (inotify_fd w0) 0) as [| _]; [lia |].
  unfold nih_new. mstep. rewrite Hmem. mstep.
  set (p := fresh (dom (heap w0))).
  assert (Hp : heap w0 !! p = None) by apply fresh_lookup.
  assert (Hpq : p ≠ q). { intros ->. rewrite Hheap, Hq in Hp. done. }
  set (a0 := mkAlloc (BFile uninitialised) (Some q) [] None).
  set (h1 := alter (add_child p) q (<[p:=a0]> (heap w0))).
  assert (H1 : h1 !! p = Some a0).
  { unfold h1. rewrite lookup_alter_ne by done. apply lookup_insert_eq. }
  unfold nih_alloc_set_destructor. mstep.
  rewrite (run_load p _ _ a0) by exact H1. mstep.
  cbn [trace inotify_fd set_heap].
  remember (sys_inotify_add_watch E (trace w0) (inotify_fd w0) path events) as r.
  set (a1 := mkAlloc (a_block a0) (a_parent a0) (a_children a0)
                     (Some D_nih_file_remove_watch)).
  unfold store_wd. mstep.
  rewrite (run_load_file p _ _ a1 uninitialised)
    by (first [apply lookup_insert_eq | reflexivity]).
  mstep.
  destruct (Z.ltb_spec r 0) as [_ |]; [| lia].
  unfold nih_error_raise_system. mstep.
  set (a2 := set_block (BFile (set_wd r uninitialised)) a1).
  rewrite run_nih_free.
  erewrite (bind_run _ _ _ _ _
              (nih_free_fuel_leaf_invalid _ p _ a2 (set_wd r uninitialised) _ _ _ _)).
  Unshelve.
  2:{ cbn. rewrite lookup_alter_eq, lookup_insert_eq. done. }
  2:{ reflexivity. }
  2:{ reflexivity. }
  2:{ cbn. lia. }
  eexists. split; [reflexivity |].
  cbn [trace file_watches inotify_fd io_recv_buf heap set_heap log_event].
  rewrite <- app_assoc. split; [done |]. split; [done |]. split; [done |].
  split; [done |]. rewrite <- Hheap. split.
  - intros p' Hp'. destruct (decide (p' = p)) as [-> | Hne].
    + rewrite unlink_lookup_self. by rewrite Hp.
    + rewrite unlink_lookup_other; [| done | cbn; congruence].
      rewrite lookup_alter_ne, lookup_insert_ne by done.
      unfold h1. by rewrite lookup_alter_ne, lookup_insert_ne.
  - rewrite unlink_lookup_parent; [| done | reflexivity].
    rewrite lookup_alter_ne, lookup_insert_ne by done.
    unfold h1. rewrite lookup_alter_eq, lookup_insert_ne by done.
    by destruct (heap w0 !! q).
Qed.

(** There is no inotify descriptor, or no memory: NULL with a raised
    error, and nothing else happens. *)
Lemma nih_file_add_watch_unavailable E parent path events watcher data w :
  events ≠ 0 ->
  inotify_fd (init_world E w) < 0 \/
  sys_malloc_ok E (trace (init_world E w)) = false ->
  nih_file_add_watch E parent path events watcher data w
  = Some (None, log_event E_error_raise_system (init_world E w)).
Proof.
  intros Hev Hcase. unfold nih_file_add_watch.
  apply Z.eqb_neq in Hev. rewrite Hev. unfold nih_assert. cbn [negb].
  rewrite run_ret, (bind_run _ _ _ _ _ (nih_file_init_run E w)), run_get.
  destruct (Z.ltb_spec (inotify_fd (init_world E w)) 0) as [| Hfd]; [done |].
  destruct Hcase as [| Hmem]; [lia |].
  unfold nih_new. mstep. by rewrite Hmem.
Qed.

(** The kernel grants the watch: the new block, filled in, is registered
    at the tail of the list and returned. *)
Lemma nih_file_add_watch_granted E q path events watcher data w :
  events ≠ 0 ->
  is_Some (heap w !! q) ->
  0 <= inotify_fd (init_world E w) ->
  sys_malloc_ok E (trace (init_world E w)) = true ->
  0 <= add_watch_answer E w path events ->
  let p := fresh (dom (heap w)) in
  exists w',
    nih_file_add_watch E (Some q) path events watcher data w = Some (Some p, w') /\
    trace w' = trace (init_world E w)
               ++ [E_inotify_add_watch (inotify_fd (init_world E w)) path events
                                       (add_watch_answer E w path events)] /\
    file_watches w'
    = List.filter (fun x => negb (Nat.eqb x p)) (file_watches w) ++ [p] /\
    inotify_fd w' = inotify_fd (init_world E w) /\
    io_recv_buf w' = io_recv_buf w /\
    heap w' !! p
    = Some (mkAlloc (BFile (mkFileWatch (add_watch_answer E w path events)
                                        path events watcher data))
                    (Some q) [] (Some D_nih_file_remove_watch)) /\
    (forall p', p' ≠ p -> p' ≠ q -> heap w' !! p' = heap w !! p') /\
    heap w' !! q = add_child p <$> heap w !! q.
Proof.
  intros Hev [aq Hq] Hfd Hmem Hpos p. unfold add_watch_answer in *.
  unfold nih_file_add_watch.
  apply Z.eqb_neq in Hev. rewrite Hev. unfold nih_assert. cbn [negb].
  rewrite run_ret, (bind_run _ _ _ _ _ (nih_file_init_run E w)).
  assert (Hbuf : io_recv_buf (init_world E w) = io_recv_buf w).
  { unfold init_world. by destruct (inotify_fd w =? -1). }
  pose proof (init_world_heap E w) as Hheap.
  pose proof (init_world_registry E w) as Hregs.
  revert Hfd Hmem Hpos Hbuf Hheap Hregs. generalize (init_world E w). intros w0.
  intros Hfd Hmem Hpos Hbuf Hheap Hregs.
  rewrite run_get.
  destruct (Z.ltb_spec (inotify_fd w0) 0) as [| _]; [lia |].
  unfold nih_new. mstep. rewrite Hmem. mstep.
  rewrite Hheap. fold p.
  assert (Hp : heap w !! p = None) by apply fresh_lookup.
  assert (Hpq : p ≠ q). { intros Heq. rewrite Heq, Hq in Hp. done. }
  set (a0 := mkAlloc (BFile uninitialised) (Some q) [] None).
  set (h1 := alter (add_child p) q (<[p:=a0]> (heap w0))).
  assert (H1 : h1 !! p = Some a0).
  { unfold h1. rewrite lookup_alter_ne by done. apply lookup_insert_eq. }
  unfold nih_alloc_set_destructor. mstep.
  rewrite (run_load p _ _ a0) by exact H1. mstep.
  cbn [trace inotify_fd set_heap].
  remember (sys_inotify_add_watch E (trace w0) (inotify_fd w0) path events) as r.
  set (a1 := mkAlloc (a_block a0) (a_parent a0) (a_children a0)
                     (Some D_nih_file_remove_watch)).
  unfold store_wd. mstep.
  rewrite (run_load_file p _ _ a1 uninitialised)
    by (first [apply lookup_insert_eq | reflexivity]).
  mstep.
  destruct (Z.ltb_spec r 0) as [| _]; [lia |].
  unfold nih_list_add. mstep.
  eexists. split; [reflexivity |].
  cbn [trace file_watches inotify_fd io_recv_buf heap set_heap log_event
       set_file_watches].
  rewrite Hregs. do 4 (split; [done |]). split; [| split].
  - rewrite lookup_alter_eq, lookup_alter_eq, lookup_insert_eq. done.
  - intros p' Hp' Hq'. rewrite !lookup_alter_ne, lookup_insert_ne by done.
    unfold h1. by rewrite lookup_alter_ne, lookup_insert_ne, Hheap.
  - rewrite !lookup_alter_ne, lookup_insert_ne by done.
    unfold h1. by rewrite lookup_alter_eq, lookup_insert_ne, Hheap.
Qed.

Lemma DIR_EVENTS_nonzero : DIR_EVENTS ≠ 0.
Proof. discriminate. Qed.

(** [nih_dir_add_file_watch] always returns, and returns zero; the tree
    watch stays allocated. *)
Lemma nih_dir_add_file_watch_total E watch path w :
  is_Some (heap w !! watch) ->
  exists w', nih_dir_add_file_watch E watch path w = Some (0, w') /\
             is_Some (heap w' !! watch).
Proof.
  intros Hw. unfold nih_dir_add_file_watch.
  destruct (Z.ltb_spec (inotify_fd (init_world E w)) 0) as [Hfd | Hfd].
  { rewrite (bind_run _ _ _ _ _
       (nih_file_add_watch_unavailable E _ path DIR_EVENTS _ _ w
          DIR_EVENTS_nonzero (or_introl Hfd))).
    eexists. split; [reflexivity |]. cbn. by rewrite init_world_heap. }
  destruct (sys_malloc_ok E (trace (init_world E w))) eqn:Hmem.
  2:{ rewrite (bind_run _ _ _ _ _
       (nih_file_add_watch_unavailable E _ path DIR_EVENTS _ _ w
          DIR_EVENTS_nonzero (or_intror Hmem))).
    eexists. split; [reflexivity |]. cbn. by rewrite init_world_heap. }
  destruct (Z.ltb_spec (add_watch_answer E w path DIR_EVENTS) 0) as [Hneg | Hpos].
  - destruct (nih_file_add_watch_refused E watch path DIR_EVENTS W_nih_dir_watcher
                watch w DIR_EVENTS_nonzero Hw Hfd Hmem Hneg)
      as (w' & Hrun & _ & _ & _ & _ & _ & Hq).
    rewrite (bind_run _ _ _ _ _ Hrun). eexists. split; [reflexivity |].
    cbn. rewrite Hq. destruct Hw as [a ->]. by eexists.
  - destruct (nih_file_add_watch_granted E watch path DIR_EVENTS W_nih_dir_watcher
                watch w DIR_EVENTS_nonzero Hw Hfd Hmem Hpos)
      as (w' & Hrun & _ & _ & _ & _ & _ & _ & Hq).
    rewrite (bind_run _ _ _ _ _ Hrun). eexists. split; [reflexivity |].
    rewrite Hq. destruct Hw as [a ->]. by eexists.
Qed.

(** ** nih_dir_watcher: a watched directory goes away *)

Lemma has_bits_nonzero events b : has_bits events b = true -> negb (events =? 0) = true.
Proof.
  unfold has_bits. destruct (Z.eqb_spec events 0) as [-> |]; [| done].
  by rewrite Z.land_0_l.
Qed.

Lemma size_lookup_Some (h : gmap nat Alloc) p a :
  h !! p = Some a -> exists n, size h = S n.
Proof.
  intros Hp. destruct (size h) as [| n] eqn:Hs; [| by exists n].
  apply map_size_empty_inv in Hs. subst h. by rewrite lookup_empty in Hp.
Qed.

Lemma wd_at_file w q a f :
  heap w !! q = Some a -> a_block a = BFile f -> wd_at w q = wd f.
Proof. unfold wd_at. intros ->. destruct a as [b ? ? ?]. cbn. by intros ->. Qed.

Lemma scan_shared_run file_watch wd0 w iter :
  forall found,
    (forall q, q ∈ iter -> exists a f, heap w !! q = Some a /\ a_block a = BFile f) ->
    scan_shared iter file_watch wd0 found w
    = Some (found || existsb (fun q => negb (Nat.eqb q file_watch)
                                       && (wd_at w q =? wd0)) iter, w).
Proof.
  induction iter as [| q iter IH]; intros found Hall.
  - cbn. by rewrite orb_false_r.
  - cbn [scan_shared existsb].
    assert (Hrest : forall q', q' ∈ iter ->
              exists a f, heap w !! q' = Some a /\ a_block a = BFile f).
    { intros q' Hq'. apply Hall. by list_mem. }
    destruct (Nat.eqb_spec q file_watch) as [-> | Hne]; cbn [negb andb orb].
    + by apply IH.
    + destruct (Hall q) as (a & f & Hq & Hb); [list_mem |].
      rewrite (bind_run _ _ _ _ _ (load_file_run _ _ _ _ Hq Hb)).
      rewrite IH by done. rewrite (wd_at_file _ _ _ _ Hq Hb).
      by destruct (wd f =? wd0), found.
Qed.

Lemma shared_wd_true w file_watch wd0 :
  shared_wd w file_watch wd0 = true <->
  exists q, q ∈ file_watches w /\ q ≠ file_watch /\ wd_at w q = wd0.
Proof.
  unfold shared_wd. rewrite existsb_exists. split.
  - intros (q & Hin & Hq). apply andb_true_iff in Hq as [Hne Hwd].
    exists q. rewrite list_elem_of_In. split; [done |].
    apply negb_true_iff, Nat.eqb_neq in Hne. apply Z.eqb_eq in Hwd. done.
  - intros (q & Hin & Hne & Hwd). exists q. rewrite <- list_elem_of_In.
    split; [done |]. apply andb_true_iff. split.
    + by apply negb_true_iff, Nat.eqb_neq.
    + by apply Z.eqb_eq.
Qed.

(** C3: an 'invalidated' or 'moved-self' event for the root watch (the
    watch whose path is the tree watch's own) tears the tree watch down.
    The delete handler, if there is one, is called once, with a NULL
    path; then each watch the tree watch owns is released (one kernel
    removal for each valid descriptor, in the order the watches were
    added), unregistered and freed, and the tree watch itself is freed.
    No owned watch is left allocated or registered; blocks outside the
    tree watch are as they were. *)
Theorem C3_root_teardown (E : Env) (dir_watch file_watch : ptr)
    (events cookie : Z) (name : option string) (w : World)
    (adw : Alloc) (d : NihDirWatch) (afw : Alloc) (fw : NihFileWatch) :
  has_bits events IN_IGNORED || has_bits events IN_MOVE_SELF = true ->
  heap w !! dir_watch = Some adw -> a_block adw = BDir d ->
  a_destructor adw = None ->
  heap w !! file_watch = Some afw -> a_block afw = BFile fw ->
  path fw = d_path d ->
  NoDup (a_children adw) -> dir_watch ∉ a_children adw ->
  (forall c, c ∈ a_children adw -> leaf_watch w dir_watch c) ->
  exists w',
    nih_dir_watcher E dir_watch file_watch events cookie name w = Some (tt, w') /\
    trace w' = trace w
               ++ match delete_handler d with
                  | Some h => [E_delete_handler h (d_data d) dir_watch None]
                  | None => []
                  end
               ++ rm_events w (a_children adw) /\
    file_watches w' = without (a_children adw) (file_watches w) /\
    heap w' !! dir_watch = None /\
    (forall c, c ∈ a_children adw ->
               heap w' !! c = None /\ c ∉ file_watches w') /\
    (forall q, q ∉ a_children adw -> q ≠ dir_watch ->
               a_parent adw ≠ Some q -> heap w' !! q = heap w !! q).
Proof.
  intros Hev Hdw Hbd Hdd Hfw Hbf Hpath Hnd Hnin Hleaf.
  unfold nih_dir_watcher.
  assert (Hnz : negb (events =? 0) = true).
  { apply orb_true_iff in Hev as [H | H]; eapply has_bits_nonzero; eauto. }
  rewrite Hnz. unfold nih_assert. unfold bind at 1. cbn [ret].
  rewrite (bind_run _ _ _ _ _ (load_dir_run _ _ _ _ Hdw Hbd)).
  rewrite (bind_run _ _ _ _ _ (load_file_run _ _ _ _ Hfw Hbf)).
  rewrite Hev, Hpath, String.eqb_refl.
  set (hev := match delete_handler d with
              | Some h => [E_delete_handler h (d_data d) dir_watch None]
              | None => []
              end).
  set (w0 := mkWorld (heap w) (file_watches w) (inotify_fd w) (io_recv_buf w)
                     (trace w ++ hev)).
  assert (Hcall : call_handler (delete_handler d)
            (fun h => E_delete_handler h (d_data d) dir_watch None) w
          = Some (tt, w0)).
  { unfold call_handler, w0, hev. destruct (delete_handler d); [done |].
    unfold ret. rewrite app_nil_r. by destruct w. }
  rewrite (bind_run _ _ _ _ _ Hcall).
  unfold nih_free.
  destruct (size_lookup_Some (heap w0) dir_watch adw Hdw) as [n Hn].
  rewrite Hn. cbn [nih_free_fuel].
  rewrite (bind_run _ _ _ _ _ (load_run _ w0 _ Hdw)).
  destruct (free_children n dir_watch (a_children adw) w0 Hnd Hnin) as
    (w1 & Hrun & Htr & Hreg & Hfd & Hbuf & Hcs & Hoth & Hdw1).
  { exact Hleaf. }
  rewrite (bind_run _ _ _ _ _ Hrun).
  cbn in Hdw1. rewrite Hdw in Hdw1. cbn in Hdw1.
  rewrite (bind_run _ _ _ _ _ (load_run _ w1 _ Hdw1)).
  cbn [a_destructor del_children]. rewrite Hdd.
  unfold bind at 1. cbn [ret]. unfold modify.
  exists (set_heap (unlink dir_watch (del_children (a_children adw) adw)) w1).
  split; [reflexivity |]. cbn [trace file_watches heap set_heap].
  assert (Hpar : a_parent (del_children (a_children adw) adw) = a_parent adw)
    by reflexivity.
  split; [| split; [| split; [| split]]].
  - rewrite Htr. cbn. by rewrite <- app_assoc.
  - exact Hreg.
  - apply unlink_lookup_self.
  - intros c Hc. split.
    + destruct (decide (a_parent adw = Some c)) as [Heq | Hne].
      * rewrite unlink_lookup_parent; [| intros ->; done | by rewrite Hpar].
        by rewrite Hcs.
      * rewrite unlink_lookup_other;
          [by apply Hcs | intros ->; done | by rewrite Hpar].
    + rewrite Hreg. unfold without. rewrite list_elem_of_In, List.filter_In.
      intros [_ Hd]. apply bool_decide_eq_true_1 in Hd. done.
  - intros q Hq Hqd Hqp.
    rewrite unlink_lookup_other; [by apply Hoth | done | by rewrite Hpar].
Qed.

Lemma C3_root_teardown_witness :
  exists w',
    nih_dir_watcher env_plain 1 2 IN_MOVE_SELF 0 None world_tree = Some (tt, w') /\
    trace w' = [E_delete_handler 13 0 1 None;
                E_inotify_rm_watch 3 1; E_inotify_rm_watch 3 2] /\
    file_watches w' = [] /\ heap w' = ∅.
Proof.
  destruct (C3_root_teardown env_plain 1 2 IN_MOVE_SELF 0 None world_tree
              _ dw_tree _ _ eq_refl eq_refl eq_refl eq_refl eq_refl eq_refl
              eq_refl)
    as (w' & Hrun & Htr & Hreg & _).
  - cbn. apply NoDup_cons. split; [| apply NoDup_singleton].
    intros H%list_elem_of_singleton. discriminate.
  - cbn. intros H. repeat (apply elem_of_cons in H as [H | H]; [discriminate |]).
    by apply elem_of_nil in H.
  - cbn. intros c H.
    apply elem_of_cons in H as [-> | H];
      [| apply list_elem_of_singleton in H as ->];
      (eexists _, _; do 5 (split; [reflexivity |]); cbn; lia).
  - exists w'. split; [exact Hrun |]. split; [exact Htr |]. split; [exact Hreg |].
    vm_compute in Hrun. injection Hrun as <-. reflexivity.
Defined.

(** C2: an 'invalidated' or 'moved-self' event for a watch whose path is
    not the tree watch's own.  The whole registry is scanned for another
    entry with the same descriptor.  If there is one, the entry of the
    event is unlinked and freed and the kernel is not called: the log is
    unchanged.  If there is none, the kernel is asked once to remove the
    descriptor, and the entry is unlinked and freed.  Either way the
    other registry entries keep their order and their blocks. *)
Theorem C2_subdir_teardown (E : Env) (dir_watch file_watch : ptr)
    (events cookie : Z) (name : option string) (w : World)
    (adw : Alloc) (d : NihDirWatch) (afw : Alloc) (fw : NihFileWatch) :
  has_bits events IN_IGNORED || has_bits events IN_MOVE_SELF = true ->
  heap w !! dir_watch = Some adw -> a_block adw = BDir d ->
  heap w !! file_watch = Some afw -> a_block afw = BFile fw ->
  a_children afw = [] ->
  path fw ≠ d_path d ->
  0 <= wd fw ->
  registry_allocated w ->
  exists w',
    nih_dir_watcher E dir_watch file_watch events cookie name w = Some (tt, w') /\
    ((exists q, q ∈ file_watches w /\ q ≠ file_watch /\ wd_at w q = wd fw) ->
     trace w' = trace w) /\
    (~ (exists q, q ∈ file_watches w /\ q ≠ file_watch /\ wd_at w q = wd fw) ->
     trace w' = trace w ++ [E_inotify_rm_watch (inotify_fd w) (wd fw)]) /\
    file_watches w'
      = List.filter (fun q => negb (Nat.eqb q file_watch)) (file_watches w) /\
    heap w' !! file_watch = None /\
    (forall q, q ≠ file_watch -> a_parent afw ≠ Some q ->
               heap w' !! q = heap w !! q) /\
    (forall q, q ≠ file_watch -> a_parent afw = Some q ->
               heap w' !! q = del_child file_watch <$> heap w !! q).
Proof.
  intros Hev Hdw Hbd Hfw Hbf Hch Hpath Hwd Hreg.
  unfold nih_dir_watcher.
  assert (Hnz : negb (events =? 0) = true).
  { apply orb_true_iff in Hev as [H | H]; eapply has_bits_nonzero; eauto. }
  rewrite Hnz. unfold nih_assert. unfold bind at 1. cbn [ret].
  rewrite (bind_run _ _ _ _ _ (load_dir_run _ _ _ _ Hdw Hbd)).
  rewrite (bind_run _ _ _ _ _ (load_file_run _ _ _ _ Hfw Hbf)).
  rewrite Hev. apply String.eqb_neq in Hpath. rewrite Hpath.
  unfold get at 1. unfold bind at 1.
  rewrite (bind_run _ _ _ _ _ (scan_shared_run file_watch (wd fw) w _ false Hreg)).
  cbn [orb]. fold (shared_wd w file_watch (wd fw)).
  pose proof (shared_wd_true w file_watch (wd fw)) as Hshared.
  destruct (shared_wd w file_watch (wd fw)).
  - (* someone else has taken the descriptor up *)
    unfold nih_alloc_set_destructor. rewrite bind_assoc.
    rewrite (bind_run _ _ _ _ _ (load_run _ _ _ Hfw)).
    unfold modify at 1. unfold bind at 1.
    unfold nih_list_free, nih_list_remove. unfold modify at 1. unfold bind at 1.
    unfold nih_free. cbn [heap set_file_watches set_heap].
    set (a' := mkAlloc (a_block afw) (a_parent afw) (a_children afw) None).
    erewrite (nih_free_fuel_leaf_plain _ file_watch _ a');
      [| cbn; apply lookup_insert_eq | exact Hch | reflexivity].
    eexists. split; [reflexivity |]. cbn [trace file_watches heap set_heap].
    split; [done |]. split; [intros Hn; exfalso; apply Hn, Hshared; done |].
    split; [done |].
    fold (unlink file_watch a' (<[file_watch:=a']> (heap w))).
    split; [apply unlink_lookup_self |]. split.
    + intros q Hq Hp. rewrite unlink_lookup_other by done.
      cbn. by rewrite lookup_insert_ne.
    + intros q Hq Hp. rewrite unlink_lookup_parent by done.
      cbn. by rewrite lookup_insert_ne.
  - (* nobody else: release the watch, then free it *)
    rewrite (bind_run _ _ _ _ _ (nih_file_remove_watch_valid _ _ _ _ Hfw Hbf Hwd)).
    unfold nih_free.
    set (a' := set_block (BFile (set_wd (-1) fw)) afw).
    erewrite (nih_free_fuel_leaf_invalid _ file_watch _ a' (set_wd (-1) fw));
      [| cbn; apply lookup_insert_eq | exact Hch | reflexivity | cbn; lia].
    eexists. split; [reflexivity |]. cbn [trace file_watches heap set_heap released].
    split; [intros Hs; apply Hshared in Hs; discriminate |].
    split; [done |]. split; [done |].
    split; [apply unlink_lookup_self |]. split.
    + intros q Hq Hp. rewrite unlink_lookup_other by done.
      by rewrite lookup_insert_ne.
    + intros q Hq Hp. rewrite unlink_lookup_parent by done.
      by rewrite lookup_insert_ne.
Qed.

Lemma C2_subdir_teardown_witness :
  (exists w',
     nih_dir_watcher env_plain 1 3 IN_IGNORED 0 None world_shared = Some (tt, w') /\
     trace w' = [] /\ file_watches w' = [2%nat; 4%nat] /\ heap w' !! 3%nat = None) /\
  (exists w',
     nih_dir_watcher env_plain 1 3 IN_IGNORED 0 None world_tree = Some (tt, w') /\
     trace w' = [E_inotify_rm_watch 3 2] /\ file_watches w' = [2%nat] /\
     heap w' !! 3%nat = None).
Proof.
  split.
  - destruct (C2_subdir_teardown env_plain 1 3 IN_IGNORED 0 None world_shared
                _ dw_tree _ _ eq_refl eq_refl eq_refl eq_refl eq_refl eq_refl)
      as (w' & Hrun & Hfound & _ & Hreg & Hgone & _).
    + discriminate.
    + cbn. lia.
    + intros q Hq. cbn in Hq. list_cases Hq; eexists _, _; split; reflexivity.
    + exists w'. split; [exact Hrun |]. split; [| split; [exact Hreg | exact Hgone]].
      apply Hfound. exists 4%nat. split; [cbn; list_mem |]. split; [discriminate | reflexivity].
  - destruct (C2_subdir_teardown env_plain 1 3 IN_IGNORED 0 None world_tree
                _ dw_tree _ _ eq_refl eq_refl eq_refl eq_refl eq_refl eq_refl)
      as (w' & Hrun & _ & Hnone & Hreg & Hgone & _).
    + discriminate.
    + cbn. lia.
    + intros q Hq. cbn in Hq. list_cases Hq; eexists _, _; split; reflexivity.
    + exists w'. split; [exact Hrun |]. split; [| split; [exact Hreg | exact Hgone]].
      apply Hnone. intros (q & Hq & Hne & Hwd). cbn in Hq.
      list_cases Hq; [discriminate Hwd | by apply Hne].
Defined.

(** C4: releasing a low-level watch is idempotent and keeps its storage.
    On a handle whose descriptor is negative the release changes nothing.
    On a handle whose descriptor is valid it asks the kernel once to
    remove the watch, sets the descriptor to -1 and unlinks the handle
    from the registry, keeping the other entries in their order; the
    handle's block stays allocated, and a second release of the same
    handle changes nothing more. *)
Theorem C4_release_idempotent (watch : ptr) (w : World) (a : Alloc)
    (f : NihFileWatch) :
  heap w !! watch = Some a ->
  a_block a = BFile f ->
  (wd f < 0 -> nih_file_remove_watch watch w = Some (tt, w)) /\
  (0 <= wd f ->
   exists w1,
     nih_file_remove_watch watch w = Some (tt, w1) /\
     trace w1 = trace w ++ [E_inotify_rm_watch (inotify_fd w) (wd f)] /\
     file_watches w1
       = List.filter (fun q => negb (Nat.eqb q watch)) (file_watches w) /\
     (watch ∉ file_watches w1) /\
     heap w1 = <[watch := set_block (BFile (set_wd (-1) f)) a]> (heap w) /\
     dom (heap w1) = dom (heap w) /\
     nih_file_remove_watch watch w1 = Some (tt, w1)).
Proof.
  intros Hp Hb. split; intros Hwd.
  - by apply (nih_file_remove_watch_invalid watch w a f).
  - exists (released watch a f w).
    split; [by apply nih_file_remove_watch_valid |].
    repeat split.
    + cbn. intros [_ Hne]%elem_of_filter_neq. by apply Hne.
    + cbn. apply dom_insert_lookup_L. by rewrite Hp.
    + eapply nih_file_remove_watch_invalid.
      * cbn. apply lookup_insert_eq.
      * reflexivity.
      * cbn. lia.
Qed.

Lemma C4_release_idempotent_witness :
  exists w1, nih_file_remove_watch 1 world_single = Some (tt, w1) /\
             (1%nat ∉ file_watches w1) /\
             dom (heap w1) = dom (heap world_single) /\
             nih_file_remove_watch 1 w1 = Some (tt, w1).
Proof.
  destruct (C4_release_idempotent 1 world_single _ fw_single eq_refl eq_refl)
    as [_ H].
  destruct H as (w1 & H1 & _ & _ & H2 & _ & H3 & H4); [vm_compute; discriminate |].
  exists w1. repeat split; assumption.
Defined.

(** ** nih_dir_walk with the visitor nih_dir_add_file_watch *)

Lemma readdir_loop_total (I : World -> Prop) walk path types filter visitor ents :
  (forall sp w, I w -> exists w', visitor sp w = Some (0, w') /\ I w') ->
  Forall (fun e => forall sp w,
            dirs_open (snd e) = true -> I w ->
            exists w', walk sp (snd e) w = Some (0, w') /\ I w') ents ->
  forallb (fun e =>
             let '(d_name, child) := e in
             is_dot d_name ||
             match node_stat child with
             | Some st_mode => if S_ISDIR st_mode then dirs_open child else true
             | None => true
             end) ents = true ->
  forall w, I w ->
    exists w', readdir_loop walk path types filter visitor ents 0 w = Some (0, w')
               /\ I w'.
Proof.
  intros Hv. induction 1 as [| [d_name child] ents Hc Hents IH]; intros Hopen w HI.
  - exists w. by split.
  - cbn [forallb] in Hopen. apply andb_true_iff in Hopen as [Hhere Hrest].
    cbn [readdir_loop]. destruct (is_dot d_name); [by apply IH |].
    cbv zeta. destruct (filtered filter _); [by apply IH |].
    cbn [orb] in Hhere.
    destruct (node_stat child) as [st_mode |]; [| by apply IH].
    assert (Hvis : exists w1,
      (if has_bits st_mode types then visitor (subpath_of path d_name) else ret 0) w
      = Some (0, w1) /\ I w1).
    { destruct (has_bits st_mode types); [by apply Hv | by exists w]. }
    destruct Hvis as (w1 & Hrun1 & HI1). rewrite (bind_run _ _ _ _ _ Hrun1).
    cbn [Z.ltb Z.compare]. rewrite andb_false_r.
    assert (Hsub : exists w2,
      (if S_ISDIR st_mode then walk (subpath_of path d_name) child else ret 0) w1
      = Some (0, w2) /\ I w2).
    { destruct (S_ISDIR st_mode); [by apply Hc | by exists w1]. }
    destruct Hsub as (w2 & Hrun2 & HI2). rewrite (bind_run _ _ _ _ _ Hrun2).
    cbn [Z.ltb Z.compare]. rewrite andb_false_r. by apply IH.
Qed.

Lemma nih_dir_walk_total (I : World -> Prop) types filter visitor :
  (forall sp w, I w -> exists w', visitor sp w = Some (0, w') /\ I w') ->
  forall node path w,
    dirs_open node = true -> I w ->
    exists w', nih_dir_walk path node types filter visitor w = Some (0, w') /\ I w'.
Proof.
  intros Hv node. induction node as [st | st ents IH] using Node_nested_ind;
    intros path w Hopen HI; [discriminate |].
  cbn [nih_dir_walk]. cbn [dirs_open] in Hopen.
  apply (readdir_loop_total I _ path types filter visitor ents Hv);
    [| exact Hopen | exact HI].
  eapply Forall_impl; [exact IH |]. intros [d_name child] Hc sp w0. apply Hc.
Qed.

Lemma readdir_loop_returns (I : World -> Prop) walk path types filter visitor ents :
  (forall sp w, I w -> exists w', visitor sp w = Some (0, w') /\ I w') ->
  Forall (fun e => forall sp w,
            I w -> exists r w', walk sp (snd e) w = Some (r, w') /\ I w') ents ->
  forall ret0 w, I w ->
    exists r w', readdir_loop walk path types filter visitor ents ret0 w
                 = Some (r, w') /\ I w'.
Proof.
  intros Hv. induction 1 as [| [d_name child] ents Hc Hents IH]; intros ret0 w HI.
  - exists ret0, w. by split.
  - cbn [readdir_loop]. destruct (is_dot d_name); [by apply IH |].
    cbv zeta. destruct (filtered filter _); [by apply IH |].
    destruct (node_stat child) as [st_mode |]; [| by apply IH].
    assert (Hvis : exists r1 w1,
      (if has_bits st_mode types then visitor (subpath_of path d_name)
       else ret ret0) w = Some (r1, w1) /\ I w1).
    { destruct (has_bits st_mode types); [| by exists ret0, w].
      destruct (Hv (subpath_of path d_name) w HI) as (w1 & ? & ?). by exists 0, w1. }
    destruct Hvis as (r1 & w1 & Hrun1 & HI1). rewrite (bind_run _ _ _ _ _ Hrun1).
    destruct (_ && _); [by exists r1, w1 |].
    assert (Hsub : exists r2 w2,
      (if S_ISDIR st_mode then walk (subpath_of path d_name) child else ret r1) w1
      = Some (r2, w2) /\ I w2).
    { destruct (S_ISDIR st_mode); [by apply Hc | by exists r1, w1]. }
    destruct Hsub as (r2 & w2 & Hrun2 & HI2). rewrite (bind_run _ _ _ _ _ Hrun2).
    destruct (_ && _); [by exists r2, w2 | by apply IH].
Qed.

(** Whatever the file system shows, a walk whose visitor always returns
    does return. *)
Lemma nih_dir_walk_returns (I : World -> Prop) types filter visitor :
  (forall sp w, I w -> exists w', visitor sp w = Some (0, w') /\ I w') ->
  (forall w, I w -> I (log_event E_error_raise_system w)) ->
  forall node path w,
    I w ->
    exists r w', nih_dir_walk path node types filter visitor w = Some (r, w')
                 /\ I w'.
Proof.
  intros Hv Hlog node. induction node as [st | st ents IH] using Node_nested_ind;
    intros path w HI.
  - cbn. eexists _, _. split; [reflexivity |]. by apply Hlog.
  - cbn [nih_dir_walk].
    apply (readdir_loop_returns I _ path types filter visitor ents Hv); [| exact HI].
    eapply Forall_impl; [exact IH |]. intros [d_name child] Hc sp w0. apply Hc.
Qed.

(** ** nih_dir_add_watch *)

Lemma nih_new_run E parent b w :
  sys_malloc_ok E (trace w) = true ->
  nih_new E parent b w
  = Some (Some (fresh (dom (heap w))),
          set_heap (fun h =>
            let h' := <[fresh (dom (heap w)) := mkAlloc b parent [] None]> h in
            match parent with
            | Some q => alter (add_child (fresh (dom (heap w)))) q h'
            | None => h'
            end) w).
Proof. intros Hmem. unfold nih_new. mstep. by rewrite Hmem. Qed.

Lemma nih_new_allocates E parent b w :
  sys_malloc_ok E (trace w) = true ->
  exists w', nih_new E parent b w = Some (Some (fresh (dom (heap w))), w') /\
             is_Some (heap w' !! fresh (dom (heap w))) /\
             trace w' = trace w /\ inotify_fd w' = inotify_fd w.
Proof.
  intros Hmem. rewrite (nih_new_run E parent b w Hmem).
  eexists. split; [reflexivity |]. cbn. split; [| done].
  destruct parent as [q |].
  - rewrite lookup_alter. destruct (decide (q = fresh (dom (heap w)))) as [-> |].
    + rewrite lookup_insert_eq. by eexists.
    + rewrite lookup_insert_eq. by eexists.
  - rewrite lookup_insert_eq. by eexists.
Qed.

(** C8: a sub-directory whose watch cannot be installed costs a warning
    and nothing else.  The visitor [nih_dir_add_file_watch] returns zero
    whatever happens to the watch.  When the kernel refuses the watch,
    the visitor logs the refusal, the raised error and a warning for the
    path, and leaves the registry and every other block as they were.
    A walk with this visitor over a tree whose directories all open
    therefore runs to its end and returns zero, and the construction of
    a tree watch whose root can be watched succeeds, however many
    sub-directory watches are refused.  Likewise the translation of a
    'created' or 'moved-in' event always returns, whatever the kernel
    answers for the new directory and whatever lies under it. *)
Theorem C8_subdir_watch_failure_is_soft (E : Env) :
  (forall watch path w r w',
     nih_dir_add_file_watch E watch path w = Some (r, w') -> r = 0) /\
  (forall watch path w,
     is_Some (heap w !! watch) ->
     exists w', nih_dir_add_file_watch E watch path w = Some (0, w')) /\
  (forall watch path w,
     is_Some (heap w !! watch) ->
     0 <= inotify_fd (init_world E w) ->
     sys_malloc_ok E (trace (init_world E w)) = true ->
     add_watch_answer E w path DIR_EVENTS < 0 ->
     exists w',
       nih_dir_add_file_watch E watch path w = Some (0, w') /\
       trace w' = trace (init_world E w)
                  ++ [E_inotify_add_watch (inotify_fd (init_world E w)) path
                        DIR_EVENTS (add_watch_answer E w path DIR_EVENTS);
                      E_error_raise_system; E_warn path] /\
       file_watches w' = file_watches w /\
       (forall p, p ≠ watch -> heap w' !! p = heap w !! p) /\
       a_block <$> heap w' !! watch = a_block <$> heap w !! watch) /\
  (forall watch path node filter w,
     is_Some (heap w !! watch) ->
     dirs_open node = true ->
     exists w',
       nih_dir_walk path node S_IFDIR filter (nih_dir_add_file_watch E watch) w
       = Some (0, w')) /\
  (forall parent path subdirs filter ch mh dh data w,
     (forall tr, sys_malloc_ok E tr = true) ->
     (forall tr, 0 <= sys_inotify_init E tr) ->
     -1 <= inotify_fd w ->
     (forall tr, exists st_mode, node_stat (sys_fs E tr path) = Some st_mode /\
                                 S_ISDIR st_mode = true) ->
     (forall tr, dirs_open (sys_fs E tr path) = true) ->
     (forall tr fd, 0 <= sys_inotify_add_watch E tr fd path DIR_EVENTS) ->
     exists dw w',
       nih_dir_add_watch E parent path subdirs filter ch mh dh data w
       = Some (Some dw, w')) /\
  (forall dir_watch file_watch events cookie name w adw d afw fw,
     heap w !! dir_watch = Some adw -> a_block adw = BDir d ->
     heap w !! file_watch = Some afw -> a_block afw = BFile fw ->
     has_bits events IN_IGNORED || has_bits events IN_MOVE_SELF = false ->
     has_bits events IN_CREATE || has_bits events IN_MOVED_TO = true ->
     exists w',
       nih_dir_watcher E dir_watch file_watch events cookie (Some name) w
       = Some (tt, w')).
Proof.
  split; [| split; [| split; [| split; [| split]]]].
  - intros watch path w r w'. unfold nih_dir_add_file_watch.
    intros ([p |] & w1 & _ & Hrest)%bind_Some.
    + by injection Hrest as <- _.
    + by injection Hrest as <- _.
  - intros watch path w Hw.
    destruct (nih_dir_add_file_watch_total E watch path w Hw) as (w' & Hrun & _).
    by exists w'.
  - intros watch path w Hw Hfd Hmem Hneg. unfold nih_dir_add_file_watch.
    destruct (nih_file_add_watch_refused E watch path DIR_EVENTS W_nih_dir_watcher
                watch w DIR_EVENTS_nonzero Hw Hfd Hmem Hneg)
      as (w' & Hrun & Htr & Hreg & _ & _ & Hoth & Hq).
    rewrite (bind_run _ _ _ _ _ Hrun). eexists. split; [reflexivity |].
    cbn. rewrite Htr, <- app_assoc. split; [done |]. split; [done |].
    split; [done |]. rewrite Hq. by destruct (heap w !! watch).
  - intros watch path node filter w Hw Hopen.
    destruct (nih_dir_walk_total (fun w0 => is_Some (heap w0 !! watch)) S_IFDIR
                filter (nih_dir_add_file_watch E watch)) with (3 := Hw)
                (node := node) (path := path) as (w' & Hrun & _).
    + intros sp w0. apply nih_dir_add_file_watch_total.
    + exact Hopen.
    + by exists w'.
  - intros parent path subdirs filter ch mh dh data w Hmem Hinit Hfd Hstat Hopen
           Hroot.
    unfold nih_dir_add_watch. rewrite run_get.
    destruct (Hstat (trace w)) as (st_mode & -> & ->). cbn [negb].
    destruct (nih_new_allocates E parent
                (BDir (mkDirWatch path subdirs filter ch mh dh data)) w (Hmem _))
      as (w1 & Hnew & Hdw & Htr1 & Hfd1).
    rewrite (bind_run _ _ _ _ _ Hnew).
    set (dw := fresh (dom (heap w))) in *.
    assert (Hfd0 : 0 <= inotify_fd (init_world E w1)).
    { unfold init_world. destruct (Z.eqb_spec (inotify_fd w1) (-1)); cbn.
      - apply Hinit.
      - lia. }
    destruct (nih_file_add_watch_granted E dw path DIR_EVENTS W_nih_dir_watcher
                dw w1 DIR_EVENTS_nonzero Hdw Hfd0 (Hmem _))
      as (w2 & Hadd & _ & _ & _ & _ & _ & _ & Hq).
    { apply Hroot. }
    rewrite (bind_run _ _ _ _ _ Hadd).
    assert (Hdw2 : is_Some (heap w2 !! dw)).
    { rewrite Hq. destruct Hdw as [a ->]. by eexists. }
    destruct (negb (subdirs =? 0)); [| by eexists _, _].
    rewrite run_get.
    destruct (nih_dir_walk_total (fun w0 => is_Some (heap w0 !! dw)) S_IFDIR
                filter (nih_dir_add_file_watch E dw)) with (3 := Hdw2)
                (node := sys_fs E (trace w2) path) (path := path)
      as (w3 & Hwalk & _).
    + intros sp w0. apply nih_dir_add_file_watch_total.
    + apply Hopen.
    + rewrite (bind_run _ _ _ _ _ Hwalk). cbn. by eexists _, _.
  - intros dir_watch file_watch events cookie name w adw d afw fw
           Hdw Hbd Hfw Hbf Hgone Hcreate.
    unfold nih_dir_watcher.
    assert (Hnz : negb (events =? 0) = true).
    { apply orb_true_iff in Hcreate as [H | H]; eapply has_bits_nonzero; eauto. }
    rewrite Hnz. unfold nih_assert. rewrite run_ret.
    rewrite (run_load_dir _ _ _ _ _ Hdw Hbd), (run_load_file _ _ _ _ _ Hfw Hbf).
    rewrite Hgone. cbv zeta.
    destruct (filtered (filter d) _); [by eexists |].
    rewrite Hcreate.
    set (I := fun w0 : World => is_Some (heap w0 !! dir_watch)).
    assert (Hcall : exists w1,
      call_handler (create_handler d)
        (fun h => E_create_handler h (d_data d) dir_watch
                                   (subpath_of (path fw) name)) w
      = Some (tt, w1) /\ I w1).
    { unfold call_handler. destruct (create_handler d);
        eexists; (split; [reflexivity |]); unfold I; cbn; by rewrite Hdw. }
    destruct Hcall as (w1 & Hrun1 & HI1).
    rewrite (bind_run _ _ _ _ _ Hrun1), run_get.
    destruct (if negb (subdirs d =? 0) then _ else _) as [st_mode |];
      [| by eexists].
    destruct (S_ISDIR st_mode); [| by eexists].
    destruct (nih_dir_add_file_watch_total E dir_watch
                (subpath_of (path fw) name) w1 HI1) as (w2 & Hrun2 & HI2).
    rewrite (bind_run _ _ _ _ _ Hrun2).
    destruct (nih_dir_walk_returns I S_IFDIR (filter d)
                (nih_dir_add_file_watch E dir_watch))
      with (node := sys_fs E (trace w1) (subpath_of (path fw) name))
           (path := subpath_of (path fw) name) (w := w2)
      as (r & w3 & Hrun3 & _).
    + intros sp w0. apply nih_dir_add_file_watch_total.
    + intros w0 HI0. exact HI0.
    + exact HI2.
    + rewrite (bind_run _ _ _ _ _ Hrun3). by eexists.
Qed.

Lemma C8_subdir_watch_failure_is_soft_witness :
  exists dw w',
    nih_dir_add_watch (env_tree false) None "/r" 1 None None None None 0 world_empty
    = Some (Some dw, w') /\
    E_warn "/r/d" ∈ trace w' /\ E_warn "/r/d/e" ∈ trace w'.
Proof.
  destruct (C8_subdir_watch_failure_is_soft (env_tree false))
    as (_ & _ & _ & _ & Hbuild & _).
  destruct (Hbuild None "/r"%string 1 None None None None 0%nat world_empty)
    as (dw & w' & Hrun).
  - done.
  - intros tr. cbn. lia.
  - cbn. lia.
  - intros tr. by exists dir_mode.
  - done.
  - intros tr fd. cbn. lia.
  - exists dw, w'. split; [exact Hrun |].
    vm_compute in Hrun. injection Hrun as _ <-. cbn. split; list_mem.
Defined.

(** ** The mask of a tree watch *)

Lemma extends_refl w : extends (trace w) w.
Proof. exists []. by rewrite app_nil_r. Qed.

Lemma extends_log tr e w : extends tr w -> extends tr (log_event e w).
Proof. intros [more H]. exists (more ++ [e]). cbn. by rewrite H, app_assoc. Qed.

Lemma nih_dir_walk_extends E watch types filter node path w r w' :
  nih_dir_walk path node types filter (nih_dir_add_file_watch E watch) w
  = Some (r, w') ->
  extends (trace w) w'.
Proof.
  intros Hrun.
  eapply (keeps_nih_dir_walk (extends (trace w)) (fun _ => True));
    [| | | exact Hrun | apply extends_refl]; try done.
  - intros e w0 _. apply extends_log.
  - intros sp.
    apply (keeps_nih_dir_add_file_watch (extends (trace w)) (fun _ => True));
      try done.
    intros e w0 _. apply extends_log.
Qed.

Lemma nih_alloc_set_destructor_frame p d w u w' :
  nih_alloc_set_destructor p d w = Some (u, w') ->
  trace w' = trace w /\ inotify_fd w' = inotify_fd w.
Proof.
  unfold nih_alloc_set_destructor, load, modify, bind.
  destruct (heap w !! p); [| done]. by intros [= _ <-].
Qed.

Lemma store_wd_frame p z w u w' :
  store_wd p z w = Some (u, w') ->
  trace w' = trace w /\ inotify_fd w' = inotify_fd w.
Proof.
  unfold store_wd, load_file, load, modify, bind.
  destruct (heap w !! p) as [a |]; [| done].
  destruct (a_block a); [| done]. by intros [= _ <-].
Qed.

(** A watch that [nih_file_add_watch] returns was granted by the kernel:
    the log has grown by the initialisation, if it was due, and by the
    one request for [path] and [events]. *)
Lemma nih_file_add_watch_Some E parent path events watcher data w p w' :
  nih_file_add_watch E parent path events watcher data w = Some (Some p, w') ->
  exists wd0,
    0 <= wd0 /\
    trace w' = trace (init_world E w)
               ++ [E_inotify_add_watch (inotify_fd (init_world E w)) path events wd0].
Proof.
  unfold nih_file_add_watch, nih_assert.
  destruct (negb (events =? 0)); [| discriminate].
  rewrite run_ret, (bind_run _ _ _ _ _ (nih_file_init_run E w)), run_get.
  generalize (init_world E w). intros w0.
  destruct (inotify_fd w0 <? 0); [discriminate |].
  unfold nih_new. mstep.
  destruct (sys_malloc_ok E (trace w0)); mstep; [| discriminate].
  intros (u & w1 & Hsd & Hrun)%bind_Some.
  apply nih_alloc_set_destructor_frame in Hsd as [Htr1 Hfd1]. cbn in Htr1, Hfd1.
  rewrite run_get, run_log in Hrun. rewrite Htr1, Hfd1 in Hrun.
  apply bind_Some in Hrun as (u' & w2 & Hst & Hrun).
  apply store_wd_frame in Hst as [Htr2 Hfd2]. cbn in Htr2, Hfd2.
  remember (sys_inotify_add_watch E (trace w0) (inotify_fd w0) path events) as r.
  destruct (Z.ltb_spec r 0) as [| Hr].
  - apply bind_Some in Hrun as (? & ? & _ & Hrun).
    apply bind_Some in Hrun as (? & ? & _ & Hrun). discriminate.
  - unfold nih_list_add in Hrun. revert Hrun. mstep. intros [= _ <-].
    exists r. split; [done |]. cbn. by rewrite Htr2, Htr1.
Qed.

Lemma init_world_ext E w w1 :
  trace w1 = trace w -> inotify_fd w1 = inotify_fd w ->
  trace (init_world E w1) = trace (init_world E w) /\
  inotify_fd (init_world E w1) = inotify_fd (init_world E w).
Proof.
  intros Htr Hfd. unfold init_world. rewrite Hfd.
  destruct (inotify_fd w =? -1); cbn; by rewrite ?Htr.
Qed.

Lemma DIR_EVENTS_bits :
  (forall k, k ∈ requested_kinds -> has_bits DIR_EVENTS k = true) /\
  has_bits DIR_EVENTS IN_IGNORED = false /\
  has_bits DIR_EVENTS IN_DELETE_SELF = false.
Proof.
  split; [| by split]. intros k Hk. unfold requested_kinds in Hk.
  list_cases Hk; reflexivity.
Qed.

(** C7, as the code has it: a tree watch that is constructed has asked
    the kernel for a watch on its root with the mask [DIR_EVENTS], as the
    first watch it asked for.  The mask requests six event kinds:
    created, deleted, modified, moved-in, moved-out and moved-self.  The
    'invalidated' kind ([IN_IGNORED]) is not in the mask. *)
Theorem C7_root_watch_requests_six_kinds (E : Env) (parent : option ptr)
    (path : string) (subdirs : Z) (filter : option (string -> bool))
    (ch mh dh : option nat) (data : ptr) (w : World) (dw : ptr) (w' : World) :
  nih_dir_add_watch E parent path subdirs filter ch mh dh data w
  = Some (Some dw, w') ->
  exists wd0 more,
    0 <= wd0 /\
    trace w'
    = trace (init_world E w)
      ++ E_inotify_add_watch (inotify_fd (init_world E w)) path DIR_EVENTS wd0
      :: more /\
    (forall k, k ∈ requested_kinds -> has_bits DIR_EVENTS k = true) /\
    has_bits DIR_EVENTS IN_IGNORED = false.
Proof.
  unfold nih_dir_add_watch. rewrite run_get.
  destruct (node_stat (sys_fs E (trace w) path)) as [st_mode |]; [| discriminate].
  destruct (negb (S_ISDIR st_mode)); [discriminate |].
  unfold nih_new at 1. mstep.
  destruct (sys_malloc_ok E (trace w)); mstep; [| discriminate].
  intros (r & w2 & Hadd & Hrun)%bind_Some.
  destruct r as [root |].
  2:{ apply bind_Some in Hrun as (? & ? & _ & Hrun). discriminate. }
  apply nih_file_add_watch_Some in Hadd as (wd0 & Hwd & Htr).
  match type of Htr with
  | context [init_world E ?w1] =>
    destruct (init_world_ext E w w1 eq_refl eq_refl) as [Hi1 Hi2]
  end.
  rewrite Hi1, Hi2 in Htr.
  destruct DIR_EVENTS_bits as (Hsix & Hign & _).
  destruct (negb (subdirs =? 0)).
  - rewrite run_get in Hrun. apply bind_Some in Hrun as (r & w3 & Hwalk & Hrun).
    apply nih_dir_walk_extends in Hwalk as [more Hmore].
    destruct (r <? 0).
    { apply bind_Some in Hrun as (? & ? & _ & Hrun). discriminate. }
    injection Hrun as _ <-. exists wd0, more. split; [done |].
    split; [| by split]. by rewrite Hmore, Htr, <- app_assoc.
  - injection Hrun as _ <-. exists wd0, []. split; [done |].
    split; [| by split]. exact Htr.
Qed.

Lemma C7_root_watch_requests_six_kinds_witness :
  exists dw w' wd0 more,
    nih_dir_add_watch (env_tree true) None "/r" 1 None None None None 0 world_empty
    = Some (Some dw, w') /\
    trace w' = [E_inotify_init 3]
               ++ E_inotify_add_watch 3 "/r" DIR_EVENTS wd0 :: more.
Proof.
  destruct (nih_dir_add_watch (env_tree true) None "/r" 1 None None None None 0
              world_empty) as [[[dw |] w'] |] eqn:Hrun;
    [| vm_compute in Hrun; discriminate ..].
  destruct (C7_root_watch_requests_six_kinds _ _ _ _ _ _ _ _ _ _ _ _ Hrun)
    as (wd0 & more & _ & Htr & _).
  exists dw, w', wd0, more. split; [reflexivity | exact Htr].
Defined.

(** The mask of the root watch of a tree watch on "/r" does not request
    all seven kinds: 'invalidated' is missing. *)
Lemma C7_mask_lacks_invalidated :
  exists dw root a f w',
    nih_dir_add_watch (env_tree true) None "/r" 0 None None None None 0 world_empty
    = Some (Some dw, w') /\
    file_watches w' = [root] /\
    heap w' !! root = Some a /\ a_block a = BFile f /\ path f = "/r"%string /\
    ~ (forall k, k ∈ requested_kinds ++ [IN_IGNORED] ->
                 has_bits (events f) k = true).
Proof.
  eexists _, _, _, _, _. split; [vm_compute; reflexivity |].
  split; [reflexivity |]. split; [vm_compute; reflexivity |].
  split; [reflexivity |]. split; [reflexivity |].
  intros Hall. specialize (Hall IN_IGNORED).
  assert (Hin : IN_IGNORED ∈ requested_kinds ++ [IN_IGNORED]).
  { apply elem_of_app. right. list_mem. }
  apply Hall in Hin. vm_compute in Hin. discriminate.
Qed.

(** ** The filter *)

(** C6, as the code has it.  A handler of a tree watch is never called
    with a path that the filter excludes: whatever event
    [nih_dir_watcher] translates, the handler calls it logs carry NULL
    or a path the filter lets through, and an event (other than the
    directory's own going away) named for an excluded path changes
    nothing at all, so no watch is installed for it either.  In a walk,
    an entry whose path the filter excludes is passed over whole: the
    loop goes on with the next entry whatever the excluded entry is, so
    it is neither visited nor entered, and nothing below it is reached
    through it. *)
Theorem C6_filtered_paths_are_skipped (E : Env) :
  (forall dir_watch file_watch events cookie name w adw d w',
     heap w !! dir_watch = Some adw -> a_block adw = BDir d ->
     nih_dir_watcher E dir_watch file_watch events cookie name w = Some (tt, w') ->
     exists more,
       trace w' = trace w ++ more /\
       forall e p, e ∈ more -> handler_path e = Some p ->
                   filtered (filter d) p = false) /\
  (forall dir_watch file_watch events cookie name w adw d afw fw,
     heap w !! dir_watch = Some adw -> a_block adw = BDir d ->
     heap w !! file_watch = Some afw -> a_block afw = BFile fw ->
     events ≠ 0 ->
     has_bits events IN_IGNORED || has_bits events IN_MOVE_SELF = false ->
     filtered (filter d) (subpath_of (path fw) name) = true ->
     nih_dir_watcher E dir_watch file_watch events cookie (Some name) w
     = Some (tt, w)) /\
  (forall walk path types filter visitor d_name child rest ret0,
     filtered filter (subpath_of path d_name) = true ->
     readdir_loop walk path types filter visitor ((d_name, child) :: rest) ret0
     = readdir_loop walk path types filter visitor rest ret0).
Proof.
  split; [| split].
  - intros dir_watch file_watch events cookie name w adw d w' Hdw Hbd Hrun.
    set (ok := fun e : Event =>
                 forall p, handler_path e = Some p -> filtered (filter d) p = false).
    set (P := fun w0 : World =>
                exists more, trace w0 = trace w ++ more /\ Forall ok more).
    assert (HP : P w'); [| destruct HP as (more & Htr & Hok)].
    { eapply (keeps_nih_dir_watcher P ok); [| | | | | exact Hrun | |].
      - intros f w0 Hw0. exact Hw0.
      - intros f w0 Hw0. exact Hw0.
      - intros z w0 Hw0. exact Hw0.
      - intros e w0 He (more & Htr & Hok). exists (more ++ [e]). cbn.
        rewrite Htr, app_assoc. split; [done |].
        apply Forall_app. split; [done |]. by constructor.
      - intros e He p Hp. by destruct e.
      - intros a d' Ha Hb. rewrite Hdw in Ha. injection Ha as <-.
        rewrite Hbd in Hb. injection Hb as <-.
        repeat split; intros; intros q Hq; cbn in Hq; congruence.
      - exists []. rewrite app_nil_r. by split. }
    exists more. split; [exact Htr |]. intros e p He.
    rewrite Forall_forall in Hok. by apply Hok.
  - intros dir_watch file_watch events cookie name w adw d afw fw
           Hdw Hbd Hfw Hbf Hnz Hgone Hfilt.
    unfold nih_dir_watcher. apply Z.eqb_neq in Hnz. rewrite Hnz.
    unfold nih_assert. cbn [negb]. rewrite run_ret.
    rewrite (run_load_dir _ _ _ _ _ Hdw Hbd), (run_load_file _ _ _ _ _ Hfw Hbf).
    rewrite Hgone. cbv zeta. by rewrite Hfilt.
  - intros walk path types filter visitor d_name child rest ret0 Hfilt.
    cbn [readdir_loop]. destruct (is_dot d_name); [done |].
    cbv zeta. by rewrite Hfilt.
Qed.

Lemma C6_filtered_paths_are_skipped_witness :
  nih_dir_watcher (env_tree true) 1 2 IN_CREATE 0 (Some "d"%string) world_filtered
  = Some (tt, world_filtered) /\
  readdir_loop
    (fun subpath child =>
       nih_dir_walk subpath child S_IFDIR (Some filter_d)
                    (nih_dir_add_file_watch (env_tree true) 1))
    "/r" S_IFDIR (Some filter_d) (nih_dir_add_file_watch (env_tree true) 1)
    [("d"%string, node_d); ("f"%string, MkNode (Some file_mode) None)] 0
    world_filtered
  = Some (0, world_filtered).
Proof.
  destruct (C6_filtered_paths_are_skipped (env_tree true)) as (_ & Hevent & Hwalk).
  split.
  - eapply Hevent; try reflexivity. discriminate.
  - rewrite Hwalk by reflexivity. reflexivity.
Defined.

(** On the tree "/r" with "/r/d" excluded, construction does not reach
    the directory "/r/d/e", which the filter lets through: the walk does
    not go into an excluded directory. *)
Lemma C6_walk_does_not_descend :
  filter_d "/r/d" = true /\
  filter_d "/r/d/e" = false /\
  node_stat (fs_tree "/r/d/e") = Some dir_mode /\
  (exists dw w',
     nih_dir_add_watch (env_tree true) None "/r" 1 (Some filter_d)
                       None None None 0 world_empty = Some (Some dw, w') /\
     trace w' = [E_inotify_init 3; E_inotify_add_watch 3 "/r" DIR_EVENTS 1]) /\
  ~ descends_into_filtered (env_tree true) filter_d "/r" "/r/d/e".
Proof.
  split; [reflexivity |]. split; [reflexivity |]. split; [reflexivity |].
  split; [eexists _, _; split; [vm_compute; reflexivity | reflexivity] |].
  intros Hclaim. unfold descends_into_filtered in Hclaim.
  destruct (nih_dir_add_watch (env_tree true) None "/r" 1 (Some filter_d)
              None None None 0 world_empty) as [[[dw |] w'] |] eqn:Hrun;
    [| vm_compute in Hrun; discriminate ..].
  destruct (Hclaim dw w' eq_refl eq_refl) as (fd & wd0 & Hin).
  vm_compute in Hrun. injection Hrun as _ <-. cbn in Hin.
  repeat (apply elem_of_cons in Hin as [Heq | Hin]; [discriminate Heq |]).
  by apply elem_of_nil in Hin.
Qed.

(** ** nih_file_reader: dispatch *)

Lemma dispatch_skip E event w pre :
  forall rest,
    (forall q, q ∈ pre ->
               exists a f, heap w !! q = Some a /\ a_block a = BFile f /\
                           wd f ≠ ev_wd event) ->
    dispatch E (pre ++ rest) event w = dispatch E rest event w.
Proof.
  induction pre as [| q pre IH]; intros rest Hpre; [done |].
  cbn [app dispatch].
  destruct (Hpre q) as (a & f & Hq & Hb & Hwd); [list_mem |].
  rewrite (bind_run _ _ _ _ _ (load_file_run _ _ _ _ Hq Hb)).
  apply Z.eqb_neq in Hwd. rewrite Hwd. cbn [negb].
  apply IH. intros q' Hq'. apply Hpre. by list_mem.
Qed.

(** C1: for one decoded event, the registry is walked from its head.  If
    no registered handle holds the event's descriptor, nothing happens:
    the world is unchanged.  Otherwise the first handle in the list that
    holds it has its watcher called, with the handle's data, the handle
    and the event's mask, cookie and name, and that is all the dispatch
    does: whatever comes after that handle in the list, matching or not,
    is not looked at.  For a watcher of the caller the log grows by that
    one call. *)
Theorem C1_dispatch_first_match (E : Env) (event : inotify_event) (w : World) :
  registry_allocated w ->
  ((forall q, q ∈ file_watches w -> wd_at w q ≠ ev_wd event) ->
   dispatch E (file_watches w) event w = Some (tt, w)) /\
  (forall pre watch post a f,
     file_watches w = pre ++ watch :: post ->
     (forall q, q ∈ pre -> wd_at w q ≠ ev_wd event) ->
     heap w !! watch = Some a -> a_block a = BFile f -> wd f = ev_wd event ->
     dispatch E (file_watches w) event w = call_watcher E watch f event w /\
     (forall g, watcher f = W_user g ->
        dispatch E (file_watches w) event w
        = Some (tt, log_event (E_watcher g (data f) watch (ev_mask event)
                                         (ev_cookie event) (event_name event)) w)) /\
     (watcher f = W_nih_dir_watcher ->
        dispatch E (file_watches w) event w
        = nih_dir_watcher E (data f) watch (ev_mask event) (ev_cookie event)
                          (event_name event) w)).
Proof.
  intros Hreg. split.
  - intros Hnone. rewrite <- (app_nil_r (file_watches w)).
    rewrite dispatch_skip; [done |]. intros q Hq.
    destruct (Hreg q Hq) as (a & f & Ha & Hb). exists a, f.
    split; [done |]. split; [done |].
    rewrite <- (wd_at_file w q a f Ha Hb). by apply Hnone.
  - intros pre watch post a f Hsplit Hpre Ha Hb Hwd.
    assert (Hrun : dispatch E (file_watches w) event w
                   = call_watcher E watch f event w).
    { rewrite Hsplit, dispatch_skip.
      - cbn [dispatch].
        rewrite (bind_run _ _ _ _ _ (load_file_run _ _ _ _ Ha Hb)).
        rewrite Hwd, Z.eqb_refl. done.
      - intros q Hq. destruct (Hreg q) as (a' & f' & Ha' & Hb').
        { rewrite Hsplit, elem_of_app. by left. }
        exists a', f'. split; [done |]. split; [done |].
        rewrite <- (wd_at_file w q a' f' Ha' Hb'). by apply Hpre. }
    split; [exact Hrun |]. rewrite Hrun. unfold call_watcher.
    split; [intros g -> | intros ->]; reflexivity.
Qed.

Lemma C1_dispatch_first_match_witness :
  dispatch env_plain (file_watches world_two_users) (event_modify 5) world_two_users
  = Some (tt, log_event (E_watcher 7 0 1 IN_MODIFY 0 None) world_two_users) /\
  dispatch env_plain (file_watches world_two_users) (event_modify 6) world_two_users
  = Some (tt, world_two_users).
Proof.
  assert (Hreg : registry_allocated world_two_users).
  { intros q Hq. cbn in Hq. list_cases Hq; eexists _, _; split; reflexivity. }
  destruct (C1_dispatch_first_match env_plain (event_modify 5) world_two_users Hreg)
    as [_ Hfirst].
  destruct (C1_dispatch_first_match env_plain (event_modify 6) world_two_users Hreg)
    as [Hnone _].
  split.
  - destruct (Hfirst [] 1%nat [2%nat]
                (mkAlloc (BFile fw_first) None [] (Some D_nih_file_remove_watch))
                fw_first eq_refl)
      as (_ & Huser & _); [| reflexivity | reflexivity | reflexivity |].
    + intros q Hq. by apply elem_of_nil in Hq.
    + exact (Huser 7%nat eq_refl).
  - apply Hnone. intros q Hq. cbn in Hq. list_cases Hq; discriminate.
Defined.

(** ** nih_file_reader: the loop *)

Lemma byte_val_range b : 0 <= byte_val b < 256.
Proof.
  unfold byte_val. pose proof (Byte.to_N_bounded b) as H.
  revert H. generalize (Byte.to_N b). intros n H. lia.
Qed.

Lemma uint32_le_range b0 b1 b2 b3 : 0 <= uint32_le b0 b1 b2 b3 < 2 ^ 32.
Proof.
  unfold uint32_le.
  pose proof (byte_val_range b0). pose proof (byte_val_range b1).
  pose proof (byte_val_range b2). pose proof (byte_val_range b3). lia.
Qed.

Lemma decode_event_Some data event :
  decode_event data = Some event ->
  exists hdr, data = hdr ++ ev_name event /\ length hdr = 16%nat /\
              0 <= ev_len event < 2 ^ 32 /\
              forall name', decode_event (hdr ++ name')
                = Some (mkEvent (ev_wd event) (ev_mask event) (ev_cookie event)
                                (ev_len event) name').
Proof.
  unfold decode_event.
  do 16 (destruct data as [| ? data]; [discriminate |]).
  intros [= <-]. cbn [ev_name ev_len ev_wd ev_mask ev_cookie].
  eexists [_; _; _; _; _; _; _; _; _; _; _; _; _; _; _; _].
  split; [reflexivity |]. split; [reflexivity |].
  split; [apply uint32_le_range | reflexivity].
Qed.

Lemma decode_event_length data event :
  decode_event data = Some event ->
  Z.of_nat (length data) = 16 + Z.of_nat (length (ev_name event)).
Proof.
  intros (hdr & -> & Hlen & _)%decode_event_Some.
  rewrite length_app, Hlen. lia.
Qed.

Lemma decode_event_None data :
  decode_event data = None -> Z.of_nat (length data) < 16.
Proof.
  unfold decode_event.
  do 16 (destruct data as [| ? data]; [cbn; lia |]). discriminate.
Qed.

Lemma to_size_t_small z : 0 <= z < SIZE_MAX1 -> to_size_t z = z.
Proof. intros H. unfold to_size_t. by apply Z.mod_small. Qed.

Lemma to_size_t_le z : 0 <= z -> 0 <= to_size_t z <= z.
Proof.
  intros H. unfold to_size_t, SIZE_MAX1. split.
  - apply Z.mod_pos_bound. lia.
  - apply Z.mod_le; lia.
Qed.

Lemma record_size_small event :
  0 <= ev_len event < 2 ^ 32 ->
  to_size_t (sizeof_inotify_event + ev_len event) = 16 + ev_len event.
Proof.
  intros H. apply to_size_t_small. unfold sizeof_inotify_event, SIZE_MAX1. lia.
Qed.

Lemma nih_io_read_run len w :
  nih_io_read len w
  = Some ((take (Z.to_nat (Z.min len (Z.of_nat (length (io_recv_buf w)))))
                (io_recv_buf w),
           Z.min len (Z.of_nat (length (io_recv_buf w)))),
          set_io_recv_buf
            (drop (Z.to_nat (Z.min len (Z.of_nat (length (io_recv_buf w)))))
                  (io_recv_buf w)) w).
Proof. reflexivity. Qed.

(** One turn of the loop, with fuel in hand. *)
Lemma reader_loop_S E fuel len w :
  0 < len ->
  reader_loop E (S fuel) len w
  = if len <? sizeof_inotify_event then Some (tt, w)
    else match decode_event (io_recv_buf w) with
         | None => None
         | Some event =>
           if len <? to_size_t (sizeof_inotify_event + ev_len event)
           then Some (tt, w)
           else
             bind (nih_io_read (to_size_t (sizeof_inotify_event + ev_len event)))
                  (fun r =>
                     match decode_event (fst r) with
                     | None => abort
                     | Some event =>
                       w <- get ;;
                       dispatch E (file_watches w) event ;;;
                       reader_loop E fuel (to_size_t (len - snd r))
                     end) w
         end.
Proof.
  intros Hlen. cbn [reader_loop].
  destruct (Z.ltb_spec 0 len) as [_ |]; [| lia].
  destruct (len <? sizeof_inotify_event); [done |].
  unfold get at 1. unfold bind at 1.
  destruct (decode_event (io_recv_buf w)) as [event |]; [| done].
  by destruct (len <? _).
Qed.

Lemma reader_loop_done E fuel len w :
  len <= 0 -> reader_loop E fuel len w = Some (tt, w).
Proof.
  intros Hlen. destruct fuel; cbn [reader_loop];
    by destruct (Z.ltb_spec 0 len) as [? | _]; [lia |].
Qed.

(** Every turn takes at least a header off [len], so beyond [len] turns the
    amount of fuel does not matter. *)
Lemma reader_loop_fuel E f1 :
  forall f2 len w,
    (Z.to_nat len <= f1)%nat -> (Z.to_nat len <= f2)%nat ->
    reader_loop E f1 len w = reader_loop E f2 len w.
Proof.
  induction f1 as [| f1 IH]; intros f2 len w H1 H2.
  - rewrite !reader_loop_done by lia. done.
  - destruct (Z.le_gt_cases len 0) as [Hle | Hgt].
    { rewrite !reader_loop_done by lia. done. }
    destruct f2 as [| f2]; [lia |].
    rewrite !reader_loop_S by lia.
    destruct (len <? sizeof_inotify_event); [done |].
    destruct (decode_event (io_recv_buf w)) as [event |] eqn:Hdec; [| done].
    destruct (Z.ltb_spec len (to_size_t (sizeof_inotify_event + ev_len event)))
      as [| Hsz]; [done |].
    rewrite !(bind_run _ _ _ _ _ (nih_io_read_run _ _)). cbn [fst snd].
    destruct (decode_event (take _ _)) as [event' |]; [| done].
    unfold get, bind. destruct (dispatch E _ event' _) as [[_ w1] |]; [| done].
    pose proof (decode_event_length _ _ Hdec) as Hbuf.
    destruct (decode_event_Some _ _ Hdec) as (_ & _ & _ & Hev & _).
    rewrite record_size_small in * by done.
    set (n := Z.min (16 + ev_len event) (Z.of_nat (length (io_recv_buf w)))).
    assert (16 <= n <= len) by lia.
    pose proof (to_size_t_le (len - n)).
    apply IH; lia.
Qed.

Lemma dispatch_keeps_buffer E event iter :
  forall w r w', dispatch E iter event w = Some (r, w') ->
                 io_recv_buf w' = io_recv_buf w.
Proof.
  induction iter as [| watch iter IH]; intros w r w'.
  - by intros [= _ <-].
  - cbn [dispatch]. intros (f & w0 & Hload & Hrun)%bind_Some.
    assert (w0 = w) as ->.
    { unfold load_file, load, bind in Hload.
      destruct (heap w !! watch) as [a |]; [| done].
      destruct (a_block a); [by injection Hload | done]. }
    destruct (negb _); [by eapply IH |].
    unfold call_watcher in Hrun. destruct (watcher f) as [| g].
    + eapply (keeps_nih_dir_watcher (fun w0 => io_recv_buf w0 = io_recv_buf w)
                                    (fun _ => True)); try done.
    + by injection Hrun as _ <-.
Qed.

(** The front of a buffer that holds a whole record. *)
Lemma take_record buf event :
  decode_event buf = Some event ->
  sizeof_inotify_event + ev_len event <= Z.of_nat (length buf) ->
  let n := Z.to_nat (sizeof_inotify_event + ev_len event) in
  decode_event (take n buf) = Some (event_of_record event) /\
  whole_record (take n buf).
Proof.
  intros Hdec Hlen n.
  pose proof (decode_event_length _ _ Hdec) as Hbuf.
  destruct (decode_event_Some _ _ Hdec) as (hdr & -> & Hhdr & Hev & Hre).
  unfold sizeof_inotify_event in *.
  assert (Hn : n = (length hdr + Z.to_nat (ev_len event))%nat) by lia.
  rewrite Hn, take_app_add.
  assert (Hd : decode_event (hdr ++ take (Z.to_nat (ev_len event)) (ev_name event))
               = Some (event_of_record event)) by apply Hre.
  split; [exact Hd |]. exists (event_of_record event). split; [exact Hd |].
  cbn. rewrite length_take. lia.
Qed.

Lemma reader_loop_consumes E fuel :
  forall len w w',
    len = Z.of_nat (length (io_recv_buf w)) -> len < SIZE_MAX1 ->
    reader_loop E fuel len w = Some (tt, w') ->
    exists consumed,
      io_recv_buf w = consumed ++ io_recv_buf w' /\
      whole_records consumed /\ incomplete (io_recv_buf w').
Proof.
  induction fuel as [| fuel IH]; intros len w w' Hlen Hmax Hrun.
  - cbn in Hrun. destruct (Z.ltb_spec 0 len); [done |].
    injection Hrun as <-. exists []. split; [done |].
    split; [constructor |]. left. unfold sizeof_inotify_event. lia.
  - destruct (Z.le_gt_cases len 0) as [Hle | Hgt].
    { rewrite reader_loop_done in Hrun by done. injection Hrun as <-.
      exists []. split; [done |]. split; [constructor |].
      left. unfold sizeof_inotify_event. lia. }
    rewrite reader_loop_S in Hrun by lia.
    destruct (Z.ltb_spec len sizeof_inotify_event) as [Hshort | Hhdr].
    { injection Hrun as <-. exists []. split; [done |].
      split; [constructor |]. left. lia. }
    destruct (decode_event (io_recv_buf w)) as [event |] eqn:Hdec; [| done].
    destruct (decode_event_Some _ _ Hdec) as (_ & _ & _ & Hev & _).
    rewrite record_size_small in Hrun by done.
    destruct (Z.ltb_spec len (16 + ev_len event)) as [Hpart | Hwhole].
    { injection Hrun as <-. exists []. split; [done |].
      split; [constructor |]. right. exists event. split; [done |].
      unfold sizeof_inotify_event. lia. }
    rewrite (bind_run _ _ _ _ _ (nih_io_read_run _ _)) in Hrun.
    cbn [fst snd] in Hrun. rewrite <- Hlen in Hrun.
    rewrite Z.min_l in Hrun by lia.
    destruct (take_record _ _ Hdec) as [Hd Hrec].
    { unfold sizeof_inotify_event. lia. }
    unfold sizeof_inotify_event in Hd, Hrec. rewrite Hd in Hrun.
    unfold get at 1 in Hrun. unfold bind at 1 in Hrun.
    apply bind_Some in Hrun as (u & w1 & Hdisp & Hrest).
    apply dispatch_keeps_buffer in Hdisp. cbn in Hdisp.
    apply IH in Hrest as (consumed & Hsplit & Hrecs & Hinc).
    + exists (take (Z.to_nat (16 + ev_len event)) (io_recv_buf w) ++ consumed).
      split; [| split; [by constructor | done]].
      rewrite <- app_assoc, <- Hsplit, Hdisp. by rewrite take_drop.
    + rewrite Hdisp, length_drop, to_size_t_small; lia.
    + pose proof (to_size_t_le (len - (16 + ev_len event))). lia.
Qed.

(** C5: a pass over the [len] bytes of the receive buffer.  With less
    than a header waiting, or with a header whose declared name is not
    all there, the pass returns at once and the world, buffer included,
    is as it was.  With a whole record at the front, exactly its bytes
    (header and declared name) are taken off the buffer, the event read
    from exactly those bytes is dispatched, and the loop goes on with the
    bytes that remain.  So whenever a pass returns, the bytes it took
    are a run of whole records and the bytes it left are still in the
    buffer and start no whole record. *)
Theorem C5_reader_whole_records (E : Env) (len : Z) (w : World) :
  len = Z.of_nat (length (io_recv_buf w)) ->
  0 < len < SIZE_MAX1 ->
  (len < sizeof_inotify_event -> nih_file_reader E len w = Some (tt, w)) /\
  (forall event,
     decode_event (io_recv_buf w) = Some event ->
     len < sizeof_inotify_event + ev_len event ->
     nih_file_reader E len w = Some (tt, w)) /\
  (forall event,
     decode_event (io_recv_buf w) = Some event ->
     sizeof_inotify_event + ev_len event <= len ->
     let n := Z.to_nat (sizeof_inotify_event + ev_len event) in
     whole_record (take n (io_recv_buf w)) /\
     decode_event (take n (io_recv_buf w)) = Some (event_of_record event) /\
     nih_file_reader E len w
     = bind (dispatch E (file_watches w) (event_of_record event))
            (fun _ => reader_loop E (Z.to_nat (len - Z.of_nat n))
                                  (len - Z.of_nat n))
            (set_io_recv_buf (drop n (io_recv_buf w)) w)) /\
  (forall w',
     nih_file_reader E len w = Some (tt, w') ->
     exists consumed,
       io_recv_buf w = consumed ++ io_recv_buf w' /\
       whole_records consumed /\ incomplete (io_recv_buf w')).
Proof.
  intros Hlen [Hpos Hmax].
  assert (Hreader : nih_file_reader E len w = reader_loop E (Z.to_nat len) len w).
  { unfold nih_file_reader. by destruct (Z.ltb_spec 0 len) as [_ |]; [| lia]. }
  rewrite Hreader.
  assert (Hfuel : exists k, Z.to_nat len = S k).
  { exists (Z.to_nat len - 1)%nat. lia. }
  destruct Hfuel as [k Hk]. rewrite Hk.
  split; [| split; [| split]].
  - intros Hshort. rewrite reader_loop_S by done.
    by destruct (Z.ltb_spec len sizeof_inotify_event) as [_ |]; [| lia].
  - intros event Hdec Hpart. rewrite reader_loop_S by done.
    destruct (decode_event_Some _ _ Hdec) as (_ & _ & _ & Hev & _).
    rewrite Hdec, (record_size_small event Hev).
    unfold sizeof_inotify_event in *.
    destruct (Z.ltb_spec len 16) as [| _]; [done |].
    by destruct (Z.ltb_spec len (16 + ev_len event)) as [_ |]; [| lia].
  - intros event Hdec Hwhole n.
    destruct (decode_event_Some _ _ Hdec) as (_ & _ & _ & Hev & _).
    destruct (take_record _ _ Hdec) as [Hd Hrec]; [lia |].
    fold n in Hd, Hrec. split; [exact Hrec |]. split; [exact Hd |].
    rewrite reader_loop_S by done.
    rewrite Hdec, (record_size_small event Hev).
    unfold sizeof_inotify_event in *.
    destruct (Z.ltb_spec len 16) as [| _]; [lia |].
    destruct (Z.ltb_spec len (16 + ev_len event)) as [| _]; [lia |].
    rewrite (bind_run _ _ _ _ _ (nih_io_read_run _ _)). cbn [fst snd].
    rewrite <- Hlen, Z.min_l by lia. fold n. rewrite Hd.
    unfold get at 1. unfold bind at 1.
    assert (Hn : Z.of_nat n = 16 + ev_len event) by lia.
    rewrite Hn, to_size_t_small by lia.
    unfold bind. cbn [file_watches set_io_recv_buf].
    destruct (dispatch E _ _ _) as [[u w1] |]; [| done].
    apply reader_loop_fuel; lia.
  - intros w' Hrun. by eapply reader_loop_consumes.
Qed.

Lemma C5_reader_whole_records_witness :
  exists w',
    nih_file_reader env_plain 19 world_reader = Some (tt, w') /\
    io_recv_buf w' = [x06; x00; x00] /\
    exists consumed,
      io_recv_buf world_reader = consumed ++ io_recv_buf w' /\
      whole_records consumed /\ incomplete (io_recv_buf w').
Proof.
  destruct (C5_reader_whole_records env_plain 19 world_reader eq_refl)
    as (_ & _ & _ & Hpass).
  - unfold SIZE_MAX1. lia.
  - eexists. split; [vm_compute; reflexivity |]. split; [reflexivity |].
    apply Hpass. vm_compute. reflexivity.
Defined.

(** ** nih_file_map *)

(** C9: whenever [open], [fstat] or [mmap] fails, [nih_file_map] raises a
    system error and returns NULL, and it returns NULL in no other case;
    nothing but the log changes.  When [open] failed there is no
    descriptor and nothing is closed; on every path after a successful
    [open] the last thing the function does is to close that descriptor,
    and it closes it once. *)
Theorem C9_file_map_errors_and_close (E : Env) (path : string)
    (flags length : Z) (w : World) :
  Z.land flags O_ACCMODE = O_RDONLY \/ Z.land flags O_ACCMODE = O_RDWR ->
  let fd := sys_open E (trace w) path flags in
  exists r len' evs,
    nih_file_map E path flags length w
      = Some ((r, len'),
              mkWorld (heap w) (file_watches w) (inotify_fd w) (io_recv_buf w)
                      (trace w ++ evs)) /\
    (r = None <-> map_step_fails E (trace w) path flags) /\
    (r = None <-> E_error_raise_system ∈ evs) /\
    (fd < 0 -> List.filter is_close evs = []) /\
    (0 <= fd -> List.filter is_close evs = [E_close fd] /\
                last evs = Some (E_close fd)).
Proof.
  intros Hflags fd. unfold nih_file_map, map_step_fails.
  fold (map_prot flags). subst fd.
  assert (Hassert : (Z.land flags O_ACCMODE =? O_RDONLY)
                    || (Z.land flags O_ACCMODE =? O_RDWR) = true).
  { destruct Hflags as [-> | ->]; reflexivity. }
  rewrite Hassert.
  unfold nih_assert, nih_error_raise_system, log, modify, get, bind, ret. cbn.
  remember (sys_open E (trace w) path flags) as fd eqn:Hfd0. clear Hfd0.
  destruct (Z.ltb_spec fd 0) as [Hfd | Hfd]; unfold log_event; cbn.
  - cbn; rewrite <- ?app_assoc; cbn. eexists None, length, _. split; [reflexivity |].
    split; [| split; [| split]].
    + split; [intros _; by left | done].
    + split; [intros _; list_mem | done].
    + done.
    + lia.
  - destruct (sys_fstat E (trace w ++ [E_open path flags fd]) fd)
      as [st_size |] eqn:Hstat; cbn.
    + destruct (sys_mmap E (trace w ++ [E_open path flags fd])
                  (to_size_t st_size) (map_prot flags) MAP_SHARED fd)
        as [m |] eqn:Hmap.
      * cbn; rewrite <- ?app_assoc; cbn. eexists (Some m), _, _.
        split; [reflexivity |]. cbn.
        split; [| split; [| split]].
        -- split; [done |]. intros [? | [? | (sz & [= <-] & Hm)]]; [lia | done |].
           congruence.
        -- split; [done |]. intros Hin.
           repeat (apply elem_of_cons in Hin as [Hin | Hin]; [discriminate |]).
           by apply elem_of_nil in Hin.
        -- lia.
        -- done.
      * cbn; rewrite <- ?app_assoc; cbn. eexists None, _, _.
        split; [reflexivity |]. cbn.
        split; [| split; [| split]].
        -- split; [intros _ | done]. right; right. by exists st_size.
        -- split; [intros _ | done].
           list_mem.
        -- lia.
        -- done.
    + cbn; rewrite <- ?app_assoc; cbn. eexists None, _, _.
      split; [reflexivity |]. cbn.
      split; [| split; [| split]].
      * split; [intros _ | done]. right; by left.
      * split; [intros _ | done].
        list_mem.
      * lia.
      * done.
Qed.

Lemma C9_file_map_errors_and_close_witness :
  exists r len' evs,
    nih_file_map (env_file None) "/etc/fstab" O_RDONLY 0 world_empty
      = Some ((r, len'), mkWorld ∅ [] (-1) [] ([] ++ evs)) /\
    r = None /\ last evs = Some (E_close 4).
Proof.
  destruct (C9_file_map_errors_and_close (env_file None) "/etc/fstab"
              O_RDONLY 0 world_empty (or_introl eq_refl))
    as (r & len' & evs & Hrun & Hnull & _ & _ & Hclose).
  exists r, len', evs. split; [exact Hrun |]. split.
  - apply Hnull. right; right. exists 4096. split; reflexivity.
  - apply Hclose. cbn. lia.
Defined.

(** C10: when [open] and [fstat] succeed and [mmap] then fails,
    [nih_file_map] returns NULL and the caller's [*length], whatever it
    held, holds the size of the file: the size was stored before [mmap]
    was called, and [mmap] was called with it. *)
Theorem C10_length_written_before_mmap (E : Env) (path : string)
    (flags length st_size : Z) (w : World) :
  Z.land flags O_ACCMODE = O_RDONLY \/ Z.land flags O_ACCMODE = O_RDWR ->
  let fd := sys_open E (trace w) path flags in
  let tr1 := trace w ++ [E_open path flags fd] in
  0 <= fd ->
  sys_fstat E tr1 fd = Some st_size ->
  0 <= st_size < 2 ^ 63 ->
  sys_mmap E tr1 st_size (map_prot flags) MAP_SHARED fd = None ->
  exists w',
    nih_file_map E path flags length w = Some ((None, st_size), w') /\
    E_mmap st_size (map_prot flags) MAP_SHARED fd None ∈ trace w'.
Proof.
  intros Hflags fd tr1. subst tr1 fd. unfold nih_file_map.
  fold (map_prot flags).
  assert (Hassert : (Z.land flags O_ACCMODE =? O_RDONLY)
                    || (Z.land flags O_ACCMODE =? O_RDWR) = true).
  { destruct Hflags as [-> | ->]; reflexivity. }
  rewrite Hassert.
  unfold nih_assert, nih_error_raise_system, log, modify, get, bind, ret. cbn.
  remember (sys_open E (trace w) path flags) as fd eqn:Hfd0. clear Hfd0.
  intros Hfd Hstat Hsize Hmap.
  destruct (Z.ltb_spec fd 0) as [? | _]; [lia |]. cbn.
  rewrite Hstat.
  assert (Hsz : to_size_t st_size = st_size).
  { unfold to_size_t, SIZE_MAX1. apply Z.mod_small. lia. }
  cbn. rewrite Hsz. cbn. rewrite Hmap. eexists. split; [reflexivity |]. cbn. rewrite !elem_of_app, !elem_of_cons. tauto.
Qed.

Lemma C10_length_written_before_mmap_witness :
  exists w',
    nih_file_map (env_file None) "/etc/fstab" O_RDONLY 0 world_empty
      = Some ((None, 4096), w').
Proof.
  destruct (C10_length_written_before_mmap (env_file None) "/etc/fstab"
              O_RDONLY 0 4096 world_empty (or_introl eq_refl))
    as (w' & Hrun & _).
  - cbn. lia.
  - reflexivity.
  - lia.
  - reflexivity.
  - exists w'. exact Hrun.
Defined.

(** * Further properties of the code *)

(** ** nih_dir_walk as an iteration *)

Lemma bind_fail {A B} (m : M A) (k : A -> M B) w :
  m w = None -> bind m k w = None.
Proof. unfold bind. by intros ->. Qed.

Lemma bind_same {A B} (m1 m2 : M A) (k : A -> M B) w :
  m1 w = m2 w -> bind m1 k w = bind m2 k w.
Proof. unfold bind. by intros ->. Qed.

Lemma visit_until_app visitor l1 :
  forall l2 ret0 w,
    0 <= ret0 ->
    visit_until visitor (l1 ++ l2) ret0 w
    = bind (visit_until visitor l1 ret0)
           (fun r => if r <? 0 then ret r else visit_until visitor l2 r) w.
Proof.
  induction l1 as [| p l1 IH]; intros l2 ret0 w Hret.
  - cbn [app visit_until]. rewrite run_ret.
    destruct (Z.ltb_spec ret0 0); [lia | done].
  - cbn [app visit_until]. rewrite bind_assoc.
    destruct (visitor p w) as [[r w1] |] eqn:Hvis;
      [| by rewrite !(bind_fail _ _ _ Hvis)].
    rewrite !(bind_run _ _ _ _ _ Hvis).
    destruct (Z.ltb_spec r 0) as [Hneg | Hpos].
    + rewrite run_ret. destruct (Z.ltb_spec r 0); [done | lia].
    + by apply IH.
Qed.

Lemma visit_until_nonpos visitor l :
  zero_or_error visitor ->
  forall w r w', visit_until visitor l 0 w = Some (r, w') -> r <= 0.
Proof.
  intros Hv. assert (Hgen : forall ret0 w r w',
    ret0 <= 0 -> visit_until visitor l ret0 w = Some (r, w') -> r <= 0).
  { induction l as [| p l IH]; intros ret0 w r w' Hret.
    - by intros [= <- _].
    - cbn [visit_until]. intros (r1 & w1 & Hrun1 & Hrest)%bind_Some.
      pose proof (Hv _ _ _ _ Hrun1). destruct (r1 <? 0).
      + by injection Hrest as <- _.
      + by eapply IH. }
  intros w r w'. by apply Hgen.
Qed.

Lemma readdir_loop_refines walk rec path types filter visitor ents :
  zero_or_error visitor ->
  Forall (fun e => forall sp w,
            dirs_open (snd e) = true ->
            walk sp (snd e) w = visit_until visitor (rec sp (snd e)) 0 w) ents ->
  forallb (fun e =>
             let '(d_name, child) := e in
             is_dot d_name ||
             match node_stat child with
             | Some st_mode => if S_ISDIR st_mode then dirs_open child else true
             | None => true
             end) ents = true ->
  forall w,
    readdir_loop walk path types filter visitor ents 0 w
    = visit_until visitor (order_entries rec path types filter ents) 0 w.
Proof.
  intros Hv. induction 1 as [| [d_name child] ents Hc Hents IH]; intros Hopen w.
  - done.
  - cbn [forallb] in Hopen. apply andb_true_iff in Hopen as [Hhere Hrest].
    cbn [readdir_loop order_entries].
    destruct (is_dot d_name); [by apply IH |]. cbv zeta.
    destruct (filtered filter _); [by apply IH |].
    cbn [orb] in Hhere. cbn [snd] in Hc.
    destruct (node_stat child) as [st_mode |]; [| by apply IH].
    rewrite <- app_assoc.
    destruct (has_bits st_mode types); cbn [app andb].
    + cbn [visit_until].
      destruct (visitor (subpath_of path d_name) w) as [[r w1] |] eqn:Hvis;
        [| by rewrite !(bind_fail _ _ _ Hvis)].
      rewrite !(bind_run _ _ _ _ _ Hvis).
      pose proof (Hv _ _ _ _ Hvis) as Hr.
      destruct (Z.ltb_spec r 0) as [| Hr0]; [done |].
      assert (r = 0) as -> by lia.
      destruct (S_ISDIR st_mode); cbn [app andb].
      * rewrite visit_until_app by done.
        rewrite (bind_same _ _ _ _ (Hc _ w1 Hhere)).
        unfold bind. destruct (visit_until visitor _ 0 w1) as [[r2 w2] |] eqn:Hsub;
          [| done].
        pose proof (visit_until_nonpos _ _ Hv _ _ _ Hsub) as Hr2.
        destruct (Z.ltb_spec r2 0) as [| Hr20]; [done |].
        assert (r2 = 0) as -> by lia. by apply IH.
      * rewrite run_ret. by apply IH.
    + rewrite run_ret.
      destruct (S_ISDIR st_mode); cbn [app andb].
      * rewrite visit_until_app by done.
        rewrite (bind_same _ _ _ _ (Hc _ w Hhere)).
        unfold bind. destruct (visit_until visitor _ 0 w) as [[r2 w2] |] eqn:Hsub;
          [| done].
        pose proof (visit_until_nonpos _ _ Hv _ _ _ Hsub) as Hr2.
        destruct (Z.ltb_spec r2 0) as [| Hr20]; [done |].
        assert (r2 = 0) as -> by lia. by apply IH.
      * rewrite run_ret. by apply IH.
Qed.

Lemma nih_dir_walk_refines types filter visitor :
  zero_or_error visitor ->
  forall node path w,
    dirs_open node = true ->
    nih_dir_walk path node types filter visitor w
    = visit_until visitor (walk_order path node types filter) 0 w.
Proof.
  intros Hv node. induction node as [st | st ents IH] using Node_nested_ind;
    intros path w Hopen; [discriminate |].
  cbn [nih_dir_walk walk_order]. cbn [dirs_open] in Hopen.
  apply (readdir_loop_refines _ _ path types filter visitor ents Hv);
    [| exact Hopen].
  eapply Forall_impl; [exact IH |]. intros [d_name child] Hc sp w0 Ho.
  by apply Hc.
Qed.





Lemma nih_dir_add_file_watch_zero E watch :
  zero_or_error (nih_dir_add_file_watch E watch).
Proof.
  intros sp w r w'. unfold nih_dir_add_file_watch.
  intros ([p |] & w1 & _ & Hrest)%bind_Some; by injection Hrest as <- _.
Qed.





(** ** nih_file_add_watch and nih_file_remove_watch together *)

Lemma heap_with_lookup_new p a h :
  a_parent a ≠ Some p -> heap_with p a h !! p = Some a.
Proof.
  intros Hne. unfold heap_with. destruct (a_parent a) as [q |].
  - rewrite lookup_alter_ne by congruence. apply lookup_insert_eq.
  - apply lookup_insert_eq.
Qed.

Lemma heap_with_lookup_parent p q a h :
  q ≠ p -> a_parent a = Some q ->
  heap_with p a h !! q = add_child p <$> h !! q.
Proof.
  intros Hne Hq. unfold heap_with. rewrite Hq.
  by rewrite lookup_alter_eq, lookup_insert_ne.
Qed.

Lemma heap_with_lookup_other p p' a h :
  p' ≠ p -> a_parent a ≠ Some p' -> heap_with p a h !! p' = h !! p'.
Proof.
  intros Hne Hq. unfold heap_with. destruct (a_parent a) as [q |].
  - rewrite lookup_alter_ne by congruence. by rewrite lookup_insert_ne.
  - by rewrite lookup_insert_ne.
Qed.

Lemma parent_not_fresh w parent :
  parent_allocated w parent -> parent ≠ Some (fresh (dom (heap w))).
Proof.
  intros Hpar ->. cbn in Hpar. rewrite fresh_lookup in Hpar. by destruct Hpar.
Qed.

(** The run of [nih_file_add_watch] up to the kernel's answer. *)
Lemma nih_file_add_watch_asks E parent path events watcher data w :
  events ≠ 0 ->
  parent_allocated w parent ->
  0 <= inotify_fd (init_world E w) ->
  sys_malloc_ok E (trace (init_world E w)) = true ->
  let w0 := init_world E w in
  let p := fresh (dom (heap w)) in
  let r := add_watch_answer E w path events in
  let a := mkAlloc (BFile (set_wd r uninitialised)) parent []
                   (Some D_nih_file_remove_watch) in
  let w1 := mkWorld (<[p := a]> (heap_with p a (heap w))) (file_watches w)
                    (inotify_fd w0) (io_recv_buf w)
                    (trace w0 ++ [E_inotify_add_watch (inotify_fd w0) path events r]) in
  nih_file_add_watch E parent path events watcher data w
  = (if r <? 0 then
       nih_error_raise_system ;;; nih_free p ;;; ret None
     else
       modify (set_heap (alter
         (set_block (BFile (mkFileWatch r path events watcher data))) p)) ;;;
       nih_list_add p ;;;
       ret (Some p)) w1.
Proof.
  intros Hev Hpar Hfd Hmem. cbv zeta. unfold add_watch_answer. cbv zeta.
  set (p := fresh (dom (heap w))).
  unfold nih_file_add_watch.
  apply Z.eqb_neq in Hev. rewrite Hev. unfold nih_assert. cbn [negb].
  rewrite run_ret, (bind_run _ _ _ _ _ (nih_file_init_run E w)).
  assert (Hbuf : io_recv_buf (init_world E w) = io_recv_buf w).
  { unfold init_world. by destruct (inotify_fd w =? -1). }
  pose proof (init_world_heap E w) as Hheap.
  pose proof (init_world_registry E w) as Hregs.
  revert Hfd Hmem Hbuf Hheap Hregs. generalize (init_world E w). intros w0.
  intros Hfd Hmem Hbuf Hheap Hregs.
  rewrite run_get.
  destruct (Z.ltb_spec (inotify_fd w0) 0) as [| _]; [lia |].
  unfold nih_new. mstep. rewrite Hmem. mstep. rewrite Hheap. fold p.
  pose proof (parent_not_fresh w parent Hpar) as Hpp. fold p in Hpp.
  set (a0 := mkAlloc (BFile uninitialised) parent [] None).
  assert (H1 : heap_with p a0 (heap w0) !! p = Some a0).
  { by apply heap_with_lookup_new. }
  unfold nih_alloc_set_destructor. mstep.
  rewrite (run_load p _ _ a0) by exact H1. mstep.
  cbn [trace inotify_fd set_heap].
  remember (sys_inotify_add_watch E (trace w0) (inotify_fd w0) path events) as r.
  set (a1 := mkAlloc (a_block a0) (a_parent a0) (a_children a0)
                     (Some D_nih_file_remove_watch)).
  unfold store_wd. mstep.
  rewrite (run_load_file p _ _ a1 uninitialised)
    by (first [apply lookup_insert_eq | reflexivity]).
  mstep.
  match goal with
  | |- ?k ?wa = _ ?wb => apply (f_equal k)
  end.
  unfold set_heap, log_event. cbn. rewrite Hbuf, Hregs. f_equal.
  rewrite Hheap. apply map_eq. intros i.
  destruct (decide (i = p)) as [-> |].
  - rewrite lookup_alter_eq, !lookup_insert_eq. done.
  - rewrite lookup_alter_ne, !lookup_insert_ne by done.
    unfold heap_with. cbn [a_parent]. destruct parent as [q |]; [| by rewrite !lookup_insert_ne].
    destruct (decide (q = i)) as [-> |].
    + by rewrite !lookup_alter_eq, !lookup_insert_ne.
    + by rewrite !lookup_alter_ne, !lookup_insert_ne.
Qed.

Lemma nih_file_add_watch_refused_any E parent path events watcher data w :
  events ≠ 0 ->
  parent_allocated w parent ->
  0 <= inotify_fd (init_world E w) ->
  sys_malloc_ok E (trace (init_world E w)) = true ->
  add_watch_answer E w path events < 0 ->
  exists w',
    nih_file_add_watch E parent path events watcher data w = Some (None, w') /\
    trace w' = trace (init_world E w)
               ++ [E_inotify_add_watch (inotify_fd (init_world E w)) path events
                                       (add_watch_answer E w path events);
                   E_error_raise_system] /\
    file_watches w' = file_watches w /\
    inotify_fd w' = inotify_fd (init_world E w) /\
    io_recv_buf w' = io_recv_buf w /\
    (forall p', parent ≠ Some p' -> heap w' !! p' = heap w !! p') /\
    (forall q, parent = Some q ->
       heap w' !! q
       = (fun a => del_child (fresh (dom (heap w)))
                             (add_child (fresh (dom (heap w))) a)) <$> heap w !! q).
Proof.
  intros Hev Hpar Hfd Hmem Hneg.
  rewrite (nih_file_add_watch_asks E parent path events watcher data w
             Hev Hpar Hfd Hmem).
  cbv zeta. destruct (Z.ltb_spec (add_watch_answer E w path events) 0) as [_ |];
    [| lia].
  pose proof (parent_not_fresh w parent Hpar) as Hpp.
  set (p := fresh (dom (heap w))) in *.
  set (r := add_watch_answer E w path events) in *.
  set (a := mkAlloc (BFile (set_wd r uninitialised)) parent []
                    (Some D_nih_file_remove_watch)).
  unfold nih_error_raise_system. mstep. rewrite run_nih_free.
  erewrite (bind_run _ _ _ _ _
              (nih_free_fuel_leaf_invalid _ p _ a (set_wd r uninitialised) _ _ _ _)).
  Unshelve.
  2:{ cbn. apply lookup_insert_eq. }
  2:{ reflexivity. }
  2:{ reflexivity. }
  2:{ cbn. lia. }
  eexists. split; [reflexivity |].
  cbn [trace file_watches inotify_fd io_recv_buf heap set_heap log_event].
  rewrite <- app_assoc. do 4 (split; [done |]). split.
  - intros p' Hp'. destruct (decide (p' = p)) as [-> | Hne].
    + rewrite unlink_lookup_self. symmetry. apply fresh_lookup.
    + rewrite unlink_lookup_other by done. rewrite lookup_insert_ne by done.
      by apply heap_with_lookup_other.
  - intros q Hq. assert (q ≠ p) by congruence.
    rewrite unlink_lookup_parent by done. rewrite lookup_insert_ne by done.
    rewrite heap_with_lookup_parent by done. by destruct (heap w !! q).
Qed.

Lemma nih_file_add_watch_granted_any E parent path events watcher data w :
  events ≠ 0 ->
  parent_allocated w parent ->
  0 <= inotify_fd (init_world E w) ->
  sys_malloc_ok E (trace (init_world E w)) = true ->
  0 <= add_watch_answer E w path events ->
  let p := fresh (dom (heap w)) in
  exists w',
    nih_file_add_watch E parent path events watcher data w = Some (Some p, w') /\
    trace w' = trace (init_world E w)
               ++ [E_inotify_add_watch (inotify_fd (init_world E w)) path events
                                       (add_watch_answer E w path events)] /\
    file_watches w'
    = List.filter (fun x => negb (Nat.eqb x p)) (file_watches w) ++ [p] /\
    inotify_fd w' = inotify_fd (init_world E w) /\
    io_recv_buf w' = io_recv_buf w /\
    heap w' !! p
    = Some (mkAlloc (BFile (mkFileWatch (add_watch_answer E w path events)
                                        path events watcher data))
                    parent [] (Some D_nih_file_remove_watch)) /\
    (forall p', p' ≠ p -> parent ≠ Some p' -> heap w' !! p' = heap w !! p') /\
    (forall q, parent = Some q -> heap w' !! q = add_child p <$> heap w !! q).
Proof.
  intros Hev Hpar Hfd Hmem Hpos p.
  rewrite (nih_file_add_watch_asks E parent path events watcher data w
             Hev Hpar Hfd Hmem).
  cbv zeta. destruct (Z.ltb_spec (add_watch_answer E w path events) 0) as [| _];
    [lia |].
  pose proof (parent_not_fresh w parent Hpar) as Hpp. fold p in Hpp. fold p.
  unfold nih_list_add. mstep.
  eexists. split; [reflexivity |].
  cbn [trace file_watches inotify_fd io_recv_buf heap set_heap log_event
       set_file_watches].
  do 4 (split; [done |]). split; [| split].
  - by rewrite lookup_alter_eq, lookup_insert_eq.
  - intros p' Hp' Hq'. rewrite lookup_alter_ne, lookup_insert_ne by done.
    by apply heap_with_lookup_other.
  - intros q Hq. assert (q ≠ p) by congruence.
    rewrite lookup_alter_ne, lookup_insert_ne by done.
    by apply heap_with_lookup_parent.
Qed.

Lemma fresh_not_registered w :
  registry_allocated w -> fresh (dom (heap w)) ∉ file_watches w.
Proof.
  intros Hreg Hin. destruct (Hreg _ Hin) as (a & f & Ha & _).
  by rewrite fresh_lookup in Ha.
Qed.

(** X3: while there is no inotify descriptor, a registration whose
    [inotify_init] fails returns NULL with a raised error, asks the
    kernel for no watch, allocates and registers nothing, and leaves the
    descriptor unset; so the next registration calls [inotify_init]
    again, and succeeds if the kernel then grants descriptor and watch. *)
Theorem X3_channel_creation_is_retried (E : Env) (parent : option ptr)
    (path : string) (events : Z) (watcher : NihFileWatcher) (data : ptr)
    (w : World) :
  events ≠ 0 ->
  inotify_fd w = -1 ->
  sys_inotify_init E (trace w) = -1 ->
  exists w1,
    nih_file_add_watch E parent path events watcher data w = Some (None, w1) /\
    trace w1 = trace w ++ [E_inotify_init (-1); E_error_raise_system] /\
    inotify_fd w1 = -1 /\ heap w1 = heap w /\ file_watches w1 = file_watches w /\
    (parent_allocated w parent ->
     registry_allocated w ->
     0 <= sys_inotify_init E (trace w1) ->
     sys_malloc_ok E (trace (init_world E w1)) = true ->
     0 <= add_watch_answer E w1 path events ->
     exists p w2,
       nih_file_add_watch E parent path events watcher data w1 = Some (Some p, w2) /\
       trace w2 = trace w1
                  ++ [E_inotify_init (sys_inotify_init E (trace w1));
                      E_inotify_add_watch (sys_inotify_init E (trace w1)) path
                        events (add_watch_answer E w1 path events)] /\
       file_watches w2 = file_watches w ++ [p]).
Proof.
  intros Hev Hfd Hinit.
  assert (Hw0 : init_world E w
                = set_inotify_fd (-1) (log_event (E_inotify_init (-1)) w)).
  { unfold init_world. by rewrite Hfd, Hinit. }
  set (w1 := log_event E_error_raise_system (init_world E w)).
  assert (Htr1 : trace w1 = trace w ++ [E_inotify_init (-1); E_error_raise_system]).
  { unfold w1. rewrite Hw0. cbn. by rewrite <- app_assoc. }
  assert (Hfd1 : inotify_fd w1 = -1) by (unfold w1; by rewrite Hw0).
  assert (Hheap1 : heap w1 = heap w) by (unfold w1; by rewrite Hw0).
  assert (Hreg1 : file_watches w1 = file_watches w) by (unfold w1; by rewrite Hw0).
  exists w1. split.
  { apply nih_file_add_watch_unavailable; [done |]. left. rewrite Hw0. cbn. lia. }
  do 4 (split; [done |]).
  intros Hpar Hregs Hinit2 Hmem Hpos.
  assert (Hw1 : init_world E w1
                = set_inotify_fd (sys_inotify_init E (trace w1))
                    (log_event (E_inotify_init (sys_inotify_init E (trace w1))) w1)).
  { unfold init_world. by rewrite Hfd1. }
  destruct (nih_file_add_watch_granted_any E parent path events watcher data w1)
    as (w2 & Hrun & Htr & Hreg & _); try done.
  { unfold parent_allocated. by rewrite Hheap1. }
  { rewrite Hw1. exact Hinit2. }
  eexists _, w2. split; [exact Hrun |]. rewrite Htr, Hreg, Hw1.
  cbn [trace inotify_fd set_inotify_fd log_event]. rewrite <- app_assoc.
  split; [done |]. rewrite Hreg1, Hheap1. f_equal.
  by apply filter_neq_id, fresh_not_registered.
Qed.

Lemma X3_channel_creation_is_retried_witness :
  exists w1 p w2,
    nih_file_add_watch env_retry None "/a" IN_MODIFY (W_user 7) 0 world_empty
    = Some (None, w1) /\
    inotify_fd w1 = -1 /\
    nih_file_add_watch env_retry None "/a" IN_MODIFY (W_user 7) 0 w1
    = Some (Some p, w2) /\
    file_watches w2 = [p].
Proof.
  destruct (X3_channel_creation_is_retried env_retry None "/a" IN_MODIFY
              (W_user 7) 0%nat world_empty)
    as (w1 & Hrun1 & Htr1 & Hfd1 & _ & _ & Hretry); [done | done | done |].
  destruct Hretry as (p & w2 & Hrun2 & _ & Hreg2).
  - exact I.
  - intros q Hq. by apply elem_of_nil in Hq.
  - rewrite Htr1. cbn. lia.
  - reflexivity.
  - unfold add_watch_answer. cbn. lia.
  - exists w1, p, w2. by repeat split.
Defined.

(** X4: a registration that the kernel refuses is local.  It returns NULL
    with a raised error; the log grows by the refused request and the
    error, and by no kernel removal, although the destructor of the
    discarded block runs; the registry is as it was, and so is every
    allocated block other than the parent, which keeps its type and
    content. *)
Theorem X4_refused_registration_is_local (E : Env) (parent : option ptr)
    (path : string) (events : Z) (watcher : NihFileWatcher) (data : ptr)
    (w : World) :
  events ≠ 0 ->
  parent_allocated w parent ->
  0 <= inotify_fd (init_world E w) ->
  sys_malloc_ok E (trace (init_world E w)) = true ->
  add_watch_answer E w path events < 0 ->
  exists w',
    nih_file_add_watch E parent path events watcher data w = Some (None, w') /\
    trace w' = trace (init_world E w)
               ++ [E_inotify_add_watch (inotify_fd (init_world E w)) path events
                                       (add_watch_answer E w path events);
                   E_error_raise_system] /\
    file_watches w' = file_watches w /\
    (forall p', parent ≠ Some p' -> heap w' !! p' = heap w !! p') /\
    (forall q, parent = Some q ->
               a_block <$> heap w' !! q = a_block <$> heap w !! q /\
               a_destructor <$> heap w' !! q = a_destructor <$> heap w !! q).
Proof.
  intros Hev Hpar Hfd Hmem Hneg.
  destruct (nih_file_add_watch_refused_any E parent path events watcher data w
              Hev Hpar Hfd Hmem Hneg)
    as (w' & Hrun & Htr & Hreg & _ & _ & Hoth & Hq).
  exists w'. do 4 (split; [done |]). intros q Hpq. rewrite (Hq q Hpq).
  by destruct (heap w !! q).
Qed.

Lemma X4_refused_registration_is_local_witness :
  exists w',
    nih_file_add_watch env_refusing None "/a" IN_MODIFY (W_user 9) 0 world_single
    = Some (None, w') /\
    trace w' = [E_inotify_add_watch 3 "/a" IN_MODIFY (-1); E_error_raise_system] /\
    file_watches w' = [1%nat] /\
    heap w' !! 1%nat = heap world_single !! 1%nat.
Proof.
  destruct (X4_refused_registration_is_local env_refusing None "/a" IN_MODIFY
              (W_user 9) 0%nat world_single)
    as (w' & Hrun & Htr & Hreg & Hoth & _); try done.
  exists w'. split; [exact Hrun |]. split; [exact Htr |]. split; [exact Hreg |].
  by apply Hoth.
Defined.



Lemma registry_valid_allocated w : registry_valid w -> registry_allocated w.
Proof.
  intros [_ Hv] q Hq. destruct (Hv q Hq) as (a & f & Ha & Hb & _).
  by exists a, f.
Qed.

Lemma NoDup_filter_neq (p : nat) (l : list nat) :
  NoDup l -> NoDup (List.filter (fun x => negb (Nat.eqb x p)) l).
Proof.
  induction 1 as [| x l Hx Hl IH]; cbn; [constructor |].
  destruct (negb (x =? p)%nat); [| exact IH].
  constructor; [| exact IH]. rewrite elem_of_filter_neq. tauto.
Qed.

(** X6: the registry's invariant (each handle registered once, allocated
    as a watch, with a descriptor that is not negative) survives every
    outcome of a registration: a returned handle is a block that was not
    allocated before and is the one entry added, at the tail; NULL leaves
    the registry as it was. *)
Theorem X6_registration_keeps_registry_valid (E : Env) (parent : option ptr)
    (path : string) (events : Z) (watcher : NihFileWatcher) (data : ptr)
    (w w' : World) (r : option ptr) :
  parent_allocated w parent ->
  registry_valid w ->
  nih_file_add_watch E parent path events watcher data w = Some (r, w') ->
  registry_valid w' /\
  match r with
  | Some p => heap w !! p = None /\ file_watches w' = file_watches w ++ [p] /\
              0 <= wd_at w' p
  | None => file_watches w' = file_watches w
  end.
Proof.
  intros Hpar Hval Hrun.
  pose proof (registry_valid_allocated w Hval) as Halloc.
  pose proof (fresh_not_registered w Halloc) as Hfresh.
  destruct Hval as [Hnd Hval].
  destruct (decide (events = 0)) as [-> | Hev].
  { unfold nih_file_add_watch in Hrun. cbn in Hrun. discriminate Hrun. }
  destruct (Z.ltb_spec (inotify_fd (init_world E w)) 0) as [Hfd | Hfd].
  { rewrite (nih_file_add_watch_unavailable E parent path events watcher data w
               Hev (or_introl Hfd)) in Hrun.
    injection Hrun as <- <-. unfold registry_valid.
    cbn [log_event file_watches heap].
    rewrite init_world_registry, init_world_heap. by repeat split. }
  destruct (sys_malloc_ok E (trace (init_world E w))) eqn:Hmem; cycle 1.
  { rewrite (nih_file_add_watch_unavailable E parent path events watcher data w
               Hev (or_intror Hmem)) in Hrun.
    injection Hrun as <- <-. unfold registry_valid.
    cbn [log_event file_watches heap].
    rewrite init_world_registry, init_world_heap. by repeat split. }
  destruct (Z.ltb_spec (add_watch_answer E w path events) 0) as [Hneg | Hpos].
  - destruct (nih_file_add_watch_refused_any E parent path events watcher data w
                Hev Hpar Hfd Hmem Hneg)
      as (w1 & Hrun1 & _ & Hreg & _ & _ & Hoth & Hq).
    rewrite Hrun1 in Hrun. injection Hrun as <- <-.
    split; [| exact Hreg]. unfold registry_valid. rewrite Hreg.
    split; [exact Hnd |].
    intros q Hin. destruct (Hval q Hin) as (a & f & Ha & Hb & Hwd).
    destruct (decide (parent = Some q)) as [Hp | Hp].
    + rewrite (Hq q Hp), Ha. cbn. by eexists _, f.
    + rewrite (Hoth q Hp). by exists a, f.
  - destruct (nih_file_add_watch_granted_any E parent path events watcher data w
                Hev Hpar Hfd Hmem Hpos)
      as (w1 & Hrun1 & _ & Hreg & _ & _ & Hp & Hoth & Hq).
    rewrite Hrun1 in Hrun. injection Hrun as <- <-.
    rewrite (filter_neq_id _ _ Hfresh) in Hreg. unfold registry_valid.
    rewrite Hreg. split; [split |].
    + apply NoDup_app. split; [exact Hnd |]. split; [| apply NoDup_singleton].
      intros x Hx ->%list_elem_of_singleton. by apply Hfresh.
    + intros q [Hin | ->%list_elem_of_singleton]%elem_of_app.
      * destruct (Hval q Hin) as (a & f & Ha & Hb & Hwd).
        assert (q ≠ fresh (dom (heap w))) by (intros ->; by apply Hfresh).
        destruct (decide (parent = Some q)) as [Hpq | Hpq].
        -- rewrite (Hq q Hpq), Ha. cbn. by eexists _, f.
        -- rewrite (Hoth q) by done. by exists a, f.
      * by eexists _, _.
    + split; [apply fresh_lookup |]. split; [done |].
      unfold wd_at. by rewrite Hp.
Qed.

Lemma X6_registration_keeps_registry_valid_witness :
  exists p w',
    nih_file_add_watch env_plain None "/b" IN_MODIFY (W_user 9) 0 world_single
    = Some (Some p, w') /\
    registry_valid w' /\ file_watches w' = [1%nat; p].
Proof.
  destruct (nih_file_add_watch env_plain None "/b" IN_MODIFY (W_user 9) 0%nat
              world_single) as [[[p |] w'] |] eqn:Hrun; try by vm_compute in Hrun.
  destruct (X6_registration_keeps_registry_valid env_plain None "/b" IN_MODIFY
              (W_user 9) 0%nat world_single w' (Some p))
    as (Hval & _ & Hreg & _).
  - done.
  - split; [cbn; apply NoDup_singleton |].
    intros q Hq. cbn in Hq. list_cases Hq. eexists _, _.
    split; [reflexivity |]. split; [reflexivity |]. by vm_compute.
  - exact Hrun.
  - by exists p, w'.
Defined.

(** X7: releasing a watch keeps the registry's invariant, and under it a
    released handle is never left registered: after
    [nih_file_remove_watch], whether or not the kernel was asked, the
    handle is out of the registry and its descriptor is negative, while
    every other handle is registered as before and its block is
    untouched. *)
Theorem X7_release_keeps_registry_valid (watch : ptr) (w w' : World) :
  registry_valid w ->
  nih_file_remove_watch watch w = Some (tt, w') ->
  registry_valid w' /\
  (watch ∉ file_watches w') /\
  wd_at w' watch < 0 /\
  forall q, q ≠ watch ->
            (q ∈ file_watches w' <-> q ∈ file_watches w) /\
            heap w' !! q = heap w !! q.
Proof.
  intros [Hnd Hval] Hrun.
  assert (exists a f, heap w !! watch = Some a /\ a_block a = BFile f)
    as (a & f & Ha & Hb).
  { unfold nih_file_remove_watch, load_file in Hrun.
    apply bind_Some in Hrun as (f & w0 & Hload & _).
    apply bind_Some in Hload as (a & w1 & Hload & Hf).
    unfold load in Hload. destruct (heap w !! watch) as [a' |]; [| discriminate].
    injection Hload as -> ->. destruct (a_block a) as [f' |] eqn:Hb; [| discriminate].
    by exists a, f'. }
  destruct (Z.ltb_spec (wd f) 0) as [Hneg | Hpos].
  - rewrite (nih_file_remove_watch_invalid watch w a f Ha Hb Hneg) in Hrun.
    injection Hrun as <-. split; [done |]. split; [| split; [| done]].
    + intros Hin. destruct (Hval _ Hin) as (a' & f' & Ha' & Hb' & Hwd).
      rewrite Ha in Ha'. injection Ha' as <-. rewrite Hb in Hb'.
      injection Hb' as <-. lia.
    + unfold wd_at. rewrite Ha. destruct a. cbn in Hb. by subst.
  - rewrite (nih_file_remove_watch_valid watch w a f Ha Hb Hpos) in Hrun.
    injection Hrun as <-. unfold registry_valid, released.
    cbn [file_watches heap].
    split; [split |]; [| | split; [| split]].
    + by apply NoDup_filter_neq.
    + intros q [Hin Hne]%elem_of_filter_neq.
      rewrite lookup_insert_ne by done. by apply Hval.
    + rewrite elem_of_filter_neq. tauto.
    + unfold wd_at. cbn. by rewrite lookup_insert_eq.
    + intros q Hne. rewrite elem_of_filter_neq, lookup_insert_ne by done. tauto.
Qed.

Lemma X7_release_keeps_registry_valid_witness :
  exists w',
    nih_file_remove_watch 1%nat world_single = Some (tt, w') /\
    registry_valid w' /\ file_watches w' = [].
Proof.
  destruct (nih_file_remove_watch 1%nat world_single) as [[[] w'] |] eqn:Hrun;
    [| by vm_compute in Hrun].
  destruct (X7_release_keeps_registry_valid 1%nat world_single w') as (Hval & Hout & _).
  - split; [cbn; apply NoDup_singleton |].
    intros q Hq. cbn in Hq. list_cases Hq. eexists _, _.
    split; [reflexivity |]. split; [reflexivity |]. by vm_compute.
  - exact Hrun.
  - exists w'. split; [reflexivity |]. split; [exact Hval |].
    vm_compute in Hrun. by injection Hrun as <-.
Defined.

(** ** nih_file_reader: a whole pass *)

Lemma dispatch_user E event w iter :
  (forall q, q ∈ iter -> exists a f g, heap w !! q = Some a /\ a_block a = BFile f /\
                                        watcher f = W_user g) ->
  dispatch E iter event w
  = Some (tt, mkWorld (heap w) (file_watches w) (inotify_fd w) (io_recv_buf w)
                      (trace w ++ watcher_call (set_file_watches (fun _ => iter) w)
                                               event)).
Proof.
  induction iter as [| q iter IH]; intros Hall.
  - cbn. rewrite app_nil_r. by destruct w.
  - destruct (Hall q) as (a & f & g & Ha & Hb & Hg); [list_mem |].
    cbn [dispatch]. rewrite (run_load_file q _ w a f Ha Hb).
    unfold watcher_call. cbn [set_file_watches file_watches heap List.find].
    replace (wd_at _ q) with (wd f)
      by (symmetry; exact (wd_at_file _ q a f Ha Hb)).
    destruct (wd f =? ev_wd event); cbn [negb].
    + rewrite Ha. destruct a as [b ? ? ?]. cbn in Hb. subst b.
      unfold call_watcher. by rewrite Hg.
    + rewrite IH by (intros q' Hq'; apply Hall; by list_mem). done.
Qed.

Lemma split_records_short fuel buf :
  Z.of_nat (length buf) < sizeof_inotify_event ->
  split_records fuel buf = ([], buf).
Proof.
  intros Hlen. destruct fuel; [done |]. cbn [split_records].
  destruct (decode_event buf) as [event |] eqn:Hdec; [| done].
  apply decode_event_length in Hdec. unfold sizeof_inotify_event in Hlen. lia.
Qed.

Lemma reader_loop_user E fuel :
  forall len w,
    user_registry w ->
    len = Z.of_nat (length (io_recv_buf w)) -> len < SIZE_MAX1 ->
    (Z.to_nat len <= fuel)%nat ->
    reader_loop E fuel len w
    = Some (tt, mkWorld (heap w) (file_watches w) (inotify_fd w)
                        (snd (split_records fuel (io_recv_buf w)))
                        (trace w ++ flat_map (watcher_call w)
                                             (fst (split_records fuel (io_recv_buf w))))).
Proof.
  induction fuel as [| fuel IH]; intros len w Huser Hlen Hmax Hfuel.
  - rewrite reader_loop_done by lia. cbn. rewrite app_nil_r. by destruct w.
  - destruct (Z.le_gt_cases len 0) as [Hle | Hgt].
    { rewrite reader_loop_done by done.
      rewrite split_records_short by (unfold sizeof_inotify_event; lia).
      cbn. rewrite app_nil_r. by destruct w. }
    rewrite reader_loop_S by lia.
    destruct (Z.ltb_spec len sizeof_inotify_event) as [Hshort | Hhdr].
    { rewrite split_records_short by lia.
      cbn. rewrite app_nil_r. by destruct w. }
    cbn [split_records].
    destruct (decode_event (io_recv_buf w)) as [event |] eqn:Hdec; cycle 1.
    { apply decode_event_None in Hdec. unfold sizeof_inotify_event in Hhdr. lia. }
    destruct (decode_event_Some _ _ Hdec) as (_ & _ & _ & Hev & _).
    rewrite (record_size_small event Hev). unfold sizeof_inotify_event in *.
    rewrite <- Hlen.
    destruct (Z.ltb_spec len (16 + ev_len event)) as [Hpart | Hwhole].
    { cbn. rewrite app_nil_r. by destruct w. }
    rewrite (bind_run _ _ _ _ _ (nih_io_read_run _ _)). cbn [fst snd].
    rewrite <- Hlen, Z.min_l by lia.
    destruct (take_record _ _ Hdec) as [Hd _].
    { unfold sizeof_inotify_event. lia. }
    unfold sizeof_inotify_event in Hd. rewrite Hd.
    unfold get at 1. unfold bind at 1.
    set (n := Z.to_nat (16 + ev_len event)).
    set (w1 := set_io_recv_buf (drop n (io_recv_buf w)) w).
    rewrite (bind_run _ _ _ _ _ (dispatch_user E (event_of_record event) w1
                                   (file_watches w1) Huser)).
    rewrite to_size_t_small by lia.
    rewrite (IH (len - (16 + ev_len event))).
    + cbn [heap file_watches inotify_fd io_recv_buf trace w1 set_io_recv_buf
           set_file_watches fst snd flat_map].
      do 2 f_equal. rewrite <- app_assoc. by do 2 f_equal.
    + intros q Hq. exact (Huser q Hq).
    + cbn [io_recv_buf w1 set_io_recv_buf]. rewrite length_drop. lia.
    + lia.
    + lia.
Qed.

(** X8: a whole pass of the reader over a registry of the caller's
    watches.  With the [len] bytes of the receive buffer waiting, the
    pass returns; it takes the whole records at the front off the
    buffer and leaves the bytes behind them; for each record, in the
    order of the buffer, the watcher of the first registered watch that
    holds the record's descriptor is called once, and a record for a
    descriptor that no watch holds is dropped; heap, registry and
    inotify descriptor are as before. *)
Theorem X8_reader_pass_calls_watchers_in_order (E : Env) (len : Z) (w : World) :
  user_registry w ->
  len = Z.of_nat (length (io_recv_buf w)) ->
  0 < len < SIZE_MAX1 ->
  let records := split_records (length (io_recv_buf w)) (io_recv_buf w) in
  nih_file_reader E len w
  = Some (tt, mkWorld (heap w) (file_watches w) (inotify_fd w) (snd records)
                      (trace w ++ flat_map (watcher_call w) (fst records))).
Proof.
  intros Huser Hlen [Hpos Hmax] records. unfold nih_file_reader, nih_assert.
  destruct (Z.ltb_spec 0 len) as [_ |]; [| lia]. rewrite run_ret.
  rewrite (reader_loop_user E (Z.to_nat len) len w Huser Hlen Hmax) by lia.
  unfold records. by replace (Z.to_nat len) with (length (io_recv_buf w)) by lia.
Qed.

Lemma X8_reader_pass_calls_watchers_in_order_witness :
  exists w',
    nih_file_reader env_plain 55 world_records = Some (tt, w') /\
    trace w' = [E_watcher 7 0 1 IN_CREATE 0 (Some "x");
                E_watcher 7 0 1 IN_MODIFY 0 None] /\
    io_recv_buf w' = [x06; x00; x00].
Proof.
  eexists. split; [| split].
  - apply (X8_reader_pass_calls_watchers_in_order env_plain 55 world_records).
    + intros q Hq. cbn in Hq. list_cases Hq; eexists _, _, _;
        (split; [reflexivity |]); split; reflexivity.
    + reflexivity.
    + unfold SIZE_MAX1. lia.
  - by vm_compute.
  - by vm_compute.
Defined.

(** ** nih_dir_add_watch: what a construction leaves *)

(** The three ways [nih_file_add_watch] returns. *)
Lemma nih_file_add_watch_outcome E parent path events watcher data w r w' :
  parent_allocated w parent ->
  nih_file_add_watch E parent path events watcher data w = Some (r, w') ->
  let p := fresh (dom (heap w)) in
  let w0 := init_world E w in
  let ans := add_watch_answer E w path events in
  (r = None /\ w' = log_event E_error_raise_system w0) \/
  (r = None /\ ans < 0 /\
   trace w' = trace w0 ++ [E_inotify_add_watch (inotify_fd w0) path events ans;
                           E_error_raise_system] /\
   file_watches w' = file_watches w /\
   (forall p', parent ≠ Some p' -> heap w' !! p' = heap w !! p') /\
   (forall q, parent = Some q ->
              heap w' !! q = (fun a => del_child p (add_child p a)) <$> heap w !! q)) \/
  (r = Some p /\ 0 <= ans /\
   trace w' = trace w0 ++ [E_inotify_add_watch (inotify_fd w0) path events ans] /\
   file_watches w'
   = List.filter (fun x => negb (Nat.eqb x p)) (file_watches w) ++ [p] /\
   heap w' !! p
   = Some (mkAlloc (BFile (mkFileWatch ans path events watcher data))
                   parent [] (Some D_nih_file_remove_watch)) /\
   (forall p', p' ≠ p -> parent ≠ Some p' -> heap w' !! p' = heap w !! p') /\
   (forall q, parent = Some q -> heap w' !! q = add_child p <$> heap w !! q)).
Proof.
  intros Hpar Hrun p w0 ans.
  destruct (decide (events = 0)) as [-> | Hev].
  { unfold nih_file_add_watch in Hrun. cbn in Hrun. discriminate Hrun. }
  destruct (Z.ltb_spec (inotify_fd (init_world E w)) 0) as [Hfd | Hfd].
  { rewrite (nih_file_add_watch_unavailable E parent path events watcher data w
               Hev (or_introl Hfd)) in Hrun.
    injection Hrun as <- <-. by left. }
  destruct (sys_malloc_ok E (trace (init_world E w))) eqn:Hmem; cycle 1.
  { rewrite (nih_file_add_watch_unavailable E parent path events watcher data w
               Hev (or_intror Hmem)) in Hrun.
    injection Hrun as <- <-. by left. }
  destruct (Z.ltb_spec (add_watch_answer E w path events) 0) as [Hneg | Hpos].
  - destruct (nih_file_add_watch_refused_any E parent path events watcher data w
                Hev Hpar Hfd Hmem Hneg)
      as (w1 & Hrun1 & Htr & Hreg & _ & _ & Hoth & Hq).
    rewrite Hrun1 in Hrun. injection Hrun as <- <-. right. left. done.
  - destruct (nih_file_add_watch_granted_any E parent path events watcher data w
                Hev Hpar Hfd Hmem Hpos)
      as (w1 & Hrun1 & Htr & Hreg & _ & _ & Hp & Hoth & Hq).
    rewrite Hrun1 in Hrun. injection Hrun as <- <-. right. right. done.
Qed.

Lemma granted_app tr1 tr2 : granted (tr1 ++ tr2) = granted tr1 ++ granted tr2.
Proof. apply omap_app. Qed.

Lemma removed_app tr1 tr2 : removed (tr1 ++ tr2) = removed tr1 ++ removed tr2.
Proof. apply omap_app. Qed.

Lemma removed_rm fd l : removed (map (E_inotify_rm_watch fd) l) = l.
Proof. induction l as [| z l IH]; [done |]. cbn. f_equal. exact IH. Qed.

Lemma granted_rm fd l : granted (map (E_inotify_rm_watch fd) l) = [].
Proof. induction l as [| z l IH]; [done |]. exact IH. Qed.

Lemma init_world_trace E w :
  exists pre, trace (init_world E w) = trace w ++ pre /\
              granted pre = [] /\ removed pre = [].
Proof.
  unfold init_world. destruct (inotify_fd w =? -1).
  - by eexists [_].
  - exists []. by rewrite app_nil_r.
Qed.

Lemma leaf_watch_ext w w' dw c :
  heap w' !! c = heap w !! c ->
  (c ∈ file_watches w' -> c ∈ file_watches w) ->
  leaf_watch w dw c -> leaf_watch w' dw c.
Proof.
  intros Hh Hr (a & f & Ha & Hb & Hc & Hp & Hd & Hreg).
  exists a, f. rewrite Hh. repeat split; try done.
  intros Hwd Hin. by apply (Hreg Hwd), Hr.
Qed.

(** Steps that touch neither the heap nor the registry and log no grant
    and no removal keep a construction as it is. *)
Lemma built_log w0 parent dw d cs tr w w' more :
  heap w' = heap w -> file_watches w' = file_watches w ->
  trace w' = trace w ++ more -> granted more = [] -> removed more = [] ->
  built w0 parent dw d cs tr w -> built w0 parent dw d cs (tr ++ more) w'.
Proof.
  intros Hh Hr Ht Hg Hm [].
  split; rewrite ?Hh, ?Hr; try done.
  - intros c Hc. apply (leaf_watch_ext w); [by rewrite Hh | by rewrite Hr | auto].
  - intros c Hc. rewrite (wd_at_ext w w' c) by (by rewrite Hh). auto.
  - by rewrite Ht, built_trace0, app_assoc.
  - rewrite granted_app, Hg, app_nil_r, built_granted0.
    apply map_ext_in. intros c _. symmetry. apply wd_at_ext. by rewrite Hh.
  - by rewrite removed_app, Hm, built_removed0.
Qed.

Lemma filter_neq_snoc (p : nat) (l : list nat) :
  p ∉ l -> List.filter (fun q => negb (Nat.eqb q p)) (l ++ [p]) = l.
Proof.
  intros Hp. rewrite List.filter_app, (filter_neq_id _ _ Hp). cbn.
  rewrite Nat.eqb_refl. cbn. apply app_nil_r.
Qed.

(** Whatever [nih_file_add_watch] does for a watch under the tree watch,
    the construction stays one. *)
Lemma built_add_watch E w0 parent dw d path events data :
  registry_allocated w0 -> parent_allocated w0 parent ->
  keeps (tree_built w0 parent dw d)
        (nih_file_add_watch E (Some dw) path events W_nih_dir_watcher data).
Proof.
  intros Hreg0 Hpar0 w r w' Hrun (cs & tr & HB).
  pose proof HB as [Hblock Hnew Hnd Hleaf Hvalid Hfresh Hreg Hoth Hpar Htr Hgr Hrm].
  destruct (nih_file_add_watch_outcome E (Some dw) path events W_nih_dir_watcher
              data w r w') as [Hcase | [Hcase | Hcase]]; [by cbn; rewrite Hblock | exact Hrun | | |].
  - (* no descriptor or no memory *)
    destruct Hcase as [_ ->].
    destruct (init_world_trace E w) as (pre & Hpre & Hg & Hm).
    exists cs, (tr ++ (pre ++ [E_error_raise_system])).
    apply (built_log w0 parent dw d cs tr w); try done.
    + cbn. apply init_world_heap.
    + cbn. apply init_world_registry.
    + cbn. by rewrite Hpre, app_assoc.
    + by rewrite granted_app, Hg.
    + by rewrite removed_app, Hm.
  - (* the kernel refused *)
    destruct Hcase as (_ & Hneg & Htr' & Hreg' & Hoth' & Hq').
    destruct (init_world_trace E w) as (pre & Hpre & Hg & Hm).
    set (p := fresh (dom (heap w))) in *.
    assert (Hpcs : p ∉ cs).
    { intros Hin. destruct (Hleaf p Hin) as (a & f & Ha & _).
      unfold p in Ha. by rewrite fresh_lookup in Ha. }
    assert (Hsame : forall q, q ≠ dw -> heap w' !! q = heap w !! q).
    { intros q Hq. apply Hoth'. congruence. }
    exists cs, (tr ++ (pre ++ [E_inotify_add_watch (inotify_fd (init_world E w))
                                 path events (add_watch_answer E w path events);
                               E_error_raise_system])).
    assert (Hdwcs : dw ∉ cs).
    { intros Hin. destruct (Hleaf dw Hin) as (a & f & Ha & Hb & _).
      rewrite Hblock in Ha. injection Ha as <-. discriminate Hb. }
    split; try done.
    + rewrite (Hq' dw eq_refl), Hblock. cbn. unfold del_child, add_child. cbn.
      by rewrite filter_neq_snoc.
    + intros c Hc. apply (leaf_watch_ext w); [| by rewrite Hreg' | auto].
      apply Hsame. by intros ->.
    + intros c Hc. rewrite (wd_at_ext w w' c); [auto |].
      apply Hsame. by intros ->.
    + by rewrite Hreg'.
    + intros q ? ? ?. rewrite Hsame by done. auto.
    + intros q Hq. rewrite Hsame; [auto |].
      intros ->. rewrite Hq in Hpar0. cbn in Hpar0. rewrite Hnew in Hpar0.
      by destruct Hpar0.
    + by rewrite Htr', Hpre, Htr, <- !app_assoc.
    + rewrite !granted_app, Hg, Hgr. cbn.
      destruct (Z.ltb_spec (add_watch_answer E w path events) 0); [| lia].
      cbn. rewrite app_nil_r. apply map_ext_in. intros c Hc%list_elem_of_In.
      symmetry. apply wd_at_ext, Hsame. by intros ->.
    + by rewrite !removed_app, Hm, Hrm.
  - (* the kernel granted *)
    destruct Hcase as (-> & Hpos & Htr' & Hreg' & Hp' & Hoth' & Hq').
    destruct (init_world_trace E w) as (pre & Hpre & Hg & Hm).
    set (p := fresh (dom (heap w))) in *.
    assert (Hpw : heap w !! p = None) by apply fresh_lookup.
    assert (Hpcs : p ∉ cs).
    { intros Hin. destruct (Hleaf p Hin) as (a & f & Ha & _). by rewrite Hpw in Ha. }
    assert (Hpdw : p ≠ dw).
    { intros Heq. by rewrite Heq, Hblock in Hpw. }
    assert (Hdwcs : dw ∉ cs).
    { intros Hin. destruct (Hleaf dw Hin) as (a & f & Ha & Hb & _).
      rewrite Hblock in Ha. injection Ha as <-. discriminate Hb. }
    assert (Hppar : parent ≠ Some p).
    { intros Hq. rewrite (Hpar p Hq) in Hpw. rewrite Hq in Hpar0. cbn in Hpar0.
      destruct Hpar0 as [a Ha]. by rewrite Ha in Hpw. }
    assert (Hp0 : heap w0 !! p = None).
    { rewrite <- (Hoth p) by done. exact Hpw. }
    assert (Hpreg : p ∉ file_watches w).
    { rewrite Hreg, elem_of_app. intros [Hin | Hin]; [| done].
      destruct (Hreg0 p Hin) as (a & f & Ha & _). by rewrite Hp0 in Ha. }
    assert (Hsame : forall q, q ≠ dw -> q ≠ p -> heap w' !! q = heap w !! q).
    { intros q Hq Hqp. apply Hoth'; [done | congruence]. }
    rewrite (filter_neq_id _ _ Hpreg) in Hreg'.
    exists (cs ++ [p]),
           (tr ++ (pre ++ [E_inotify_add_watch (inotify_fd (init_world E w))
                             path events (add_watch_answer E w path events)])).
    split; try done.
    + by rewrite (Hq' dw eq_refl), Hblock.
    + apply NoDup_app. split; [done |]. split; [| apply NoDup_singleton].
      intros x Hx ->%list_elem_of_singleton. done.
    + intros c [Hc | ->%list_elem_of_singleton]%elem_of_app.
      * apply (leaf_watch_ext w); [| | auto].
        -- apply Hsame; by intros ->.
        -- rewrite Hreg', elem_of_app, list_elem_of_singleton.
           intros [? | ->]; done.
      * eexists _, _. split; [exact Hp' |]. repeat split. cbn. lia.
    + intros c [Hc | ->%list_elem_of_singleton]%elem_of_app.
      * rewrite (wd_at_ext w w' c); [auto |]. apply Hsame; by intros ->.
      * unfold wd_at. by rewrite Hp'.
    + intros c [Hc | ->%list_elem_of_singleton]%elem_of_app; auto.
    + by rewrite Hreg', Hreg, app_assoc.
    + intros q Hqdw Hqcs Hqpar. apply not_elem_of_app in Hqcs as [Hqcs Hqp].
      rewrite Hsame; [auto | done |]. intros ->. apply Hqp. list_mem.
    + intros q Hq. rewrite Hsame; [auto | |].
      * intros ->. rewrite Hq in Hpar0. cbn in Hpar0. rewrite Hnew in Hpar0.
        by destruct Hpar0.
      * intros ->. done.
    + by rewrite Htr', Hpre, Htr, <- !app_assoc.
    + rewrite !granted_app, Hg, Hgr, map_app. cbn.
      destruct (Z.ltb_spec (add_watch_answer E w path events) 0); [lia |].
      f_equal.
      * apply map_ext_in. intros c Hc%list_elem_of_In.
        symmetry. apply wd_at_ext, Hsame; by intros ->.
      * unfold wd_at. by rewrite Hp'.
    + by rewrite !removed_app, Hm, Hrm.
Qed.

Lemma tree_built_log w0 parent dw d e w :
  granted [e] = [] -> removed [e] = [] ->
  tree_built w0 parent dw d w -> tree_built w0 parent dw d (log_event e w).
Proof.
  intros Hg Hm (cs & tr & HB). exists cs, (tr ++ [e]).
  by apply (built_log w0 parent dw d cs tr w).
Qed.

Lemma built_add_file_watch E w0 parent dw d sp :
  registry_allocated w0 -> parent_allocated w0 parent ->
  keeps (tree_built w0 parent dw d) (nih_dir_add_file_watch E dw sp).
Proof.
  intros Hreg0 Hpar0 w r w'. unfold nih_dir_add_file_watch.
  intros (r1 & w1 & Hadd & Hrest)%bind_Some HB.
  pose proof (built_add_watch E w0 parent dw d sp DIR_EVENTS dw Hreg0 Hpar0
                w r1 w1 Hadd HB) as HB1.
  destruct r1 as [p |].
  - by injection Hrest as _ <-.
  - injection Hrest as _ <-. by apply tree_built_log.
Qed.

(** A walk keeps what its visitor keeps, if a raised error does no harm. *)
Lemma nih_dir_walk_keeps (P : World -> Prop) types filter visitor :
  (forall sp, keeps P (visitor sp)) ->
  (forall w, P w -> P (log_event E_error_raise_system w)) ->
  forall node path, keeps P (nih_dir_walk path node types filter visitor).
Proof.
  intros Hv Hlog node. induction node as [st | st ents IH] using Node_nested_ind;
    intros path.
  - cbn. intros w r w' [= _ <-]. apply Hlog.
  - cbn [nih_dir_walk]. apply keeps_readdir_loop; [exact Hv |].
    eapply Forall_impl; [exact IH |]. intros [d_name child] Hc sp. apply Hc.
Qed.

Lemma built_walk E w0 parent dw d node path types filter :
  registry_allocated w0 -> parent_allocated w0 parent ->
  keeps (tree_built w0 parent dw d)
        (nih_dir_walk path node types filter (nih_dir_add_file_watch E dw)).
Proof.
  intros Hreg0 Hpar0. apply nih_dir_walk_keeps.
  - intros sp. by apply built_add_file_watch.
  - intros w. by apply tree_built_log.
Qed.

(** The block that [nih_new] gives to [nih_dir_add_watch] starts a
    construction. *)
Lemma built_start E parent d w r w1 :
  parent_allocated w parent ->
  nih_new E parent (BDir d) w = Some (Some r, w1) ->
  r = fresh (dom (heap w)) /\ tree_built w parent r d w1.
Proof.
  intros Hpar. unfold nih_new. rewrite run_get.
  destruct (sys_malloc_ok E (trace w)); [| discriminate].
  rewrite run_modify. intros [= <- <-]. split; [done |].
  pose proof (parent_not_fresh w parent Hpar) as Hne.
  set (p := fresh (dom (heap w))) in *.
  exists [], []. split; cbn [heap file_watches trace set_heap]; try done.
  - destruct parent as [q |].
    + rewrite lookup_alter_ne by congruence. apply lookup_insert_eq.
    + apply lookup_insert_eq.
  - apply fresh_lookup.
  - constructor.
  - intros c Hc. by apply elem_of_nil in Hc.
  - intros c Hc. by apply elem_of_nil in Hc.
  - intros c Hc. by apply elem_of_nil in Hc.
  - by rewrite app_nil_r.
  - intros q Hq _ Hqp. destruct parent as [q' |].
    + rewrite lookup_alter_ne by congruence. by rewrite lookup_insert_ne.
    + by rewrite lookup_insert_ne.
  - intros q ->. rewrite lookup_alter_eq, lookup_insert_ne; [done |].
    intros <-. done.
  - by rewrite app_nil_r.
Qed.

Lemma rm_events_valid w cs :
  (forall c, c ∈ cs -> 0 <= wd_at w c) ->
  rm_events w cs = map (E_inotify_rm_watch (inotify_fd w)) (map (wd_at w) cs).
Proof.
  induction cs as [| c cs IH]; intros Hv; [done |].
  rewrite rm_events_cons, IH by (intros c' Hc'; apply Hv; by list_mem).
  unfold rm_events at 1. cbn.
  destruct (Z.ltb_spec (wd_at w c) 0) as [Hneg | _]; [| done].
  assert (0 <= wd_at w c) by (apply Hv; list_mem). lia.
Qed.

Lemma without_disjoint (cs l : list ptr) :
  (forall q, q ∈ l -> q ∉ cs) -> without cs l = l.
Proof.
  unfold without. induction l as [| x l IH]; intros Hd; [done |]. cbn.
  rewrite bool_decide_eq_true_2 by (apply Hd; list_mem).
  rewrite IH; [done |]. intros q Hq. apply Hd. by list_mem.
Qed.

Lemma without_within (cs l : list ptr) :
  (forall q, q ∈ l -> q ∈ cs) -> without cs l = [].
Proof.
  unfold without. induction l as [| x l IH]; intros Hd; [done |]. cbn.
  rewrite bool_decide_eq_false_2.
  - apply IH. intros q Hq. apply Hd. by list_mem.
  - intros Hx. apply Hx, Hd. list_mem.
Qed.

Lemma without_app_self (cs l : list ptr) :
  (forall c, c ∈ cs -> c ∉ l) -> without cs (l ++ cs) = l.
Proof.
  intros Hd. unfold without. rewrite List.filter_app.
  fold (without cs l). fold (without cs cs).
  rewrite without_disjoint, without_within; [apply app_nil_r | done |].
  intros q Hq Hc. by apply (Hd q).
Qed.

(** Freeing a tree watch under construction undoes the construction. *)
Lemma built_free w0 parent dw d cs tr w1 :
  registry_allocated w0 -> parent_allocated w0 parent ->
  built w0 parent dw d cs tr w1 ->
  exists w2,
    nih_free dw w1 = Some (tt, w2) /\
    trace w2 = trace w1 ++ map (E_inotify_rm_watch (inotify_fd w1)) (granted tr) /\
    file_watches w2 = file_watches w0 /\
    inotify_fd w2 = inotify_fd w1 /\
    (forall q, parent ≠ Some q -> heap w2 !! q = heap w0 !! q) /\
    (forall q, parent = Some q ->
               a_block <$> heap w2 !! q = a_block <$> heap w0 !! q).
Proof.
  intros Hreg0 Hpar0
         [Hblock Hnew Hnd Hleaf Hvalid Hfresh Hreg Hoth Hpar Htr Hgr Hrm].
  assert (Hdwcs : dw ∉ cs).
  { intros Hin. destruct (Hleaf dw Hin) as (a & f & Ha & Hb & _).
    rewrite Hblock in Ha. injection Ha as <-. discriminate Hb. }
  unfold nih_free.
  destruct (size_lookup_Some (heap w1) dw _ Hblock) as [n Hn].
  rewrite Hn. cbn [nih_free_fuel].
  rewrite (run_load dw _ w1 _ Hblock). cbn [a_children].
  destruct (free_children n dw cs w1 Hnd Hdwcs Hleaf) as
    (w' & Hrun & Htr' & Hreg' & Hfd' & _ & Hcs' & Hoth' & Hdw').
  rewrite (bind_run _ _ _ _ _ Hrun).
  rewrite Hblock in Hdw'. cbn in Hdw'.
  rewrite (run_load dw _ w' _ Hdw'). cbn [a_destructor del_children a_parent].
  rewrite run_ret. unfold modify.
  eexists. split; [reflexivity |]. cbn [trace file_watches inotify_fd heap set_heap].
  split; [| split; [| split; [done |]]].
  - by rewrite Htr', (rm_events_valid w1 cs Hvalid), Hgr.
  - rewrite Hreg', Hreg. apply without_app_self.
    intros c Hc Hin. destruct (Hreg0 c Hin) as (a & f & Ha & _).
    by rewrite (Hfresh c Hc) in Ha.
  - set (adw := mkAlloc (BDir d) parent (without cs cs) None).
    change (delete dw match parent with
                      | Some q => alter (del_child dw) q (heap w')
                      | None => heap w'
                      end) with (unlink dw adw (heap w')).
    split.
    + intros q Hq. destruct (decide (q = dw)) as [-> | Hqdw].
      { rewrite unlink_lookup_self. by rewrite Hnew. }
      rewrite unlink_lookup_other by done.
      destruct (decide (q ∈ cs)) as [Hin | Hnin].
      * rewrite (Hcs' q Hin). by rewrite (Hfresh q Hin).
      * rewrite (Hoth' q Hnin Hqdw). by apply Hoth.
    + intros q Hq.
      assert (Hqdw : q ≠ dw).
      { intros ->. rewrite Hq in Hpar0. cbn in Hpar0. rewrite Hnew in Hpar0.
        by destruct Hpar0. }
      assert (Hqcs : q ∉ cs).
      { intros Hin. rewrite Hq in Hpar0. cbn in Hpar0.
        rewrite (Hfresh q Hin) in Hpar0. by destruct Hpar0. }
      rewrite unlink_lookup_parent by done.
      rewrite (Hoth' q Hqcs Hqdw), (Hpar q Hq).
      by destruct (heap w0 !! q).
Qed.

(** How [nih_dir_add_watch] ends: before anything is allocated, with
    the tree watch freed, or with the tree watch returned. *)
Lemma nih_dir_add_watch_ends E parent path subdirs filter ch mh dh data w r w1 :
  parent_allocated w parent -> registry_allocated w ->
  nih_dir_add_watch E parent path subdirs filter ch mh dh data w = Some (r, w1) ->
  let dw := fresh (dom (heap w)) in
  let d := mkDirWatch path subdirs filter ch mh dh data in
  (r = None /\ w1 = log_event E_error_raise_system w) \/
  (r = None /\ exists w', tree_built w parent dw d w' /\
                          nih_free dw w' = Some (tt, w1)) \/
  (r = Some dw /\ tree_built w parent dw d w1).
Proof.
  intros Hpar Hreg. unfold nih_dir_add_watch. rewrite run_get.
  destruct (node_stat (sys_fs E (trace w) path)) as [st_mode |];
    [| intros [= <- <-]; by left].
  destruct (S_ISDIR st_mode); cbn [negb]; [| intros [= <- <-]; by left].
  intros ([dw |] & w2 & Hnew & Hrun)%bind_Some; cycle 1.
  { unfold nih_new in Hnew. rewrite run_get in Hnew.
    destruct (sys_malloc_ok E (trace w)); [discriminate |].
    injection Hnew as <-. injection Hrun as <- <-. by left. }
  destruct (built_start E parent _ w dw w2 Hpar Hnew) as [-> HB2].
  cbv zeta.
  set (dw := fresh (dom (heap w))) in *.
  set (d := mkDirWatch path subdirs filter ch mh dh data) in *.
  apply bind_Some in Hrun as (r3 & w3 & Hadd & Hrun).
  pose proof (built_add_watch E w parent dw d path DIR_EVENTS dw Hreg Hpar
                w2 r3 w3 Hadd HB2) as HB3.
  destruct r3 as [root |]; cycle 1.
  { apply bind_Some in Hrun as ([] & w4 & Hfree & [= <- <-]).
    right. left. split; [done |]. by exists w3. }
  destruct (negb (subdirs =? 0)); [| injection Hrun as <- <-; by right; right].
  rewrite run_get in Hrun.
  apply bind_Some in Hrun as (r4 & w4 & Hwalk & Hrun).
  pose proof (built_walk E w parent dw d _ path S_IFDIR filter Hreg Hpar
                w3 r4 w4 Hwalk HB3) as HB4.
  destruct (r4 <? 0).
  - apply bind_Some in Hrun as ([] & w5 & Hfree & [= <- <-]).
    right. left. split; [done |]. by exists w4.
  - injection Hrun as <- <-. by right; right.
Qed.

(** X9: building a tree watch and freeing it again is a round trip.
    When [nih_dir_add_watch] returns a tree watch, the log has grown by
    the construction, in which the kernel was asked to remove nothing,
    and the registry by the watches the tree watch owns, one for each
    descriptor the kernel granted, in the order it granted them.
    [nih_free] of the tree watch then asks the kernel to remove exactly
    those descriptors, once each and in that order, and does nothing
    else that shows; the registry is back as it was before the
    construction, and so is every block of the heap, up to the child
    list of the parent. *)
Theorem X9_build_then_free_round_trip (E : Env) (parent : option ptr)
    (path : string) (subdirs : Z) (filter : option (string -> bool))
    (ch mh dh : option nat) (data : ptr) (w w1 : World) (dw : ptr) :
  parent_allocated w parent ->
  registry_allocated w ->
  nih_dir_add_watch E parent path subdirs filter ch mh dh data w
  = Some (Some dw, w1) ->
  exists cs construction w2,
    trace w1 = trace w ++ construction /\
    removed construction = [] /\
    file_watches w1 = file_watches w ++ cs /\
    map (wd_at w1) cs = granted construction /\
    nih_free dw w1 = Some (tt, w2) /\
    trace w2 = trace w1 ++ map (E_inotify_rm_watch (inotify_fd w1))
                               (granted construction) /\
    file_watches w2 = file_watches w /\
    (forall q, parent ≠ Some q -> heap w2 !! q = heap w !! q) /\
    (forall q, parent = Some q ->
               a_block <$> heap w2 !! q = a_block <$> heap w !! q).
Proof.
  intros Hpar Hreg Hrun.
  destruct (nih_dir_add_watch_ends E parent path subdirs filter ch mh dh data
              w _ w1 Hpar Hreg Hrun)
    as [[? _] | [[? _] | [Hdw (cs & tr & HB)]]]; [discriminate | discriminate |].
  injection Hdw as ->.
  destruct (built_free _ _ _ _ _ _ _ Hreg Hpar HB)
    as (w2 & Hfree & Htr2 & Hreg2 & _ & Hoth & Hq).
  exists cs, tr, w2. destruct HB. by repeat split.
Qed.

(** X10: a construction that fails leaks nothing.  When
    [nih_dir_add_watch] returns NULL, for whatever reason (the path
    cannot be examined or is no directory, no memory, the watch on the
    root refused, a directory of the tree that cannot be read), the
    registry is as it was, every block of the heap is as it was, up to
    the child list of the parent, nothing stays allocated, and every
    descriptor the kernel granted on the way has been removed again. *)
Theorem X10_failed_construction_leaks_nothing (E : Env) (parent : option ptr)
    (path : string) (subdirs : Z) (filter : option (string -> bool))
    (ch mh dh : option nat) (data : ptr) (w w1 : World) :
  parent_allocated w parent ->
  registry_allocated w ->
  nih_dir_add_watch E parent path subdirs filter ch mh dh data w
  = Some (None, w1) ->
  file_watches w1 = file_watches w /\
  (forall q, parent ≠ Some q -> heap w1 !! q = heap w !! q) /\
  (forall q, parent = Some q ->
             a_block <$> heap w1 !! q = a_block <$> heap w !! q) /\
  exists tr, trace w1 = trace w ++ tr /\ removed tr = granted tr.
Proof.
  intros Hpar Hreg Hrun.
  destruct (nih_dir_add_watch_ends E parent path subdirs filter ch mh dh data
              w _ w1 Hpar Hreg Hrun)
    as [[_ ->] | [[_ (w' & (cs & tr & HB) & Hfree)] | [? _]]]; [| | discriminate].
  - cbn. repeat split; try done. by exists [E_error_raise_system].
  - destruct (built_free _ _ _ _ _ _ _ Hreg Hpar HB)
      as (w2 & Hfree2 & Htr2 & Hreg2 & _ & Hoth & Hq).
    rewrite Hfree in Hfree2. injection Hfree2 as <-.
    split; [done |]. split; [done |]. split; [done |].
    exists (tr ++ map (E_inotify_rm_watch (inotify_fd w')) (granted tr)).
    destruct HB as [_ _ _ _ _ _ _ _ _ Htr _ Hrm].
    split; [by rewrite Htr2, Htr, app_assoc |].
    rewrite removed_app, granted_app, Hrm, removed_rm, granted_rm.
    by rewrite app_nil_r.
Qed.

Lemma X9_build_then_free_round_trip_witness :
  exists dw w1 w2,
    nih_dir_add_watch (env_tree true) None "/r" 1 None None None None 0 world_empty
    = Some (Some dw, w1) /\
    granted (trace w1) = [1; 2; 3] /\
    nih_free dw w1 = Some (tt, w2) /\
    removed (trace w2) = [1; 2; 3] /\
    file_watches w2 = [] /\ heap w2 = ∅.
Proof.
  destruct (nih_dir_add_watch (env_tree true) None "/r" 1 None None None None
              0%nat world_empty) as [[[dw |] w1] |] eqn:Hrun;
    try by vm_compute in Hrun.
  destruct (X9_build_then_free_round_trip (env_tree true) None "/r" 1 None None
              None None 0%nat world_empty w1 dw)
    as (cs & tr & w2 & Htr & Hrm & _ & _ & Hfree & Htr2 & Hreg2 & Hoth & _).
  - done.
  - intros q Hq. by apply elem_of_nil in Hq.
  - exact Hrun.
  - cbn in Htr. exists dw, w1, w2.
    assert (Hg : granted tr = [1; 2; 3]).
    { rewrite <- Htr. vm_compute in Hrun. by injection Hrun as _ <-. }
    split; [done |]. split; [by rewrite Htr |]. split; [exact Hfree |].
    split; [| split; [exact Hreg2 |]].
    + by rewrite Htr2, removed_app, removed_rm, Htr, Hrm, Hg.
    + apply map_eq. intros q. by apply Hoth.
Defined.

Lemma X10_failed_construction_leaks_nothing_witness :
  exists w1,
    nih_dir_add_watch env_locked None "/r" 1 None None None None 0 world_empty
    = Some (None, w1) /\
    granted (trace w1) = [1; 2] /\ removed (trace w1) = [1; 2] /\
    file_watches w1 = [] /\ heap w1 = ∅.
Proof.
  destruct (nih_dir_add_watch env_locked None "/r" 1 None None None None
              0%nat world_empty) as [[[dw |] w1] |] eqn:Hrun;
    try by vm_compute in Hrun.
  destruct (X10_failed_construction_leaks_nothing env_locked None "/r" 1 None
              None None None 0%nat world_empty w1)
    as (Hreg & Hoth & _ & _).
  - done.
  - intros q Hq. by apply elem_of_nil in Hq.
  - exact Hrun.
  - exists w1. split; [done |].
    split; [vm_compute in Hrun; by injection Hrun as <- |].
    split; [vm_compute in Hrun; by injection Hrun as <- |].
    split; [exact Hreg |]. apply map_eq. intros q. by apply Hoth.
Defined.

(** ** nih_dir_walk: failure *)

Lemma readdir_loop_fails_fast walk path types filter visitor ents :
  Forall (fun e => forall sp w r w',
            walk sp (snd e) w = Some (r, w') -> r < 0 ->
            walk_failure visitor r w') ents ->
  forall ret0 w r w',
    0 <= ret0 ->
    readdir_loop walk path types filter visitor ents ret0 w = Some (r, w') ->
    r < 0 -> walk_failure visitor r w'.
Proof.
  induction 1 as [| [d_name child] ents Hc Hents IH]; intros ret0 w r w' Hret.
  - cbn. intros [= <- <-]. lia.
  - cbn [readdir_loop]. destruct (is_dot d_name); [by apply IH |].
    cbv zeta. destruct (filtered filter _); [by apply IH |].
    destruct (node_stat child) as [st_mode |]; [| by apply IH].
    intros (r1 & w1 & Hvis & Hrun)%bind_Some.
    destruct (has_bits st_mode types) eqn:Hbits; cbn [andb] in Hrun.
    + destruct (Z.ltb_spec r1 0) as [Hneg | Hpos].
      { injection Hrun as <- <-. intros _. left. by eexists _, _. }
      apply bind_Some in Hrun as (r2 & w2 & Hsub & Hrun).
      destruct (S_ISDIR st_mode) eqn:Hdir; cbn [andb] in Hrun.
      * destruct (Z.ltb_spec r2 0) as [Hneg2 | Hpos2].
        { injection Hrun as <- <-. intros _. by eapply Hc. }
        by eapply IH.
      * injection Hsub as <- <-. by eapply IH.
    + injection Hvis as <- <-.
      apply bind_Some in Hrun as (r2 & w2 & Hsub & Hrun).
      destruct (S_ISDIR st_mode) eqn:Hdir; cbn [andb] in Hrun.
      * destruct (Z.ltb_spec r2 0) as [Hneg2 | Hpos2].
        { injection Hrun as <- <-. intros _. by eapply Hc. }
        by eapply IH.
      * injection Hsub as <- <-. by eapply IH.
Qed.

(** X11: a walk that fails stops at once.  Whenever [nih_dir_walk]
    returns a negative value, either that value is the answer of a call
    of the visitor and the world is the one that call left, or the
    value is -1, a directory could not be opened, and raising the
    system error for it was the last thing the walk did.  Nothing is
    visited, read or logged after the failure, whatever the tree, the
    filter and the visitor. *)
Theorem X11_walk_stops_at_first_failure (types : Z)
    (filter : option (string -> bool)) (visitor : string -> M Z)
    (node : Node) (path : string) (w w' : World) (r : Z) :
  nih_dir_walk path node types filter visitor w = Some (r, w') ->
  r < 0 ->
  walk_failure visitor r w'.
Proof.
  revert path w r w'.
  induction node as [st | st ents IH] using Node_nested_ind; intros path w r w'.
  - cbn. intros [= <- <-] _. right. split; [done |]. by exists w.
  - cbn [nih_dir_walk]. intros Hrun Hneg.
    eapply readdir_loop_fails_fast; [| | exact Hrun | exact Hneg]; [| done].
    eapply Forall_impl; [exact IH |]. intros [d_name child] Hc sp w0 r0 w0'.
    apply Hc.
Qed.

Lemma X11_walk_stops_at_first_failure_witness :
  exists w',
    nih_dir_walk "/r" (sys_fs env_locked [] "/r") S_IFDIR None
                 (nih_dir_add_file_watch env_locked 1) world_tree
    = Some (-1, w') /\
    walk_failure (nih_dir_add_file_watch env_locked 1) (-1) w'.
Proof.
  destruct (nih_dir_walk "/r" (sys_fs env_locked [] "/r") S_IFDIR None
              (nih_dir_add_file_watch env_locked 1) world_tree)
    as [[r w'] |] eqn:Hrun; [| by vm_compute in Hrun].
  assert (r = -1) as -> by (vm_compute in Hrun; by injection Hrun as <- _).
  exists w'. split; [done |].
  apply (X11_walk_stops_at_first_failure S_IFDIR None
           (nih_dir_add_file_watch env_locked 1) (sys_fs env_locked [] "/r")
           "/r" world_tree w' (-1) Hrun).
  lia.
Defined.

(** ** nih_dir_add_watch: what the kernel is asked for *)

Lemma requests_app tr1 tr2 : requests (tr1 ++ tr2) = requests tr1 ++ requests tr2.
Proof. apply omap_app. Qed.

Lemma init_world_id E w : 0 <= inotify_fd w -> init_world E w = w.
Proof.
  intros Hfd. unfold init_world.
  by destruct (Z.eqb_spec (inotify_fd w) (-1)); [lia |].
Qed.

(** With a descriptor and memory, [nih_dir_add_file_watch] asks the
    kernel once, for the path it was given. *)
Lemma nih_dir_add_file_watch_asks E dw p w :
  (forall tr, sys_malloc_ok E tr = true) ->
  is_Some (heap w !! dw) -> 0 <= inotify_fd w ->
  exists w' tr,
    nih_dir_add_file_watch E dw p w = Some (0, w') /\
    is_Some (heap w' !! dw) /\ 0 <= inotify_fd w' /\
    trace w' = trace w ++ tr /\ requests tr = [p].
Proof.
  intros Hmem Hdw Hfd. unfold nih_dir_add_file_watch.
  pose proof (init_world_id E w Hfd) as Hinit.
  destruct (Z.ltb_spec (add_watch_answer E w p DIR_EVENTS) 0) as [Hneg | Hpos].
  - destruct (nih_file_add_watch_refused_any E (Some dw) p DIR_EVENTS
                W_nih_dir_watcher dw w DIR_EVENTS_nonzero Hdw)
      as (w1 & Hrun & Htr & _ & Hfd1 & _ & _ & Hq); [by rewrite Hinit | done | done |].
    rewrite (bind_run _ _ _ _ _ Hrun), run_log, Hinit in *.
    eexists _, _. split; [reflexivity |]. cbn [heap inotify_fd trace log_event].
    split; [| split; [lia |]].
    + rewrite (Hq dw eq_refl). destruct Hdw as [a ->]. by eexists.
    + rewrite Htr, <- app_assoc. by split.
  - destruct (nih_file_add_watch_granted_any E (Some dw) p DIR_EVENTS
                W_nih_dir_watcher dw w DIR_EVENTS_nonzero Hdw)
      as (w1 & Hrun & Htr & _ & Hfd1 & _ & _ & _ & Hq); [by rewrite Hinit | done | done |].
    rewrite (bind_run _ _ _ _ _ Hrun), Hinit in *.
    eexists _, _. split; [reflexivity |].
    split; [| split; [lia |]].
    + rewrite (Hq dw eq_refl). destruct Hdw as [a ->]. by eexists.
    + rewrite Htr. by split.
Qed.

Lemma visit_until_asks E dw l :
  (forall tr, sys_malloc_ok E tr = true) ->
  forall w,
    is_Some (heap w !! dw) -> 0 <= inotify_fd w ->
    exists w' tr,
      visit_until (nih_dir_add_file_watch E dw) l 0 w = Some (0, w') /\
      trace w' = trace w ++ tr /\ requests tr = l.
Proof.
  intros Hmem. induction l as [| p l IH]; intros w Hdw Hfd.
  - exists w, []. by rewrite app_nil_r.
  - destruct (nih_dir_add_file_watch_asks E dw p w Hmem Hdw Hfd)
      as (w1 & tr1 & Hrun1 & Hdw1 & Hfd1 & Htr1 & Hreq1).
    destruct (IH w1 Hdw1 Hfd1) as (w2 & tr2 & Hrun2 & Htr2 & Hreq2).
    exists w2, (tr1 ++ tr2). cbn [visit_until].
    rewrite (bind_run _ _ _ _ _ Hrun1). cbn.
    split; [exact Hrun2 |]. split; [by rewrite Htr2, Htr1, app_assoc |].
    by rewrite requests_app, Hreq1, Hreq2.
Qed.

(** X12: what a construction asks the kernel for.  With memory at hand,
    an inotify descriptor, a root that is a directory and whose watch
    the kernel grants, and a tree whose directories all open,
    [nih_dir_add_watch] returns a tree watch, and the watches it asked
    the kernel for are, in this order: the root, and then, if [subdirs]
    is set, each directory of the pre-order listing of the tree that
    the filter lets through, whether or not the kernel grants it.
    Without [subdirs] the root is the only request. *)
Theorem X12_construction_requests (E : Env) (parent : option ptr)
    (path : string) (subdirs : Z) (filter : option (string -> bool))
    (ch mh dh : option nat) (data : ptr) (w : World) (node : Node)
    (st_mode : Z) :
  (forall tr, sys_malloc_ok E tr = true) ->
  (forall tr, sys_fs E tr path = node) ->
  node_stat node = Some st_mode -> S_ISDIR st_mode = true ->
  dirs_open node = true ->
  parent_allocated w parent ->
  0 <= inotify_fd w ->
  0 <= sys_inotify_add_watch E (trace w) (inotify_fd w) path DIR_EVENTS ->
  exists dw w' tr,
    nih_dir_add_watch E parent path subdirs filter ch mh dh data w
    = Some (Some dw, w') /\
    trace w' = trace w ++ tr /\
    requests tr
    = path :: (if subdirs =? 0 then []
               else walk_order path node S_IFDIR filter).
Proof.
  intros Hmem Hfs Hstat Hdir Hopen Hpar Hfd Hroot.
  unfold nih_dir_add_watch. rewrite run_get, Hfs, Hstat, Hdir. cbn [negb].
  destruct (nih_new_allocates E parent
              (BDir (mkDirWatch path subdirs filter ch mh dh data)) w (Hmem _))
    as (w1 & Hnew & Hdw & Htr1 & Hfd1).
  rewrite (bind_run _ _ _ _ _ Hnew).
  set (dw := fresh (dom (heap w))) in *.
  assert (Hinit : init_world E w1 = w1) by (apply init_world_id; lia).
  destruct (nih_file_add_watch_granted_any E (Some dw) path DIR_EVENTS
              W_nih_dir_watcher dw w1 DIR_EVENTS_nonzero Hdw)
    as (w2 & Hadd & Htr2 & _ & Hfd2 & _ & _ & _ & Hq).
  { rewrite Hinit. lia. }
  { apply Hmem. }
  { unfold add_watch_answer. rewrite Hinit, Htr1, Hfd1. exact Hroot. }
  rewrite (bind_run _ _ _ _ _ Hadd). rewrite Hinit in Htr2, Hfd2.
  assert (Hdw2 : is_Some (heap w2 !! dw)).
  { rewrite (Hq dw eq_refl). destruct Hdw as [a ->]. by eexists. }
  destruct (subdirs =? 0); cbn [negb].
  - eexists dw, w2, _. split; [reflexivity |].
    split; [by rewrite Htr2, Htr1 | done].
  - rewrite run_get, Hfs.
    rewrite (bind_same _ _ _ _
               (nih_dir_walk_refines S_IFDIR filter _
                  (nih_dir_add_file_watch_zero E dw) node path w2 Hopen)).
    destruct (visit_until_asks E dw (walk_order path node S_IFDIR filter) Hmem w2)
      as (w3 & tr3 & Hwalk & Htr3 & Hreq3); [done | lia |].
    rewrite (bind_run _ _ _ _ _ Hwalk). cbn.
    eexists dw, w3, _. split; [reflexivity |].
    split; [by rewrite Htr3, Htr2, Htr1, <- app_assoc |].
    by rewrite requests_app, Hreq3.
Qed.

Lemma X12_construction_requests_witness :
  exists dw w' tr,
    nih_dir_add_watch (env_tree false) None "/r" 1 None None None None 0
                      world_single
    = Some (Some dw, w') /\
    trace w' = tr /\ requests tr = ["/r"; "/r/d"; "/r/d/e"]%string.
Proof.
  destruct (X12_construction_requests (env_tree false) None "/r" 1 None None
              None None 0%nat world_single node_r dir_mode)
    as (dw & w' & tr & Hrun & Htr & Hreq); try done.
  by exists dw, w', tr.
Defined.

(** ** nih_dir_watcher: events with a name *)

Lemma extends_internally_refl w : extends_internally (trace w) w.
Proof. exists []. by rewrite app_nil_r. Qed.

Lemma extends_internally_log tr e w :
  is_internal e = true ->
  extends_internally tr w -> extends_internally tr (log_event e w).
Proof.
  intros He (rest & Htr & Hint). exists (rest ++ [e]). cbn.
  rewrite Htr, app_assoc. split; [done |].
  rewrite forallb_app, Hint. cbn. by rewrite He.
Qed.

Lemma call_handler_run h e w :
  call_handler h e w
  = Some (tt, mkWorld (heap w) (file_watches w) (inotify_fd w) (io_recv_buf w)
                      (trace w ++ match h with Some f => [e f] | None => [] end)).
Proof.
  unfold call_handler. destruct h as [f |]; [done |].
  unfold ret. rewrite app_nil_r. by destruct w.
Qed.

(** X13: what an event with a name does.  For an event that is neither
    'invalidated' nor 'moved-self' and names an entry of the watched
    directory, [nih_dir_watcher] returns.  If the filter excludes the
    entry's path, nothing at all happens.  Otherwise at most one
    handler is called, with the path made of the directory's path and
    the name: the create handler for 'created' or 'moved-in', else the
    modify handler for 'modified', else the delete handler for
    'deleted' or 'moved-out', and none for any other kind or when the
    handler is NULL.  What is logged after that call is internal
    (kernel requests, raised errors, warnings), and unless the event is
    a creation nothing is: heap, registry and descriptor are as they
    were. *)
Theorem X13_named_event_calls_one_handler (E : Env) (dir_watch file_watch : ptr)
    (events cookie : Z) (name : string) (w : World)
    (adw : Alloc) (d : NihDirWatch) (afw : Alloc) (fw : NihFileWatch) :
  heap w !! dir_watch = Some adw -> a_block adw = BDir d ->
  heap w !! file_watch = Some afw -> a_block afw = BFile fw ->
  events ≠ 0 ->
  has_bits events IN_IGNORED || has_bits events IN_MOVE_SELF = false ->
  let p := subpath_of (path fw) name in
  exists w',
    nih_dir_watcher E dir_watch file_watch events cookie (Some name) w
    = Some (tt, w') /\
    (filtered (filter d) p = true -> w' = w) /\
    (filtered (filter d) p = false ->
     extends_internally (trace w ++ handler_calls d dir_watch p events) w' /\
     (has_bits events IN_CREATE || has_bits events IN_MOVED_TO = false ->
      w' = mkWorld (heap w) (file_watches w) (inotify_fd w) (io_recv_buf w)
                   (trace w ++ handler_calls d dir_watch p events))).
Proof.
  intros Hdw Hbd Hfw Hbf Hev Hgone p. unfold nih_dir_watcher.
  apply Z.eqb_neq in Hev. rewrite Hev. unfold nih_assert. cbn [negb].
  rewrite run_ret.
  rewrite (run_load_dir _ _ _ _ _ Hdw Hbd), (run_load_file _ _ _ _ _ Hfw Hbf).
  rewrite Hgone. cbv zeta. fold p.
  destruct (filtered (filter d) p) eqn:Hfilt.
  { exists w. by repeat split. }
  destruct (has_bits events IN_CREATE || has_bits events IN_MOVED_TO) eqn:Hcreate.
  - unfold handler_calls. rewrite Hcreate.
    rewrite (bind_run _ _ _ _ _ (call_handler_run _ _ _)), run_get.
    set (calls := match create_handler d with
                  | Some h => [E_create_handler h (d_data d) dir_watch p]
                  | None => []
                  end).
    set (w1 := mkWorld (heap w) (file_watches w) (inotify_fd w) (io_recv_buf w)
                       (trace w ++ calls)).
    set (I := fun w0 : World => is_Some (heap w0 !! dir_watch) /\
                                extends_internally (trace w1) w0).
    assert (HI1 : I w1).
    { split; [by cbn; rewrite Hdw | apply extends_internally_refl]. }
    assert (Hvis : forall sp w0, I w0 ->
              exists w0', nih_dir_add_file_watch E dir_watch sp w0 = Some (0, w0')
                          /\ I w0').
    { intros sp w0 [Ha Hx].
      destruct (nih_dir_add_file_watch_total E dir_watch sp w0 Ha)
        as (w0' & Hrun & Ha').
      exists w0'. split; [exact Hrun |]. split; [exact Ha' |].
      eapply (keeps_nih_dir_add_file_watch (extends_internally (trace w1))
                (fun e => is_internal e = true));
        [| | | | | exact Hrun | exact Hx]; try done.
      intros e w2. apply extends_internally_log. }
    assert (Hend : forall w0, I w0 ->
              exists w', Some (tt, w0) = Some (tt, w') /\
                (false = true -> w' = w) /\
                (false = false ->
                 extends_internally (trace w ++ calls) w' /\
                 (true = false -> w' = w1))).
    { intros w0 [_ Hx]. exists w0. by repeat split. }
    destruct (if negb (subdirs d =? 0) then _ else _) as [st_mode |];
      [| by apply Hend].
    destruct (S_ISDIR st_mode); [| by apply Hend].
    destruct (Hvis p w1 HI1) as (w2 & Hrun2 & HI2).
    rewrite (bind_run _ _ _ _ _ Hrun2).
    destruct (nih_dir_walk_returns I S_IFDIR (filter d)
                (nih_dir_add_file_watch E dir_watch) Hvis)
      with (node := sys_fs E (trace w1) p) (path := p) (w := w2)
      as (r & w3 & Hrun3 & HI3).
    + intros w0 [Ha Hx]. split; [done |]. by apply extends_internally_log.
    + exact HI2.
    + rewrite (bind_run _ _ _ _ _ Hrun3). by apply Hend.
  - exists (mkWorld (heap w) (file_watches w) (inotify_fd w) (io_recv_buf w)
                    (trace w ++ handler_calls d dir_watch p events)).
    split; [| split; [done |]].
    + unfold handler_calls. rewrite Hcreate.
      destruct (has_bits events IN_MODIFY); [apply call_handler_run |].
      destruct (has_bits events IN_DELETE || has_bits events IN_MOVED_FROM);
        [apply call_handler_run |].
      unfold ret. rewrite app_nil_r. by destruct w.
    + intros _. split; [| done].
      apply (extends_internally_refl (mkWorld _ _ _ _ _)).
Qed.

Lemma X13_named_event_calls_one_handler_witness :
  exists w',
    nih_dir_watcher env_plain 1 3 (Z.lor IN_CREATE (Z.lor IN_MODIFY IN_DELETE))
                    0 (Some "x"%string) world_tree
    = Some (tt, w') /\
    extends_internally [E_create_handler 11 0 1 "/r/d/x"] w'.
Proof.
  destruct (X13_named_event_calls_one_handler env_plain 1 3
              (Z.lor IN_CREATE (Z.lor IN_MODIFY IN_DELETE)) 0 "x" world_tree
              _ dw_tree _ _ eq_refl eq_refl eq_refl eq_refl)
    as (w' & Hrun & _ & Hcalls); [done | done |].
  exists w'. split; [exact Hrun |]. by apply Hcalls.
Defined.

(** ** nih_file_reader and nih_dir_watcher: an event without a name *)

Lemma nih_dir_watcher_nameless E dir_watch file_watch events cookie w adw d afw fw :
  heap w !! dir_watch = Some adw -> a_block adw = BDir d ->
  heap w !! file_watch = Some afw -> a_block afw = BFile fw ->
  has_bits events IN_IGNORED || has_bits events IN_MOVE_SELF = false ->
  nih_dir_watcher E dir_watch file_watch events cookie None w = None.
Proof.
  intros Hdw Hbd Hfw Hbf Hgone. unfold nih_dir_watcher.
  destruct (events =? 0); [done |]. unfold nih_assert. cbn [negb].
  rewrite run_ret.
  rewrite (run_load_dir _ _ _ _ _ Hdw Hbd), (run_load_file _ _ _ _ _ Hfw Hbf).
  by rewrite Hgone.
Qed.

(** X14: an event without a name stops the program, unless it is
    'invalidated' or 'moved-self'.  When the record at the front of the
    receive buffer declares no name, its mask has neither of those two
    bits, and the first registered watch that holds its descriptor
    belongs to a tree watch, the pass of [nih_file_reader] does not
    return: [nih_dir_watcher] is entered and its assertion that every
    other event comes with a name fails.  Nothing in the mask of a tree
    watch asks for such events, but the kernel sends some unasked
    ('unmounted', for one). *)
Theorem X14_nameless_event_stops_the_reader (E : Env) (len : Z) (w : World)
    (event : inotify_event) (pre post : list ptr) (watch : ptr)
    (a : Alloc) (f : NihFileWatch) (adw : Alloc) (d : NihDirWatch) :
  len = Z.of_nat (length (io_recv_buf w)) ->
  len < SIZE_MAX1 ->
  decode_event (io_recv_buf w) = Some event ->
  ev_len event = 0 ->
  has_bits (ev_mask event) IN_IGNORED || has_bits (ev_mask event) IN_MOVE_SELF
  = false ->
  registry_allocated w ->
  file_watches w = pre ++ watch :: post ->
  (forall q, q ∈ pre -> wd_at w q ≠ ev_wd event) ->
  heap w !! watch = Some a -> a_block a = BFile f -> wd f = ev_wd event ->
  watcher f = W_nih_dir_watcher ->
  heap w !! data f = Some adw -> a_block adw = BDir d ->
  nih_file_reader E len w = None.
Proof.
  intros Hlen Hmax Hdec Hnoname Hgone Hreg Hsplit Hpre Ha Hb Hwd Hwatcher
         Hdw Hbd.
  pose proof (decode_event_length _ _ Hdec) as Hbuf.
  destruct (decode_event_Some _ _ Hdec) as (_ & _ & _ & Hev & _).
  assert (Hpos : 0 < len) by lia.
  unfold nih_file_reader, nih_assert.
  destruct (Z.ltb_spec 0 len) as [_ |]; [| lia]. rewrite run_ret.
  assert (Hfuel : exists k, Z.to_nat len = S k).
  { exists (Z.to_nat len - 1)%nat. lia. }
  destruct Hfuel as [k ->]. rewrite reader_loop_S by done.
  rewrite Hdec, (record_size_small event Hev), Hnoname.
  unfold sizeof_inotify_event.
  destruct (Z.ltb_spec len 16) as [| _]; [lia |].
  destruct (Z.ltb_spec len (16 + 0)) as [| _]; [lia |].
  rewrite (bind_run _ _ _ _ _ (nih_io_read_run _ _)). cbn [fst snd].
  rewrite <- Hlen, Z.min_l by lia.
  destruct (take_record _ _ Hdec) as [Hd _].
  { unfold sizeof_inotify_event. lia. }
  unfold sizeof_inotify_event in Hd. rewrite Hnoname in Hd. rewrite Hd.
  rewrite run_get. apply bind_fail.
  cbn [file_watches set_io_recv_buf]. rewrite Hsplit, dispatch_skip.
  - cbn [dispatch].
    rewrite (run_load_file watch _ _ a f) by done.
    cbn [event_of_record ev_wd]. rewrite Hwd, Z.eqb_refl. cbn [negb].
    unfold call_watcher. rewrite Hwatcher.
    unfold event_name. cbn [event_of_record ev_len ev_mask]. rewrite Hnoname.
    cbn [Z.eqb].
    by apply (nih_dir_watcher_nameless E (data f) watch _ _ _ adw d a f).
  - intros q Hq. destruct (Hreg q) as (a' & f' & Ha' & Hb').
    { rewrite Hsplit, elem_of_app. by left. }
    exists a', f'. split; [done |]. split; [done |].
    rewrite <- (wd_at_file w q a' f' Ha' Hb'). by apply Hpre.
Qed.

Lemma X14_nameless_event_stops_the_reader_witness :
  nih_file_reader env_plain 16 world_unmount = None.
Proof.
  apply (X14_nameless_event_stops_the_reader env_plain 16 world_unmount
           (mkEvent 2 0x2000 0 0 []) [2%nat] [] 3%nat
           (mkAlloc (BFile (mkFileWatch 2 "/r/d" DIR_EVENTS W_nih_dir_watcher 1%nat))
                    (Some 1%nat) [] (Some D_nih_file_remove_watch))
           (mkFileWatch 2 "/r/d" DIR_EVENTS W_nih_dir_watcher 1%nat)
           (mkAlloc (BDir dw_tree) None [2%nat; 3%nat] None) dw_tree);
    try reflexivity.
  - intros q Hq. cbn in Hq. list_cases Hq; eexists _, _; split; reflexivity.
  - intros q Hq. list_cases Hq. by vm_compute.
Defined.

(** ** nih_file_map and nih_file_unmap: arguments and results *)

(** X15: the arguments of [nih_file_map] and what it hands back.  An
    access mode other than read-only and read-write fails the assertion
    before the file is opened.  Otherwise the first thing done is the
    [open] of the path with the caller's flags.  If [open] or [fstat]
    fails, [mmap] is never called and the caller's [*length] keeps its
    value.  Once [fstat] has answered, [*length] is the size of the
    file as a [size_t], [mmap] is called exactly once, for that length,
    shared, on the open descriptor, with read protection and, for
    read-write only, write protection, and its answer is the result. *)
Theorem X15_file_map_arguments_and_length (E : Env) (path : string)
    (flags length : Z) (w : World) :
  (map_flags_ok flags = false -> nih_file_map E path flags length w = None) /\
  (map_flags_ok flags = true ->
   let fd := sys_open E (trace w) path flags in
   let tr1 := trace w ++ [E_open path flags fd] in
   exists r len' evs,
     nih_file_map E path flags length w
     = Some ((r, len'),
             mkWorld (heap w) (file_watches w) (inotify_fd w) (io_recv_buf w)
                     (tr1 ++ evs)) /\
     match (if fd <? 0 then None else sys_fstat E tr1 fd) with
     | None => r = None /\ len' = length /\ List.filter is_mmap evs = []
     | Some st_size =>
       len' = to_size_t st_size /\
       r = sys_mmap E tr1 len' (map_prot flags) MAP_SHARED fd /\
       List.filter is_mmap evs = [E_mmap len' (map_prot flags) MAP_SHARED fd r]
     end).
Proof.
  unfold map_flags_ok, nih_file_map. fold (map_prot flags). split.
  - intros ->. reflexivity.
  - intros ->. cbv zeta.
    unfold nih_assert, nih_error_raise_system, log, modify, get, bind, ret. cbn.
    remember (sys_open E (trace w) path flags) as fd eqn:Hfd0. clear Hfd0.
    destruct (Z.ltb_spec fd 0) as [Hfd | Hfd]; unfold log_event; cbn.
    { by eexists None, length, [_]. }
    destruct (sys_fstat E (trace w ++ [E_open path flags fd]) fd)
      as [st_size |]; cbn.
    + destruct (sys_mmap E (trace w ++ [E_open path flags fd])
                  (to_size_t st_size) (map_prot flags) MAP_SHARED fd)
        as [m |] eqn:Hmap; cbn.
      * eexists (Some m), (to_size_t st_size), [_; _].
        split; [by rewrite <- !app_assoc | done].
      * eexists None, (to_size_t st_size), [_; _; _].
        split; [by rewrite <- !app_assoc | done].
    + eexists None, length, [_; _].
      split; [by rewrite <- !app_assoc | done].
Qed.

Lemma X15_file_map_arguments_and_length_witness :
  nih_file_map (env_file (Some 4242)) "/etc/fstab" 1 0 world_empty = None /\
  exists w',
    nih_file_map (env_file (Some 4242)) "/etc/fstab" O_RDWR 0 world_empty
    = Some ((Some 4242, 4096), w') /\
    E_mmap 4096 3 MAP_SHARED 4 (Some 4242) ∈ trace w'.
Proof.
  split.
  - by apply (X15_file_map_arguments_and_length (env_file (Some 4242))
                "/etc/fstab" 1 0 world_empty).
  - destruct (X15_file_map_arguments_and_length (env_file (Some 4242))
                "/etc/fstab" O_RDWR 0 world_empty) as [_ Hok].
    destruct (Hok eq_refl) as (r & len' & evs & Hrun & Hlen & Hr & Hmap).
    cbn in Hlen, Hr. subst r len'. eexists. split; [exact Hrun |].
    cbn [trace]. rewrite !elem_of_app. right.
    apply list_elem_of_In.
    apply (proj1 (List.filter_In is_mmap _ evs)). rewrite Hmap. by left.
Defined.



(** ** nih_dir_watcher: the tree watch stays in order *)

Lemma load_file_same p w f w1 : load_file p w = Some (f, w1) -> w1 = w.
Proof.
  unfold load_file, load, bind.
  destruct (heap w !! p) as [a |]; [| done].
  destruct (a_block a); [by intros [= _ <-] | done].
Qed.

(** An event with a name leaves a construction one: the watches it adds
    are owned and registered like those of the construction itself. *)
Lemma built_named_event E w0 parent dw d fw events cookie name :
  registry_allocated w0 -> parent_allocated w0 parent ->
  is_gone events = false ->
  keeps (tree_built w0 parent dw d)
        (nih_dir_watcher E dw fw events cookie (Some name)).
Proof.
  intros Hreg0 Hpar0 Hgone w [] w' Hrun HB.
  assert (Hblock : exists a, heap w !! dw = Some a /\ a_block a = BDir d).
  { destruct HB as (cs & tr & [Hb _ _ _ _ _ _ _ _ _ _ _]). by eexists. }
  destruct Hblock as (adw & Hdw & Hbd).
  unfold nih_dir_watcher in Hrun.
  destruct (negb (events =? 0)); [| discriminate].
  unfold nih_assert in Hrun. rewrite run_ret in Hrun.
  rewrite (run_load_dir dw _ w adw d Hdw Hbd) in Hrun.
  apply bind_Some in Hrun as (f & w1 & Hload & Hrun).
  apply load_file_same in Hload as ->.
  unfold is_gone in Hgone. rewrite Hgone in Hrun. cbv zeta in Hrun.
  set (p := subpath_of (path f) name) in *.
  assert (Hcall : forall h e w2,
            (forall x, granted [e x] = [] /\ removed [e x] = []) ->
            call_handler h e w = Some (tt, w2) ->
            tree_built w0 parent dw d w2).
  { intros h e w2 He. rewrite call_handler_run. intros [= <-].
    destruct HB as (cs & tr & HB). eexists cs, _.
    eapply (built_log w0 parent dw d cs tr w); [done | done | reflexivity | | | done];
      destruct h; try done; apply He. }
  destruct (filtered (filter d) p); [by injection Hrun as <- |].
  destruct (has_bits events IN_CREATE || has_bits events IN_MOVED_TO).
  - apply bind_Some in Hrun as ([] & w1 & Hh & Hrun).
    apply Hcall in Hh; [| done]. rewrite run_get in Hrun.
    destruct (if negb (subdirs d =? 0) then _ else _) as [st_mode |];
      [| by injection Hrun as <-].
    destruct (S_ISDIR st_mode); [| by injection Hrun as <-].
    apply bind_Some in Hrun as (r2 & w2 & Hadd & Hrun).
    apply bind_Some in Hrun as (r3 & w3 & Hwalk & [= <-]).
    eapply built_walk; [done | done | exact Hwalk |].
    eapply built_add_file_watch; [done | done | exact Hadd | exact Hh].
  - destruct (has_bits events IN_MODIFY); [by eapply Hcall; [| exact Hrun] |].
    destruct (has_bits events IN_DELETE || has_bits events IN_MOVED_FROM);
      [by eapply Hcall; [| exact Hrun] |].
    by injection Hrun as <-.
Qed.

Lemma built_deliver E w0 parent dw d evs :
  registry_allocated w0 -> parent_allocated w0 parent ->
  Forall (fun e => is_gone (ne_events e) = false) evs ->
  keeps (tree_built w0 parent dw d) (deliver E dw evs).
Proof.
  intros Hreg0 Hpar0. unfold deliver.
  induction 1 as [| e evs He Hevs IH]; intros w [] w'.
  - by intros [= <-].
  - cbn [for_each]. intros ([] & w1 & Hone & Hrest)%bind_Some HB.
    eapply IH; [exact Hrest |].
    eapply built_named_event; [done | done | exact He | exact Hone | exact HB].
Qed.

(** X17: a tree watch stays in order under the events it handles.
    After [nih_dir_add_watch] has returned a tree watch, and
    [nih_dir_watcher] has handled any number of events with a name for
    it (creations included, which add watches for new directories),
    [nih_free] of the tree watch still undoes everything: the kernel is
    asked to remove each descriptor it ever granted for the tree watch,
    once, in the order of the grants, the registry is as it was before
    the construction, and so is the heap, up to the child list of the
    parent. *)
Theorem X17_free_after_events_undoes_all (E : Env) (parent : option ptr)
    (path : string) (subdirs : Z) (filter : option (string -> bool))
    (ch mh dh : option nat) (data : ptr) (evs : list NamedEvent)
    (w w1 w2 : World) (dw : ptr) :
  parent_allocated w parent ->
  registry_allocated w ->
  nih_dir_add_watch E parent path subdirs filter ch mh dh data w
  = Some (Some dw, w1) ->
  Forall (fun e => is_gone (ne_events e) = false) evs ->
  deliver E dw evs w1 = Some (tt, w2) ->
  exists since w3,
    trace w2 = trace w ++ since /\
    removed since = [] /\
    nih_free dw w2 = Some (tt, w3) /\
    trace w3 = trace w2 ++ map (E_inotify_rm_watch (inotify_fd w2))
                               (granted since) /\
    file_watches w3 = file_watches w /\
    (forall q, parent ≠ Some q -> heap w3 !! q = heap w !! q) /\
    (forall q, parent = Some q ->
               a_block <$> heap w3 !! q = a_block <$> heap w !! q).
Proof.
  intros Hpar Hreg Hrun Hevs Hdel.
  destruct (nih_dir_add_watch_ends E parent path subdirs filter ch mh dh data
              w _ w1 Hpar Hreg Hrun)
    as [[? _] | [[? _] | [Hdw HB1]]]; [discriminate | discriminate |].
  injection Hdw as ->.
  destruct (built_deliver E w parent _ _ evs Hreg Hpar Hevs w1 tt w2 Hdel HB1)
    as (cs & tr & HB2).
  destruct (built_free _ _ _ _ _ _ _ Hreg Hpar HB2)
    as (w3 & Hfree & Htr3 & Hreg3 & _ & Hoth & Hq).
  exists tr, w3. destruct HB2. by repeat split.
Qed.

Lemma X17_free_after_events_undoes_all_witness :
  exists dw w1 w2 w3,
    nih_dir_add_watch (env_tree true) None "/r" 1 None None None None 0 world_empty
    = Some (Some dw, w1) /\
    deliver (env_tree true) dw [mkNamedEvent 1 IN_CREATE 0 "d"] w1
    = Some (tt, w2) /\
    granted (trace w2) = [1; 2; 3; 4; 5] /\
    nih_free dw w2 = Some (tt, w3) /\
    removed (trace w3) = [1; 2; 3; 4; 5] /\
    file_watches w3 = [].
Proof.
  destruct (nih_dir_add_watch (env_tree true) None "/r" 1 None None None None
              0%nat world_empty) as [[[dw |] w1] |] eqn:Hrun;
    try by vm_compute in Hrun.
  assert (dw = 0%nat) as ->.
  { vm_compute in Hrun. by injection Hrun as <- _. }
  destruct (deliver (env_tree true) 0 [mkNamedEvent 1 IN_CREATE 0 "d"] w1)
    as [[[] w2] |] eqn:Hdel.
  2:{ vm_compute in Hrun. injection Hrun as <-. by vm_compute in Hdel. }
  destruct (X17_free_after_events_undoes_all (env_tree true) None "/r" 1 None
              None None None 0%nat [mkNamedEvent 1 IN_CREATE 0 "d"]
              world_empty w1 w2 0%nat)
    as (tr & w3 & Htr & Hrm & Hfree & Htr3 & Hreg3 & _).
  - done.
  - intros q Hq. by apply elem_of_nil in Hq.
  - exact Hrun.
  - by constructor.
  - exact Hdel.
  - cbn in Htr.
    assert (Hg : granted tr = [1; 2; 3; 4; 5]).
    { rewrite <- Htr. vm_compute in Hrun. injection Hrun as <-.
      vm_compute in Hdel. by injection Hdel as <-. }
    exists 0%nat, w1, w2, w3. split; [done |]. split; [done |].
    split; [by rewrite Htr |]. split; [exact Hfree |].
    split; [| exact Hreg3].
    by rewrite Htr3, removed_app, removed_rm, Htr, Hrm, Hg.
Defined.

(** X18: a directory that appears in a tree watched with [subdirs] is
    watched in turn, with everything under it.  For a 'created' or
    'moved-in' event whose path the filter lets through and which
    [stat] shows as a directory, [nih_dir_watcher] calls the create
    handler, if there is one, and then asks the kernel for a watch on
    the new directory and on each directory of the pre-order listing of
    what lies under it, in that order (with memory and an inotify
    descriptor at hand, and all directories under it readable). *)
Theorem X18_new_directory_is_watched (E : Env) (dir_watch file_watch : ptr)
    (events cookie : Z) (name : string) (w : World)
    (adw : Alloc) (d : NihDirWatch) (afw : Alloc) (fw : NihFileWatch)
    (node : Node) (st_mode : Z) :
  (forall tr, sys_malloc_ok E tr = true) ->
  heap w !! dir_watch = Some adw -> a_block adw = BDir d ->
  heap w !! file_watch = Some afw -> a_block afw = BFile fw ->
  0 <= inotify_fd w ->
  is_gone events = false ->
  has_bits events IN_CREATE || has_bits events IN_MOVED_TO = true ->
  let p := subpath_of (path fw) name in
  filtered (filter d) p = false ->
  subdirs d ≠ 0 ->
  (forall tr, sys_fs E tr p = node) ->
  node_stat node = Some st_mode -> S_ISDIR st_mode = true ->
  dirs_open node = true ->
  exists w' tr,
    nih_dir_watcher E dir_watch file_watch events cookie (Some name) w
    = Some (tt, w') /\
    trace w' = trace w ++ handler_calls d dir_watch p events ++ tr /\
    requests tr = p :: walk_order p node S_IFDIR (filter d).
Proof.
  intros Hmem Hdw Hbd Hfw Hbf Hfd Hgone Hcreate p Hfilt Hsub Hfs Hstat Hdir Hopen.
  unfold nih_dir_watcher.
  assert (Hnz : negb (events =? 0) = true).
  { apply orb_true_iff in Hcreate as [H | H]; eapply has_bits_nonzero; eauto. }
  rewrite Hnz. unfold nih_assert. rewrite run_ret.
  rewrite (run_load_dir _ _ _ _ _ Hdw Hbd), (run_load_file _ _ _ _ _ Hfw Hbf).
  unfold is_gone in Hgone. rewrite Hgone. cbv zeta. fold p.
  rewrite Hfilt. unfold handler_calls. rewrite Hcreate.
  rewrite (bind_run _ _ _ _ _ (call_handler_run _ _ _)), run_get.
  set (calls := match create_handler d with
                | Some h => [E_create_handler h (d_data d) dir_watch p]
                | None => []
                end).
  set (w1 := mkWorld (heap w) (file_watches w) (inotify_fd w) (io_recv_buf w)
                     (trace w ++ calls)).
  apply Z.eqb_neq in Hsub. rewrite Hsub. cbn [negb]. rewrite Hfs, Hstat, Hdir.
  destruct (nih_dir_add_file_watch_asks E dir_watch p w1 Hmem)
    as (w2 & tr2 & Hrun2 & Hdw2 & Hfd2 & Htr2 & Hreq2);
    [by cbn; rewrite Hdw | done |].
  rewrite (bind_run _ _ _ _ _ Hrun2).
  rewrite (bind_same _ _ _ _
             (nih_dir_walk_refines S_IFDIR (filter d) _
                (nih_dir_add_file_watch_zero E dir_watch) node p w2 Hopen)).
  destruct (visit_until_asks E dir_watch (walk_order p node S_IFDIR (filter d))
              Hmem w2 Hdw2 Hfd2) as (w3 & tr3 & Hrun3 & Htr3 & Hreq3).
  rewrite (bind_run _ _ _ _ _ Hrun3).
  exists w3, (tr2 ++ tr3). split; [reflexivity |].
  split.
  { rewrite Htr3, Htr2. unfold w1. cbn [trace]. by rewrite <- !app_assoc. }
  by rewrite requests_app, Hreq2, Hreq3.
Qed.

Lemma X18_new_directory_is_watched_witness :
  exists w' tr,
    nih_dir_watcher (env_tree true) 1 2 IN_MOVED_TO 0 (Some "d"%string) world_tree
    = Some (tt, w') /\
    trace w' = E_create_handler 11 0 1 "/r/d" :: tr /\
    requests tr = ["/r/d"; "/r/d/e"]%string.
Proof.
  destruct (X18_new_directory_is_watched (env_tree true) 1 2 IN_MOVED_TO 0 "d"
              world_tree (mkAlloc (BDir dw_tree) None [2%nat; 3%nat] None) dw_tree
              (mkAlloc (BFile (mkFileWatch 1 "/r" DIR_EVENTS W_nih_dir_watcher
                                           1%nat))
                       (Some 1%nat) [] (Some D_nih_file_remove_watch))
              (mkFileWatch 1 "/r" DIR_EVENTS W_nih_dir_watcher 1%nat)
              node_d dir_mode)
    as (w' & tr & Hrun & Htr & Hreq); try done.
  by exists w', tr.
Defined.

(** ** nih_dir_add_watch and nih_file_reader: events reach the tree watch *)

Lemma wired_log dw w w' more :
  heap w' = heap w -> trace w' = trace w ++ more -> wired dw w -> wired dw w'.
Proof.
  intros Hh Ht (adw & d & Hdw & Hbd & Hcs). exists adw, d. rewrite Hh.
  split; [done |]. split; [done |]. intros c Hc.
  destruct (Hcs c Hc) as (a & f & Ha & Hb & Hw & Hd & fd & Hin).
  exists a, f. repeat split; try done. exists fd. rewrite Ht, elem_of_app. by left.
Qed.

Lemma wired_add_watch E dw path :
  keeps (wired dw)
        (nih_file_add_watch E (Some dw) path DIR_EVENTS W_nih_dir_watcher dw).
Proof.
  intros w r w' Hrun (adw & d & Hdw & Hbd & Hcs).
  destruct (init_world_trace E w) as (pre & Hpre & _ & _).
  destruct (nih_file_add_watch_outcome E (Some dw) path DIR_EVENTS
              W_nih_dir_watcher dw w r w') as [Hcase | [Hcase | Hcase]];
    [by cbn; rewrite Hdw | exact Hrun | | |].
  - destruct Hcase as [_ ->].
    apply (wired_log dw w _ (pre ++ [E_error_raise_system])).
    + cbn. apply init_world_heap.
    + cbn. by rewrite Hpre, app_assoc.
    + by exists adw, d.
  - destruct Hcase as (_ & _ & Htr' & _ & Hoth' & Hq').
    set (p := fresh (dom (heap w))) in *.
    eexists _, d. rewrite (Hq' dw eq_refl), Hdw. cbn.
    split; [reflexivity |]. split; [done |]. intros c Hc.
    apply elem_of_filter_neq in Hc as [Hc Hcp].
    apply elem_of_app in Hc as [Hc | ->%list_elem_of_singleton]; [| done].
    destruct (Hcs c Hc) as (a & f & Ha & Hb & Hw & Hd & fd & Hin).
    assert (c ≠ dw).
    { intros ->. rewrite Hdw in Ha. injection Ha as <-. by rewrite Hbd in Hb. }
    exists a, f. rewrite Hoth' by congruence. repeat split; try done.
    exists fd. rewrite Htr', Hpre, !elem_of_app. by left; left.
  - destruct Hcase as (_ & _ & Htr' & _ & Hp' & Hoth' & Hq').
    set (p := fresh (dom (heap w))) in *.
    eexists _, d. rewrite (Hq' dw eq_refl), Hdw. cbn.
    split; [reflexivity |]. split; [done |]. intros c Hc.
    apply elem_of_app in Hc as [Hc | ->%list_elem_of_singleton].
    + destruct (Hcs c Hc) as (a & f & Ha & Hb & Hw & Hd & fd & Hin).
      assert (c ≠ dw).
      { intros ->. rewrite Hdw in Ha. injection Ha as <-. by rewrite Hbd in Hb. }
      assert (c ≠ p).
      { intros ->. unfold p in Ha. by rewrite fresh_lookup in Ha. }
      exists a, f. rewrite Hoth' by congruence. repeat split; try done.
      exists fd. rewrite Htr', Hpre, !elem_of_app. by left; left.
    + eexists _, _. split; [exact Hp' |]. repeat split.
      eexists. rewrite Htr', elem_of_app. right. cbn. list_mem.
Qed.

Lemma wired_add_file_watch E dw sp :
  keeps (wired dw) (nih_dir_add_file_watch E dw sp).
Proof.
  intros w r w'. unfold nih_dir_add_file_watch.
  intros (r1 & w1 & Hadd & Hrest)%bind_Some HW.
  pose proof (wired_add_watch E dw sp w r1 w1 Hadd HW) as HW1.
  destruct r1 as [p |].
  - by injection Hrest as _ <-.
  - injection Hrest as _ <-. by apply (wired_log dw w1 _ [E_warn sp]).
Qed.

Lemma wired_start E parent d w p w1 :
  parent_allocated w parent ->
  nih_new E parent (BDir d) w = Some (Some p, w1) -> wired p w1.
Proof.
  intros Hpar. unfold nih_new. rewrite run_get.
  destruct (sys_malloc_ok E (trace w)); [| discriminate].
  rewrite run_modify. intros [= <- <-].
  pose proof (parent_not_fresh w parent Hpar) as Hne.
  exists (mkAlloc (BDir d) parent [] None), d. cbn [heap set_heap].
  split; [| split; [done |]].
  - destruct parent as [q |].
    + rewrite lookup_alter_ne by congruence. apply lookup_insert_eq.
    + apply lookup_insert_eq.
  - intros c Hc. by apply elem_of_nil in Hc.
Qed.

(** What holds of the fresh tree watch, and is kept by the watch on the
    root and by the visitor of the walk, holds of the tree watch that
    [nih_dir_add_watch] returns. *)
Lemma nih_dir_add_watch_establishes (P : ptr -> World -> Prop)
    E parent path subdirs filter ch mh dh data w dw w1 :
  (forall p w', nih_new E parent
                  (BDir (mkDirWatch path subdirs filter ch mh dh data)) w
                = Some (Some p, w') -> P p w') ->
  (forall p sp, keeps (P p) (nih_file_add_watch E (Some p) sp DIR_EVENTS
                                                W_nih_dir_watcher p)) ->
  (forall p sp, keeps (P p) (nih_dir_add_file_watch E p sp)) ->
  (forall p w', P p w' -> P p (log_event E_error_raise_system w')) ->
  nih_dir_add_watch E parent path subdirs filter ch mh dh data w
  = Some (Some dw, w1) ->
  P dw w1.
Proof.
  intros Hstart Hadd Hvis Hlog. unfold nih_dir_add_watch. rewrite run_get.
  destruct (node_stat (sys_fs E (trace w) path)) as [st_mode |]; [| done].
  destruct (S_ISDIR st_mode); cbn [negb]; [| done].
  intros ([p |] & w2 & Hnew & Hrun)%bind_Some; [| done].
  apply Hstart in Hnew.
  apply bind_Some in Hrun as ([root |] & w3 & Hroot & Hrun); cycle 1.
  { by apply bind_Some in Hrun as ([] & w4 & _ & [=]). }
  pose proof (Hadd p path w2 _ w3 Hroot Hnew) as H3.
  destruct (negb (subdirs =? 0)); [| by injection Hrun as <- <-].
  rewrite run_get in Hrun.
  apply bind_Some in Hrun as (r4 & w4 & Hwalk & Hrun).
  destruct (r4 <? 0).
  { by apply bind_Some in Hrun as ([] & w5 & _ & [=]). }
  injection Hrun as <- <-.
  eapply (nih_dir_walk_keeps (P p)); [apply Hvis | apply Hlog | exact Hwalk | exact H3].
Qed.

Lemma first_holder (P : ptr -> bool) (l : list ptr) c :
  c ∈ l -> P c = true ->
  exists pre x post, l = pre ++ x :: post /\ P x = true /\
                     forall q, q ∈ pre -> P q = false.
Proof.
  induction l as [| y l IH]; intros Hin Hc; [by apply elem_of_nil in Hin |].
  destruct (P y) eqn:Hy.
  - exists [], y, l. split; [done |]. split; [done |].
    intros q Hq. by apply elem_of_nil in Hq.
  - apply elem_of_cons in Hin as [-> | Hin]; [congruence |].
    destruct (IH Hin Hc) as (pre & x & post & -> & Hx & Hpre).
    exists (y :: pre), x, post. split; [done |]. split; [done |].
    intros q [-> | Hq]%elem_of_cons; [done | by apply Hpre].
Qed.

Lemma wd_at_add_child w w' q c :
  heap w' !! q = add_child c <$> heap w !! q -> wd_at w' q = wd_at w q.
Proof.
  unfold wd_at. intros ->. by destruct (heap w !! q) as [[[] ? ? ?] |].
Qed.

(** X19: events reach the tree watch.  After [nih_dir_add_watch] has
    returned a tree watch, an event for a descriptor that no earlier
    registration holds, and that some registered watch holds, is
    dispatched to [nih_dir_watcher], with the tree watch as its first
    argument and, as its second, a watch that the tree watch owns,
    that holds the descriptor, and for whose path the kernel gave that
    descriptor. *)
Theorem X19_events_reach_the_tree_watch (E : Env) (parent : option ptr)
    (root : string) (subdirs : Z) (filter : option (string -> bool))
    (ch mh dh : option nat) (data : ptr) (w w1 : World) (dw : ptr)
    (event : inotify_event) (c : ptr) :
  parent_allocated w parent ->
  registry_allocated w ->
  nih_dir_add_watch E parent root subdirs filter ch mh dh data w
  = Some (Some dw, w1) ->
  (forall q, q ∈ file_watches w -> wd_at w q ≠ ev_wd event) ->
  c ∈ file_watches w1 -> wd_at w1 c = ev_wd event ->
  exists watch a f fd,
    watch ∈ file_watches w1 /\
    heap w1 !! watch = Some a /\ a_block a = BFile f /\
    a_parent a = Some dw /\ wd f = ev_wd event /\
    E_inotify_add_watch fd (path f) DIR_EVENTS (ev_wd event) ∈ trace w1 /\
    dispatch E (file_watches w1) event w1
    = nih_dir_watcher E dw watch (ev_mask event) (ev_cookie event)
                      (event_name event) w1.
Proof.
  intros Hpar Hreg Hrun Hfree Hc Hwd.
  destruct (nih_dir_add_watch_ends E parent root subdirs filter ch mh dh data
              w _ w1 Hpar Hreg Hrun)
    as [[? _] | [[? _] | [Hdw (cs & tr & HB)]]]; [discriminate | discriminate |].
  injection Hdw as ->.
  set (dw := fresh (dom (heap w))) in *.
  assert (HW : wired dw w1).
  { apply (nih_dir_add_watch_establishes wired E parent root subdirs filter
             ch mh dh data w _ w1); [| | | | exact Hrun].
    - intros p w'. by apply wired_start.
    - intros p sp. apply wired_add_watch.
    - intros p sp. apply wired_add_file_watch.
    - intros p w' HW. by apply (wired_log p w' _ [E_error_raise_system]). }
  destruct HB as [Hblock Hnew Hnd Hleaf Hvalid Hfresh Hregs Hoth Hparent Htr Hgr Hrm].
  destruct HW as (adw & d & Hdw & Hbd & Hcs). rewrite Hblock in Hdw.
  injection Hdw as <-. cbn [a_children] in Hcs.
  (* the registered watches of before do not hold the descriptor *)
  assert (Hold : forall q, q ∈ file_watches w ->
            exists a f, heap w1 !! q = Some a /\ a_block a = BFile f /\
                        wd f ≠ ev_wd event).
  { intros q Hq. destruct (Hreg q Hq) as (a & f & Ha & Hb).
    assert (Hqdw : q ≠ dw) by (intros ->; by rewrite Hnew in Ha).
    assert (Hqcs : q ∉ cs) by (intros Hin; by rewrite (Hfresh q Hin) in Ha).
    pose proof (Hfree q Hq) as Hne. rewrite (wd_at_file w q a f Ha Hb) in Hne.
    destruct (decide (parent = Some q)) as [Hpq | Hpq].
    - exists (add_child dw a), f. rewrite (Hparent q Hpq), Ha. by repeat split.
    - exists a, f. rewrite (Hoth q Hqdw Hqcs Hpq). by repeat split. }
  assert (Hccs : c ∈ cs).
  { rewrite Hregs, elem_of_app in Hc. destruct Hc as [Hc | Hc]; [| done].
    destruct (Hold c Hc) as (a & f & Ha & Hb & Hne).
    by rewrite (wd_at_file w1 c a f Ha Hb) in Hwd. }
  destruct (first_holder (fun q => wd_at w1 q =? ev_wd event) cs c Hccs)
    as (pre & watch & post & Hsplit & Hx & Hpre); [by apply Z.eqb_eq |].
  apply Z.eqb_eq in Hx.
  assert (Hwcs : watch ∈ cs) by (rewrite Hsplit, elem_of_app; right; list_mem).
  destruct (Hcs watch Hwcs) as (a & f & Ha & Hb & Hw & Hd & fd & Hin).
  destruct (Hleaf watch Hwcs) as (a' & f' & Ha' & _ & _ & Hpa & _).
  rewrite Ha in Ha'. injection Ha' as <-.
  rewrite (wd_at_file w1 watch a f Ha Hb) in Hx.
  exists watch, a, f, fd. split; [rewrite Hregs, elem_of_app; by right |].
  do 4 (split; [done |]). split; [by rewrite <- Hx |].
  rewrite Hregs, Hsplit, app_assoc, dispatch_skip.
  - cbn [dispatch]. rewrite (run_load_file watch _ w1 a f Ha Hb).
    rewrite Hx, Z.eqb_refl. cbn [negb]. unfold call_watcher.
    by rewrite Hw, Hd.
  - intros q [Hq | Hq]%elem_of_app; [by apply Hold |].
    assert (Hqcs : q ∈ cs) by (rewrite Hsplit, elem_of_app; by left).
    destruct (Hleaf q Hqcs) as (aq & fq & Haq & Hbq & _).
    exists aq, fq. split; [done |]. split; [done |].
    rewrite <- (wd_at_file w1 q aq fq Haq Hbq).
    apply Z.eqb_neq. by apply Hpre.
Qed.

Lemma X19_events_reach_the_tree_watch_witness :
  exists dw w1 watch,
    nih_dir_add_watch (env_tree true) None "/r" 1 None None (Some 12%nat) None 0
                      world_empty
    = Some (Some dw, w1) /\
    dispatch (env_tree true) (file_watches w1)
             (mkEvent 2 IN_MODIFY 0 4 [x78; x00; x00; x00]) w1
    = nih_dir_watcher (env_tree true) dw watch IN_MODIFY 0 (Some "x"%string) w1.
Proof.
  destruct (nih_dir_add_watch (env_tree true) None "/r" 1 None None
              (Some 12%nat) None 0%nat world_empty)
    as [[[dw |] w1] |] eqn:Hrun; try by vm_compute in Hrun.
  destruct (X19_events_reach_the_tree_watch (env_tree true) None "/r" 1 None
              None (Some 12%nat) None 0%nat world_empty w1 dw
              (mkEvent 2 IN_MODIFY 0 4 [x78; x00; x00; x00]) 2%nat)
    as (watch & a & f & fd & _ & _ & _ & _ & _ & _ & Hdisp).
  - done.
  - intros q Hq. by apply elem_of_nil in Hq.
  - exact Hrun.
  - intros q Hq. by apply elem_of_nil in Hq.
  - vm_compute in Hrun. injection Hrun as _ <-. cbn. list_mem.
  - vm_compute in Hrun. by injection Hrun as _ <-.
  - by exists dw, w1, watch.
Defined.
